(** * Black_Detector: a shallow embedding of [detect_black.py]

    The script locates the [ffmpeg]/[ffprobe] executables, reads an optional
    [START_TIME] offset from a sidecar [.ini] file, runs ffmpeg's
    [blackdetect] filter, parses its diagnostic stream and prints a report.

    Data model used throughout:
    - a Python [str] is a [string]; every character is a code point below
      256 (the Latin-1 range), which covers every character the script's
      patterns and conversions distinguish;
    - a Python [float] is a primitive binary64 [float]; the arithmetic
      operators are the IEEE 754 operations of [PrimFloat];
    - a Python [int] is a [Z];
    - a raised exception is [None] in an [option] result. *)

From Stdlib Require Import ZArith Zpower QArith Qpower Qabs Qround Bool List Ascii.
From Stdlib Require Import String.
From Stdlib Require Import DecimalString DecimalN Lia Lqa Floats.
Import ListNotations.

Local Open Scope string_scope.
Local Open Scope Z_scope.

(** ** Option monad for code that may raise *)

Definition obind {A B : Type} (x : option A) (f : A -> option B) : option B :=
  match x with
  | Some a => f a
  | None => None
  end.

Notation "x <- e ;; k" := (obind e (fun x => k))
  (at level 61, e at next level, right associativity).

(** ** Characters and strings *)

Definition code (c : ascii) : nat := nat_of_ascii c.

(** [\d] of [re] and the digits [float()] accepts, below code point 256. *)
Definition is_digit (c : ascii) : bool :=
  (48 <=? code c)%nat && (code c <=? 57)%nat.

Definition digit_value (c : ascii) : Z := Z.of_nat (code c) - 48.

(** [str.isspace], which is also [\s] of [re] and what [str.strip] removes:
    TAB..CR, FS..US, SPACE, NEL and NBSP. *)
Definition isspace (c : ascii) : bool :=
  ((9 <=? code c)%nat && (code c <=? 13)%nat)
  || ((28 <=? code c)%nat && (code c <=? 32)%nat)
  || (code c =? 133)%nat || (code c =? 160)%nat.

(** The white space [float()] strips: the C locale's, plus the non-ASCII
    spaces that the conversion first maps to a blank. *)
Definition float_space (c : ascii) : bool :=
  ((9 <=? code c)%nat && (code c <=? 13)%nat)
  || (code c =? 32)%nat || (code c =? 133)%nat || (code c =? 160)%nat.

Fixpoint lstrip_by (p : ascii -> bool) (s : string) : string :=
  match s with
  | EmptyString => EmptyString
  | String c s' => if p c then lstrip_by p s' else s
  end.

Fixpoint rstrip_by (p : ascii -> bool) (s : string) : string :=
  match s with
  | EmptyString => EmptyString
  | String c s' =>
      match rstrip_by p s' with
      | EmptyString => if p c then EmptyString else String c EmptyString
      | r => String c r
      end
  end.

(** [s.strip()] *)
Definition strip (s : string) : string := rstrip_by isspace (lstrip_by isspace s).

(** [s.split(sep)] for a one-character separator: never an empty list. *)
Fixpoint split (sep : ascii) (s : string) : list string :=
  match s with
  | EmptyString => [EmptyString]
  | String c s' =>
      if Ascii.eqb c sep then EmptyString :: split sep s'
      else match split sep s' with
           | [] => [String c EmptyString]
           | p :: ps => String c p :: ps
           end
  end.

(** [s.startswith(w)] *)
Fixpoint startswith (w s : string) : bool :=
  match w, s with
  | EmptyString, _ => true
  | String a w', String b s' => Ascii.eqb a b && startswith w' s'
  | String _ _, EmptyString => false
  end.

(** [w in s] *)
Fixpoint contains (w s : string) : bool :=
  startswith w s ||
  match s with
  | EmptyString => false
  | String _ s' => contains w s'
  end.

(** The suffix of [s] from position [n]. *)
Fixpoint drop (n : nat) (s : string) : string :=
  match n, s with
  | O, _ => s
  | S n', String _ s' => drop n' s'
  | S _, EmptyString => EmptyString
  end.

(** The prefix of [s] of length [n]. *)
Fixpoint take (n : nat) (s : string) : string :=
  match n, s with
  | S n', String c s' => String c (take n' s')
  | _, _ => EmptyString
  end.

Fixpoint repeat_char (c : ascii) (n : nat) : string :=
  match n with
  | O => EmptyString
  | S n' => String c (repeat_char c n')
  end.

(** Every character of [s] satisfies [p]. *)
Fixpoint all_chars (p : ascii -> bool) (s : string) : bool :=
  match s with
  | EmptyString => true
  | String c s' => p c && all_chars p s'
  end.

(** A non-empty run of digits: what [\d+] matches. *)
Definition digits (s : string) : bool := negb (String.eqb s "") && all_chars is_digit s.

(** The first character of [s], if any, does not satisfy [p]. *)
Definition stops (p : ascii -> bool) (s : string) : bool :=
  match s with
  | EmptyString => true
  | String c _ => negb (p c)
  end.

(** ** Python numbers *)

Module PyFloat.

(** The binary64 value nearest to [p / q] (ties to even), for [0 <= p] and
    [0 < q]: the quotient is taken with enough bits and rounded once, as
    in the reference division of [SpecFloat]. *)
Definition SF_of_ratio (p q : Z) : spec_float :=
  let '(m, e, l) := SFdiv_core_binary prec emax p 0 q 0 in
  binary_round_aux prec emax false m e l.

(** The value of a decimal literal: sign, digits [d] and decimal exponent
    [e10], correctly rounded as [float()] rounds it. *)
Definition decimal_to_float (neg : bool) (d e10 : Z) : float :=
  let a := SF_of_ratio (d * 10 ^ Z.max e10 0) (10 ^ Z.max (- e10) 0) in
  SF2Prim (if neg then SFopp a else a).

(** [float(n)] for an [int]. *)
Definition of_int (n : Z) : float :=
  SF2Prim (binary_normalize prec emax n 0 false).

(** [int(x)]: truncation toward zero; raises on NaN and infinities. *)
Definition to_int (x : float) : option Z :=
  match Prim2SF x with
  | S754_zero _ => Some 0
  | S754_finite s m e => Some (cond_Zopp s (Z.shiftl (Zpos m) e))
  | S754_infinity _ | S754_nan => None
  end.

(** C's [floor]. *)
Definition floor (x : float) : float :=
  match Prim2SF x with
  | S754_finite s m e =>
      if 0 <=? e then x else of_int (Z.shiftl (cond_Zopp s (Zpos m)) e)
  | _ => x
  end.

(** C's [fmod]: the exact remainder, with the sign of the dividend. *)
Definition SFfmod (x y : spec_float) : spec_float :=
  match x, y with
  | S754_nan, _ | _, S754_nan => S754_nan
  | S754_infinity _, _ => S754_nan
  | _, S754_zero _ => S754_nan
  | S754_zero _, _ => x
  | S754_finite _ _ _, S754_infinity _ => x
  | S754_finite sx mx ex, S754_finite _ my ey =>
      let e := Z.min ex ey in
      let r := Z.rem (Z.shiftl (Zpos mx) (ex - e)) (Z.shiftl (Zpos my) (ey - e)) in
      if r =? 0 then S754_zero sx
      else binary_normalize prec emax (cond_Zopp sx r) e false
  end.

Definition fmod (x y : float) : float := SF2Prim (SFfmod (Prim2SF x) (Prim2SF y)).

(** C's [copysign(0.0, w)]. *)
Definition zero_with_sign_of (w : float) : float :=
  if get_sign w then neg_zero else zero.

(** C truth value of a double: anything but a zero. *)
Definition nonzero (x : float) : bool := negb (x =? 0)%float.

(** [vx % wx] on floats (CPython's [float_rem]): the result takes the sign
    of the divisor; a zero divisor raises. *)
Definition rem (vx wx : float) : option float :=
  if (wx =? 0)%float then None
  else
    let m := fmod vx wx in
    Some (if nonzero m
          then if xorb (wx <? 0)%float (m <? 0)%float then (m + wx)%float else m
          else zero_with_sign_of wx).

(** [vx // wx] on floats (CPython's [_float_div_mod]): the quotient of
    [vx - fmod(vx, wx)] by [wx], corrected for the sign and snapped to an
    integral value; a zero divisor raises. *)
Definition floordiv (vx wx : float) : option float :=
  if (wx =? 0)%float then None
  else
    let m := fmod vx wx in
    let d := ((vx - m) / wx)%float in
    let d := if nonzero m && xorb (wx <? 0)%float (m <? 0)%float
             then (d - 1)%float else d in
    Some (if nonzero d
          then let f := floor d in
               if (0.5 <? d - f)%float then (f + 1)%float else f
          else zero_with_sign_of (vx / wx)%float).

(** *** [float(s)] for a string *)

(** Longest prefix of digits, and the rest. *)
Fixpoint span_digits (s : string) : string * string :=
  match s with
  | String c s' =>
      if is_digit c then let '(d, r) := span_digits s' in (String c d, r)
      else (EmptyString, s)
  | EmptyString => (EmptyString, EmptyString)
  end.

(** The number a string of digits writes, most significant first. *)
Fixpoint digits_value (acc : Z) (s : string) : Z :=
  match s with
  | EmptyString => acc
  | String c s' => digits_value (10 * acc + digit_value c) s'
  end.

(** Underscores are dropped when each stands between two digits. *)
Fixpoint remove_underscores (prev : ascii) (s : string) : option string :=
  match s with
  | EmptyString => if Ascii.eqb prev "_" then None else Some EmptyString
  | String c s' =>
      if Ascii.eqb c "_" then
        if is_digit prev then remove_underscores c s' else None
      else if Ascii.eqb prev "_" && negb (is_digit c) then None
      else option_map (String c) (remove_underscores c s')
  end.

Definition parse_sign (s : string) : bool * string :=
  match s with
  | String "-" s' => (true, s')
  | String "+" s' => (false, s')
  | _ => (false, s)
  end.

Definition lower (c : ascii) : ascii :=
  if ((65 <=? code c)%nat && (code c <=? 90)%nat)%bool
  then ascii_of_nat (code c + 32) else c.

Fixpoint lower_string (s : string) : string :=
  match s with
  | EmptyString => EmptyString
  | String c s' => String (lower c) (lower_string s')
  end.

(** The optional exponent part: [Some (e, rest)]; a letter [e] that no
    digit follows is left unread. *)
Definition parse_exponent (s : string) : Z * string :=
  match s with
  | String c s' =>
      if Ascii.eqb (lower c) "e" then
        let '(neg, s1) := parse_sign s' in
        match span_digits s1 with
        | (EmptyString, _) => (0, s)
        | (ds, r) => (cond_Zopp neg (digits_value 0 ds), r)
        end
      else (0, s)
  | EmptyString => (0, s)
  end.

(** A decimal number, read to the end of the string. *)
Definition parse_decimal (neg : bool) (s : string) : option float :=
  let '(ip, s1) := span_digits s in
  let '(fp, s2) :=
    match s1 with
    | String "." s1' => span_digits s1'
    | _ => (EmptyString, s1)
    end in
  match (String.length ip + String.length fp)%nat with
  | O => None
  | _ =>
      match parse_exponent s2 with
      | (e, EmptyString) =>
          Some (decimal_to_float neg (digits_value 0 (ip ++ fp))
                  (e - Z.of_nat (String.length fp)))
      | _ => None
      end
  end.

(** [inf], [infinity] and [nan], in any letter case. *)
Definition parse_special (neg : bool) (s : string) : option float :=
  let w := lower_string s in
  if String.eqb w "inf" || String.eqb w "infinity"
  then Some (if neg then neg_infinity else infinity)
  else if String.eqb w "nan" then Some nan
  else None.

(** [float(s)]: [None] stands for [ValueError]. *)
Definition of_string (s : string) : option float :=
  let t := rstrip_by float_space (lstrip_by float_space s) in
  t' <- remove_underscores Ascii.zero t ;;
  let '(neg, body) := parse_sign t' in
  match parse_decimal neg body with
  | Some x => Some x
  | None => parse_special neg body
  end.

End PyFloat.

(** ** Formatting an [int] with a zero-padded width: [f"{n:0w}"] *)

Definition decimal_digits (n : Z) : string :=
  NilZero.string_of_uint (N.to_uint (Z.abs_N n)).

Definition format_int_zero (width : nat) (n : Z) : string :=
  let ds := decimal_digits n in
  let sign := if n <? 0 then "-" else "" in
  let used := (String.length sign + String.length ds)%nat in
  sign ++ repeat_char "0" (width - used) ++ ds.

(** ** Formatting a [float] with no decimals: [f"{x:.0f}"]

    The decimal digits of the whole number nearest to the exact value of
    [x], a tie going to the even one; a minus sign when the sign bit is
    set, also before a zero; [inf] and [nan] spelt out. *)

(** [m * 2^e] rounded to the nearest whole number, ties to even. *)
Definition round_half_even (m e : Z) : Z :=
  if 0 <=? e then m * 2 ^ e
  else
    let k := 2 ^ (- e) in
    let q := m / k in
    let r := m mod k in
    if 2 * r <? k then q
    else if k <? 2 * r then q + 1
    else if Z.even q then q else q + 1.

Definition format_float_0f (x : float) : string :=
  match Prim2SF x with
  | S754_nan => "nan"
  | S754_infinity s => (if s then "-" else "") ++ "inf"
  | S754_zero s => (if s then "-" else "") ++ "0"
  | S754_finite s m e =>
      (if s then "-" else "") ++ decimal_digits (round_half_even (Zpos m) e)
  end.

(** ** [format_time_full] *)

Definition format_time_full (seconds : float) : option string :=
  h <- PyFloat.floordiv seconds 3600 ;;
  hours <- PyFloat.to_int h ;;
  r <- PyFloat.rem seconds 3600 ;;
  m <- PyFloat.floordiv r 60 ;;
  minutes <- PyFloat.to_int m ;;
  s <- PyFloat.rem seconds 60 ;;
  secs <- PyFloat.to_int s ;;
  whole <- PyFloat.to_int seconds ;;
  msecs <- PyFloat.to_int ((seconds - PyFloat.of_int whole) * 1000)%float ;;
  Some (format_int_zero 2 hours ++ ":" ++ format_int_zero 2 minutes ++ ":"
        ++ format_int_zero 2 secs ++ ":" ++ format_int_zero 3 msecs).

(** ** Regular expressions: the backtracking matcher of [re]

    Greedy repetition, leftmost alternative first, and capturing groups
    whose text is kept only along the branch that succeeds. *)

Module Re.

Inductive regex : Type :=
| Eps
| Chr (p : ascii -> bool)
| Cat (r1 r2 : regex)
| Star (r : regex)
| Opt (r : regex)
| Group (i : nat) (r : regex).

(** Captured groups, most recent first. *)
Definition groups := list (nat * string).

Fixpoint group (g : groups) (i : nat) : option string :=
  match g with
  | [] => None
  | (j, v) :: g' => if Nat.eqb i j then Some v else group g' i
  end.

(** Greedy repetition of a matcher [m]: one more turn while [m] consumes
    something, then the continuation [k]; at most [fuel] turns, and a turn
    that consumes nothing is refused. *)
Definition star_loop {R : Type}
    (m : string -> groups -> (string -> groups -> option R) -> option R)
    (k : string -> groups -> option R) : nat -> string -> groups -> option R :=
  fix loop (fuel : nat) (s : string) (g : groups) {struct fuel} : option R :=
    match fuel with
    | O => k s g
    | S fuel' =>
        match m s g (fun s' g' =>
                       if (String.length s' <? String.length s)%nat
                       then loop fuel' s' g' else None) with
        | Some x => Some x
        | None => k s g
        end
    end.

(** [run r s g k]: match [r] at the head of [s], then continue with [k]
    on what is left; [None] makes the matcher backtrack. *)
Fixpoint run {R : Type} (r : regex) (s : string) (g : groups)
         (k : string -> groups -> option R) {struct r} : option R :=
  match r with
  | Eps => k s g
  | Chr p =>
      match s with
      | String c s' => if p c then k s' g else None
      | EmptyString => None
      end
  | Cat r1 r2 => run r1 s g (fun s' g' => run r2 s' g' k)
  | Opt r1 =>
      match run r1 s g k with
      | Some x => Some x
      | None => k s g
      end
  | Group i r1 =>
      run r1 s g
        (fun s' g' => k s' ((i, take (String.length s - String.length s') s) :: g'))
  | Star r1 => star_loop (run r1) k (String.length s) s g
  end.

(** The ways [r] can match at the head of a string: [matches r s g s' g']
    consumes the part of [s] before [s'] and turns the groups [g] into [g']. *)
Inductive matches : regex -> string -> groups -> string -> groups -> Prop :=
| M_eps s g : matches Eps s g s g
| M_chr (p : ascii -> bool) c s g : p c = true -> matches (Chr p) (String c s) g s g
| M_cat r1 r2 s g s1 g1 s2 g2 :
    matches r1 s g s1 g1 -> matches r2 s1 g1 s2 g2 -> matches (Cat r1 r2) s g s2 g2
| M_opt_some r s g s' g' : matches r s g s' g' -> matches (Opt r) s g s' g'
| M_opt_none r s g : matches (Opt r) s g s g
| M_group i r s g s' g' :
    matches r s g s' g' ->
    matches (Group i r) s g s' ((i, take (String.length s - String.length s') s) :: g')
| M_star_stop r s g : matches (Star r) s g s g
| M_star_more r s g s1 g1 s2 g2 :
    matches r s g s1 g1 -> (String.length s1 < String.length s)%nat ->
    matches (Star r) s1 g1 s2 g2 -> matches (Star r) s g s2 g2.

(** [pattern.match(s)]: at the start of [s] only. *)
Definition match_ (r : regex) (s : string) : option groups :=
  run r s [] (fun _ g => Some g).

(** [pattern.fullmatch(s)]: the whole of [s]. *)
Definition fullmatch (r : regex) (s : string) : option groups :=
  run r s [] (fun s' g => if String.eqb s' "" then Some g else None).

(** [pattern.search(s)]: the leftmost position where [r] matches. *)
Fixpoint search (r : regex) (s : string) : option groups :=
  match match_ r s with
  | Some g => Some g
  | None =>
      match s with
      | EmptyString => None
      | String _ s' => search r s'
      end
  end.

Fixpoint lit (w : string) : regex :=
  match w with
  | EmptyString => Eps
  | String c w' => Cat (Chr (Ascii.eqb c)) (lit w')
  end.

Definition plus (r : regex) : regex := Cat r (Star r).

Definition digit : regex := Chr is_digit.
Definition space : regex := Chr isspace.

End Re.

Definition dquote : ascii := "034"%char.
Definition newline : ascii := "010"%char.

Definition carriage_return : ascii := "013"%char.

(** ** The world outside the script *)

(** What the child process running ffmpeg delivers on its diagnostic
    stream, as the reading loop sees it: a line, or the operator's
    interrupt signal (raised as [KeyboardInterrupt]). An interrupt after the
    last line is one that arrives while waiting for the child. The exit
    status of the child is no part of it: the script calls [proc.wait()]
    and drops the value, so a child that fails shows in the text of its
    stream only. *)
Inductive event : Type :=
| Line (text : string)
| Interrupt.

(** The operating system as the script queries it. *)
Record system : Type := {
  os_name_nt : bool;                        (* os.name == "nt" *)
  getenv : string -> option string;         (* os.getenv *)
  isdir : string -> bool;                   (* os.path.isdir *)
  isfile : string -> bool;                  (* os.path.isfile *)
  path_exists : string -> bool;             (* os.path.exists *)
  path_join : string -> string -> string;   (* os.path.join *)
  dirname : string -> string;               (* os.path.dirname *)
  which : string -> option string;          (* shutil.which *)
  base_dir : string;                        (* sys._MEIPASS, or the script's folder *)
  read_text : string -> option string;      (* open(p).read(); None when it raises *)
  ffprobe_output : string -> string -> option string;
                                            (* check_output; None when it raises *)
  ffmpeg_stderr : string -> string -> float -> float -> list event
                                            (* the child's diagnostic stream *)
}.

Definition nonempty (s : string) : bool := negb (String.eqb s "").

Definition exe (sys : system) (name : string) : string :=
  if os_name_nt sys then name ++ ".exe" else name.

(** ** [find_ffmpeg] and [find_ffprobe] *)

Definition find_ffmpeg (sys : system) : option string :=
  let from_env :=
    match getenv sys "FFMPEG_PATH" with
    | Some env_path =>
        if nonempty env_path then
          let ffmpeg_exec :=
            if isdir sys env_path then path_join sys env_path (exe sys "ffmpeg")
            else env_path in
          if isfile sys ffmpeg_exec then Some ffmpeg_exec else None
        else None
    | None => None
    end in
  match from_env with
  | Some p => Some p
  | None =>
      let bundled_ffmpeg :=
        path_join sys (path_join sys (base_dir sys) "bin") (exe sys "ffmpeg") in
      if isfile sys bundled_ffmpeg then Some bundled_ffmpeg
      else
        match which sys "ffmpeg" with
        | Some ffmpeg_in_path =>
            if nonempty ffmpeg_in_path then Some ffmpeg_in_path else None
        | None => None
        end
  end.

Definition find_ffprobe (sys : system) : option string :=
  let near_ffmpeg :=
    match find_ffmpeg sys with
    | Some ffmpeg_exec =>
        if nonempty ffmpeg_exec then
          let candidate := path_join sys (dirname sys ffmpeg_exec) (exe sys "ffprobe") in
          if isfile sys candidate then Some candidate else None
        else None
    | None => None
    end in
  match near_ffmpeg with
  | Some p => Some p
  | None =>
      match which sys "ffprobe" with
      | Some ffprobe_in_path =>
          if nonempty ffprobe_in_path then Some ffprobe_in_path else None
      | None => None
      end
  end.

(** ** [get_video_duration]: [None] is the fatal exit of its handler *)

Definition get_video_duration (sys : system) (video_file ffprobe_path : string)
  : option float :=
  output <- ffprobe_output sys ffprobe_path video_file ;;
  PyFloat.of_string (strip output).

(** ** [time_str_to_seconds] *)

(** The body of the [try]: [None] when an exception is raised. *)
Definition time_str_to_seconds_try (time_str : string) : option float :=
  let parts := split ":" time_str in
  p0 <- nth_error parts 0 ;;
  hours <- PyFloat.of_string p0 ;;
  p1 <- nth_error parts 1 ;;
  minutes <- PyFloat.of_string p1 ;;
  p2 <- nth_error parts 2 ;;
  seconds <- PyFloat.of_string p2 ;;
  Some (hours * 3600 + minutes * 60 + seconds)%float.

Definition time_str_to_seconds (time_str : string) : float :=
  match time_str_to_seconds_try time_str with
  | Some v => v
  | None => 0%float
  end.

(** ** [parse_ini_offset] *)

(** [START_TIME\s*=\s*Q([^Q]+)Q], where [Q] stands for the double quote. *)
Definition start_time_pattern : Re.regex :=
  let not_quote := Re.Chr (fun c => negb (Ascii.eqb c dquote)) in
  Re.Cat (Re.lit "START_TIME")
    (Re.Cat (Re.Star Re.space)
       (Re.Cat (Re.Chr (Ascii.eqb "="))
          (Re.Cat (Re.Star Re.space)
             (Re.Cat (Re.Chr (Ascii.eqb dquote))
                (Re.Cat (Re.Group 1 (Re.plus not_quote))
                   (Re.Chr (Ascii.eqb dquote))))))).

(** [(?:(\d+)h)?(?:(\d+)m)?(?:(\d+(?:\.\d+)?)s)?] *)

(** [(?:(\d+)u)?] with group number [i] *)
Definition hm_unit (i : nat) (u : ascii) : Re.regex :=
  Re.Opt (Re.Cat (Re.Group i (Re.plus Re.digit)) (Re.Chr (Ascii.eqb u))).

(** [(?:(\d+(?:\.\d+)?)s)?] with group number 3 *)
Definition seconds_unit : Re.regex :=
  Re.Opt
    (Re.Cat
       (Re.Group 3
          (Re.Cat (Re.plus Re.digit)
             (Re.Opt (Re.Cat (Re.Chr (Ascii.eqb ".")) (Re.plus Re.digit)))))
       (Re.Chr (Ascii.eqb "s"))).

Definition hms_pattern : Re.regex :=
  Re.Cat (hm_unit 1 "h") (Re.Cat (hm_unit 2 "m") seconds_unit).

(** [float(m.group(i)) if m.group(i) else 0.0] *)
Definition component (g : Re.groups) (i : nat) : option float :=
  match Re.group g i with
  | Some v => if nonempty v then PyFloat.of_string v else Some 0%float
  | None => Some 0%float
  end.

(** The body of the [try], on the text read from the file. *)
Definition parse_ini_offset_try (content : string) : option float :=
  match Re.search start_time_pattern content with
  | Some g =>
      v <- Re.group g 1 ;;
      let time_str := strip v in
      match Re.match_ hms_pattern time_str with
      | Some tg =>
          hours <- component tg 1 ;;
          minutes <- component tg 2 ;;
          seconds <- component tg 3 ;;
          Some (hours * 3600 + minutes * 60 + seconds)%float
      | None => Some 0%float
      end
  | None => Some 0%float
  end.

Definition parse_ini_offset (sys : system) (ini_filepath : string) : float :=
  match content <- read_text sys ini_filepath ;; parse_ini_offset_try content with
  | Some offset => offset
  | None => 0%float
  end.

(** ** [detect_black_frames] *)

Record interval : Type := {
  start : float;
  end_ : float;
  duration : float
}.

(** [time=(\d{2}:\d{2}:\d{2}\.\d+)] *)
Definition time_pattern : Re.regex :=
  let d2 := Re.Cat Re.digit Re.digit in
  let colon := Re.Chr (Ascii.eqb ":") in
  Re.Cat (Re.lit "time=")
    (Re.Group 1
       (Re.Cat d2 (Re.Cat colon (Re.Cat d2 (Re.Cat colon
          (Re.Cat d2 (Re.Cat (Re.Chr (Ascii.eqb ".")) (Re.plus Re.digit)))))))).

(** [black_start:([\d\.]+)\s+black_end:([\d\.]+)\s+black_duration:([\d\.]+)] *)
Definition digit_or_dot (c : ascii) : bool := is_digit c || Ascii.eqb c ".".

Definition black_pattern : Re.regex :=
  let num := Re.plus (Re.Chr digit_or_dot) in
  Re.Cat (Re.lit "black_start:")
    (Re.Cat (Re.Group 1 num)
       (Re.Cat (Re.plus Re.space)
          (Re.Cat (Re.lit "black_end:")
             (Re.Cat (Re.Group 2 num)
                (Re.Cat (Re.plus Re.space)
                   (Re.Cat (Re.lit "black_duration:") (Re.Group 3 num))))))).

(** What the loop holds between two lines: the intervals found so far and
    the progress percentages written so far (the script writes each one
    formatted without decimals, over the previous one). *)
Record detector : Type := {
  black_frames : list interval;
  progress_shown : list float
}.

(** One turn of the loop body; [None] when an exception other than the
    interrupt leaves it. *)
Definition process_line (total_duration : float) (st : detector) (line : string)
  : option detector :=
  let line := strip line in
  shown <-
    match Re.search time_pattern line with
    | Some g =>
        current_time_str <- Re.group g 1 ;;
        let current_time_sec := time_str_to_seconds current_time_str in
        if (total_duration =? 0)%float then None
        else Some (progress_shown st
                   ++ [(current_time_sec / total_duration * 100)%float])%list
    | None => Some (progress_shown st)
    end ;;
  match Re.search black_pattern line with
  | Some g =>
      s <- Re.group g 1 ;;
      e <- Re.group g 2 ;;
      d <- Re.group g 3 ;;
      start <- PyFloat.of_string s ;;
      end_ <- PyFloat.of_string e ;;
      duration <- PyFloat.of_string d ;;
      Some {| black_frames := (black_frames st
                ++ [{| start := start; end_ := end_; duration := duration |}])%list;
              progress_shown := shown |}
  | None => Some {| black_frames := black_frames st; progress_shown := shown |}
  end.

(** How a call of [detect_black_frames] ends. *)
Inductive detection : Type :=
| Returned (frames : list interval)
| Exited (message : string) (child_terminated : bool)
| Raised.

Definition interrupted_message : string := "Processus interrompu par l'utilisateur.".

Fixpoint detect_loop (total_duration : float) (st : detector) (stream : list event)
  : detection :=
  match stream with
  | [] => Returned (black_frames st)
  | Interrupt :: _ => Exited interrupted_message true
  | Line text :: rest =>
      match process_line total_duration st text with
      | Some st' => detect_loop total_duration st' rest
      | None => Raised
      end
  end.

Definition detect_black_frames (sys : system) (video_file ffmpeg_path : string)
    (total_duration duration_threshold pic_threshold : float) : detection :=
  detect_loop total_duration {| black_frames := []; progress_shown := [] |}
    (ffmpeg_stderr sys ffmpeg_path video_file duration_threshold pic_threshold).

(** What the script sends to standard output: a line given to [print],
    which ends it with a newline, or a text given to [sys.stdout.write],
    which sends it as it is. *)
Inductive output : Type :=
| Printed (line : string)
| Written (text : string).

(** [sys.stdout.write(f"\rTraitement : {progress:.0f}%")] *)
Definition progress_write (progress : float) : output :=
  Written (String carriage_return ("Traitement : " ++ format_float_0f progress ++ "%")).

(** The percentage that one turn of the loop writes, when it writes one:
    the line holds a progress token and the division raises nothing. *)
Definition line_progress (total_duration : float) (line : string) : option float :=
  match Re.search time_pattern (strip line) with
  | Some g =>
      current_time_str <- Re.group g 1 ;;
      let current_time_sec := time_str_to_seconds current_time_str in
      if (total_duration =? 0)%float then None
      else Some (current_time_sec / total_duration * 100)%float
  | None => None
  end.

(** What the call has sent to standard output by the time it ends, however
    it ends: the progress of each line read and, once the stream is
    exhausted and the child waited for, a newline. A line that raises
    after its progress was written leaves that text behind; the interrupt
    writes nothing. [detect_loop] follows the same loop for the result. *)
Fixpoint detect_written (total_duration : float) (st : detector) (stream : list event)
  : list output :=
  match stream with
  | [] => [Written (String newline "")]
  | Interrupt :: _ => []
  | Line text :: rest =>
      (match line_progress total_duration text with
       | Some progress => [progress_write progress]
       | None => []
       end
       ++ match process_line total_duration st text with
          | Some st' => detect_written total_duration st' rest
          | None => []
          end)%list
  end.

Definition detect_output (sys : system) (video_file ffmpeg_path : string)
    (total_duration duration_threshold pic_threshold : float) : list output :=
  detect_written total_duration {| black_frames := []; progress_shown := [] |}
    (ffmpeg_stderr sys ffmpeg_path video_file duration_threshold pic_threshold).

(** What the reading loop writes for the lines of a stream that it reads
    to the end: the progress of each line that holds a token. *)
Definition progress_writes (total_duration : float) (lines : list string) : list output :=
  flat_map (fun l => match line_progress total_duration l with
                     | Some progress => [progress_write progress]
                     | None => []
                     end) lines.

(** ** [main]: what is sent to standard output, and how the run ends *)

Inductive ending : Type :=
| Completed
| Fatal (message : string)
| Crashed.

Definition ffmpeg_missing : string :=
  "Erreur : l'exécutable ffmpeg n'a pas été trouvé. Veuillez le placer dans le dossier 'bin' ou définir la variable d'environnement FFMPEG_PATH.".

Definition ffprobe_missing : string :=
  "Erreur : l'exécutable ffprobe n'a pas été trouvé. Veuillez le placer dans le dossier 'bin' ou ajuster la configuration.".

(** The text of the exception follows this prefix in the script. *)
Definition duration_failed : string :=
  "Erreur lors de la récupération de la durée de la vidéo : ".

Definition no_ini : string :=
  "Aucun fichier INI associé trouvé. Aucune correction d'offset ne sera appliquée.".

Definition nl (s : string) : string := String newline s.

Definition count_line (results : list interval) : string :=
  nl ("Nombres de séquences détectées = "
      ++ decimal_digits (Z.of_nat (List.length results)) ++ " Séquences").

(** The line printed for one interval; [None] when formatting raises. *)
Definition report_line (offset : float) (seq : interval) : option string :=
  debut <- format_time_full (start seq + offset)%float ;;
  fin <- format_time_full (end_ seq + offset)%float ;;
  duree <- format_time_full (duration seq) ;;
  Some ("Début : " ++ debut ++ ", Fin : " ++ fin ++ ", Durée : " ++ duree).

(** The [for] loop: the lines printed, and whether it ran to its end. *)
Fixpoint report_loop (offset : float) (results : list interval) : list string * bool :=
  match results with
  | [] => ([], true)
  | seq :: rest =>
      match report_line offset seq with
      | Some l => let '(ls, ok) := report_loop offset rest in (l :: ls, ok)
      | None => ([], false)
      end
  end.

Definition report (offset : float) (results : list interval) : list string * ending :=
  match results with
  | [] => ([nl "Aucune séquence noire détectée."; count_line results], Completed)
  | _ :: _ =>
      let '(ls, ok) := report_loop offset results in
      if ok
      then (nl "Séquences noires détectées :" :: ls ++ [count_line results], Completed)%list
      else (nl "Séquences noires détectées :" :: ls, Crashed)
  end.

(** [if not p] for the result of a locator. *)
Definition found (p : option string) : option string :=
  match p with
  | Some path => if nonempty path then Some path else None
  | None => None
  end.

Definition main (sys : system) (video : string) (duration threshold : float)
  : list output * ending :=
  match found (find_ffmpeg sys) with
  | None => ([], Fatal ffmpeg_missing)
  | Some ffmpeg_exec =>
      match found (find_ffprobe sys) with
      | None => ([], Fatal ffprobe_missing)
      | Some ffprobe_exec =>
          let ini_file := video ++ ".ini" in
          let offset :=
            if path_exists sys ini_file then parse_ini_offset sys ini_file else 0%float in
          let banner :=
            if path_exists sys ini_file
            then option_map (append "Offset START_TIME détecté : ") (format_time_full offset)
            else Some no_ini in
          match banner with
          | None => ([], Crashed)
          | Some line1 =>
              match get_video_duration sys video ffprobe_exec with
              | None => ([Printed line1], Fatal duration_failed)
              | Some total_duration =>
                  match format_time_full total_duration with
                  | None => ([Printed line1], Crashed)
                  | Some t =>
                      let line2 := "Durée totale de la vidéo : " ++ t in
                      let written :=
                        detect_output sys video ffmpeg_exec total_duration
                          duration threshold in
                      match detect_black_frames sys video ffmpeg_exec total_duration
                              duration threshold with
                      | Returned results =>
                          let '(ls, e) := report offset results in
                          ((Printed line1 :: Printed line2 :: written ++ map Printed ls)%list,
                           e)
                      | Exited message _ =>
                          ((Printed line1 :: Printed line2 :: written)%list, Fatal message)
                      | Raised =>
                          ((Printed line1 :: Printed line2 :: written)%list, Crashed)
                      end
                  end
              end
          end
      end
  end.

(** ** The report as the specification words it

    One line per detected interval, whose start and end are shifted by the
    offset and whose duration is not, then the count. *)




(** ** The claims about [time_str_to_seconds] as the specification words them *)

(** A string that is not a valid colon-separated time: fewer than three
    fields, or a field that is not numeric. *)
Definition not_a_time (s : string) : Prop :=
  (List.length (split ":" s) < 3)%nat
  \/ exists field, In field (split ":" s) /\ PyFloat.of_string field = None.

(** A string one of whose three leading fields is missing or not numeric. *)
Definition unusable_time (s : string) : Prop :=
  exists i, (i < 3)%nat /\
    match nth_error (split ":" s) i with
    | Some field => PyFloat.of_string field = None
    | None => True
    end.

(** ** The reading loop, line by line *)

Definition fresh : detector := {| black_frames := []; progress_shown := [] |}.

(** The loop body over a run of lines; [None] when one of them raises. *)
Fixpoint process_lines (total_duration : float) (st : detector) (lines : list string)
  : option detector :=
  match lines with
  | [] => Some st
  | l :: rest =>
      st' <- process_line total_duration st l ;;
      process_lines total_duration st' rest
  end.

(** ** A sample machine

    ffmpeg is installed in three places: the folder named by [FFMPEG_PATH],
    the bundled [bin] folder and the search path. The video has a sidecar
    file and the child reports one black interval. *)

Definition posix_join (a b : string) : string :=
  if startswith "/" b then b
  else if String.eqb a "" then b
  else a ++ "/" ++ b.

Definition sample_files : list string :=
  ["/opt/ff/ffmpeg"; "/opt/ff/ffprobe"; "/app/bin/ffmpeg"; "/app/bin/ffprobe";
   "/usr/bin/ffmpeg"; "/usr/bin/ffprobe"; "film.ts"; "film.ts.ini"].

Definition sample_stream : list event :=
  [Line "frame=  100 fps=0.0 q=-0.0 size=N/A time=00:00:04.00 bitrate=N/A";
   Line "[blackdetect @ 0x55d0c8a3b2c0] black_start:5.0 black_end:7.5 black_duration:2.5";
   Line "frame=  250 fps=0.0 q=-0.0 size=N/A time=00:00:10.00 bitrate=N/A"].

Definition sample_system (stream : list event) : system :=
  {| os_name_nt := false;
     getenv := fun name => if String.eqb name "FFMPEG_PATH" then Some "/opt/ff" else None;
     isdir := fun p => existsb (String.eqb p) ["/opt/ff"; "/app/bin"; "/usr/bin"; "/app"];
     isfile := fun p => existsb (String.eqb p) sample_files;
     path_exists := fun p => existsb (String.eqb p) sample_files;
     path_join := posix_join;
     dirname := fun p => if String.eqb p "/opt/ff/ffmpeg" then "/opt/ff" else "/usr/bin";
     which := fun name => Some ("/usr/bin/" ++ name);
     base_dir := "/app";
     read_text := fun p =>
       if String.eqb p "film.ts.ini"
       then Some ("START_TIME=" ++ String dquote ("10h36m22.010s" ++ String dquote ""))
       else None;
     ffprobe_output := fun _ _ => Some (String.append "10.000000" (String newline ""));
     ffmpeg_stderr := fun _ _ _ _ => stream |}.

(** A number written with digits and at most one point. *)
Definition written (ip : string) (fp : option string) : string :=
  match fp with
  | Some f => ip ++ String "." f
  | None => ip
  end.

Definition fraction (fp : option string) : string :=
  match fp with
  | Some f => f
  | None => ""
  end.

(** The binary64 value of the number written [ip] or [ip.fp]: the decimal
    expansion, rounded once to the nearest. *)
Definition read_number (ip : string) (fp : option string) : float :=
  PyFloat.decimal_to_float false
    (PyFloat.digits_value 0 (ip ++ fraction fp))
    (- Z.of_nat (String.length (fraction fp))).

(** ** A [START_TIME] value made of components

    Hours, minutes and seconds are each present or not; the seconds may
    have a fraction. *)

Definition unit_text (n : option string) (u : ascii) : string :=
  match n with
  | Some ds => ds ++ String u ""
  | None => ""
  end.

Definition seconds_text (n : option (string * option string)) : string :=
  match n with
  | Some (ds, f) => written ds f ++ "s"
  | None => ""
  end.

Definition hms_text (oh om : option string) (os : option (string * option string))
  : string :=
  unit_text oh "h" ++ unit_text om "m" ++ seconds_text os.

(** The number a component stands for; zero when it is missing. *)
Definition unit_number (n : option string) : float :=
  match n with
  | Some ds => read_number ds None
  | None => 0%float
  end.

Definition seconds_number (n : option (string * option string)) : float :=
  match n with
  | Some (ds, f) => read_number ds f
  | None => 0%float
  end.

Definition unit_ok (n : option string) : bool :=
  match n with
  | Some ds => digits ds
  | None => true
  end.

Definition seconds_ok (n : option (string * option string)) : bool :=
  match n with
  | Some (ds, Some f) => digits ds && digits f
  | Some (ds, None) => digits ds
  | None => true
  end.

(** The groups [hms_pattern] sets on such a value. *)
Definition hms_groups (oh om : option string) (os : option (string * option string))
  : Re.groups :=
  (match os with Some (ds, f) => [(3%nat, written ds f)] | None => [] end
   ++ match om with Some ds => [(2%nat, ds)] | None => [] end
   ++ match oh with Some ds => [(1%nat, ds)] | None => [] end)%list.

(** The text begins with digits and then the letter [u]. *)
Definition begins_with_unit (u : ascii) (v : string) : bool :=
  negb (stops is_digit v) && startswith (String u "") (lstrip_by is_digit v).

(** The text begins with digits, an optional point and digits, and then
    the letter [s]. *)
Definition begins_with_seconds (v : string) : bool :=
  negb (stops is_digit v)
  && (startswith "s" (lstrip_by is_digit v)
      || match lstrip_by is_digit v with
         | String "." t => negb (stops is_digit t) && startswith "s" (lstrip_by is_digit t)
         | _ => false
         end).

(** The text begins with a component of the time pattern. *)
Definition begins_with_component (v : string) : bool :=
  begins_with_unit "h" v || begins_with_unit "m" v || begins_with_seconds v.

(** The characters of a value made of components. *)
Definition hms_char (c : ascii) : bool :=
  is_digit c || Ascii.eqb c "." || Ascii.eqb c "h" || Ascii.eqb c "m" || Ascii.eqb c "s".

(** The text of a file that assigns [value] to [START_TIME]. *)
Definition assignment (pre ws1 ws2 value post : string) : string :=
  pre ++ "START_TIME" ++ ws1 ++ "=" ++ ws2
  ++ String dquote (value ++ String dquote post).

(** ** The detection line of the specification's example *)

Definition token : string := "black_start:5.0 black_end:7.5 black_duration:2.5".

Definition token_interval : interval := {| start := 5; end_ := 7.5; duration := 2.5 |}.

(** No proper suffix of [w] is a prefix of [w]: two occurrences of [w] in a
    text cannot overlap. *)
Definition unbordered (w : string) : bool :=
  forallb (fun j => negb (startswith (drop j w) w)) (seq 1 (String.length w - 1)).

(** The continuation of group 3: the letter [s], then [k] with the group
    set to what was consumed of [whole]. *)
Definition after_seconds {R : Type} (whole : string)
    (k : string -> Re.groups -> option R) : string -> Re.groups -> option R :=
  fun s' g' =>
    Re.run (Re.Chr (Ascii.eqb "s")) s'
      ((3%nat, take (String.length whole - String.length s') whole) :: g') k.

(** ** Malformed sidecar files

    As the specification words them: the file cannot be read, or holds no
    [START_TIME] assignment, or assigns a value that the time pattern does
    not match. *)
Definition malformed (file : option string) : Prop :=
  match file with
  | None => True
  | Some content =>
      match Re.search start_time_pattern content with
      | None => True
      | Some g =>
          exists v, Re.group g 1 = Some v /\ Re.fullmatch hms_pattern (strip v) = None
      end
  end.

(** As the script treats them: the file cannot be read, or holds no
    [START_TIME] assignment, or assigns a value that begins with no
    component of the time pattern. *)
Definition unusable_offset (file : option string) : Prop :=
  match file with
  | None => True
  | Some content =>
      match Re.search start_time_pattern content with
      | None => True
      | Some g =>
          exists v, Re.group g 1 = Some v /\ begins_with_component (strip v) = false
      end
  end.

(** A machine like the sample one, whose sidecar file holds [content]. *)
Definition with_sidecar (content : option string) : system :=
  let s := sample_system sample_stream in
  {| os_name_nt := os_name_nt s; getenv := getenv s; isdir := isdir s;
     isfile := isfile s; path_exists := path_exists s; path_join := path_join s;
     dirname := dirname s; which := which s; base_dir := base_dir s;
     read_text := fun _ => content;
     ffprobe_output := ffprobe_output s; ffmpeg_stderr := ffmpeg_stderr s |}.

(** A failure of the run other than that of the sidecar file, on the paths
    and at the duration that the run itself uses: an executable is not
    found; the offset or the duration cannot be formatted; the duration
    probe of the ffprobe found fails; the detection of the ffmpeg found, at
    the duration probed, does not return (a line raises, or the interrupt
    arrives); or a time of the report cannot be formatted. *)
Definition other_failure (sys : system) (video : string) (d t : float) : Prop :=
  let ini_file := video ++ ".ini" in
  let offset :=
    if path_exists sys ini_file then parse_ini_offset sys ini_file else 0%float in
  match found (find_ffmpeg sys), found (find_ffprobe sys) with
  | Some ffmpeg_exec, Some ffprobe_exec =>
      (path_exists sys ini_file = true /\ format_time_full offset = None)
      \/ match get_video_duration sys video ffprobe_exec with
         | None => True
         | Some total_duration =>
             format_time_full total_duration = None
             \/ match detect_black_frames sys video ffmpeg_exec total_duration d t with
                | Returned results =>
                    exists seq, In seq results /\ report_line offset seq = None
                | Exited _ _ | Raised => True
                end
         end
  | _, _ => True
  end.

(** ** Binary64 numbers as rationals *)

(** The float that [m * 2^e] packs into. *)
Definition pack (sx : bool) (m e : Z) : spec_float :=
  match m with
  | Z0 => S754_zero sx
  | Zpos p => if e <=? emax - prec then S754_finite sx p e else S754_infinity sx
  | Zneg _ => S754_nan
  end.

(** [2^e] for any integer [e]. *)
Definition pow2 (e : Z) : Q := ((2 # 1) ^ e)%Q.

(** The rational a finite float stands for. *)
Definition SF_value (x : spec_float) : Q :=
  match x with
  | S754_finite s m e => (inject_Z (cond_Zopp s (Zpos m)) * pow2 e)%Q
  | _ => 0%Q
  end.

(** Zero or finite: neither an infinity nor a NaN. *)
Definition SF_finite (x : spec_float) : bool :=
  match x with
  | S754_zero _ | S754_finite _ _ _ => true
  | _ => false
  end.

(** Sign bit clear and not a NaN. *)
Definition SF_nonneg (x : spec_float) : bool :=
  match x with
  | S754_zero false | S754_finite false _ _ | S754_infinity false => true
  | _ => false
  end.

(** A group text that [float] reads as a number: digits, or digits, a
    point and digits. *)
Definition numeric (v : string) : Prop :=
  exists ds f, v = written ds f /\ digits ds = true
               /\ all_chars is_digit (fraction f) = true.

(** The float is zero, positive or plus infinity. *)
Definition nonneg (x : float) : bool := SF_nonneg (Prim2SF x).

(** The rational a float stands for (zero for what is not finite). *)
Definition float_value (x : float) : Q := SF_value (Prim2SF x).

(** [x] is finite, not negative, and within [err] of the rational [a]. *)
Definition near (x : float) (a err : Q) : Prop :=
  SF_finite (Prim2SF x) = true /\ SF_nonneg (Prim2SF x) = true
  /\ (float_value x - a <= err)%Q /\ (a - float_value x <= err)%Q.

(** The number of seconds that [hh:mm:ss.f] writes, computed by hand. *)
Definition seconds_by_hand (hh mm ss f : string) : Q :=
  (inject_Z (PyFloat.digits_value 0 hh) * 3600
   + inject_Z (PyFloat.digits_value 0 mm) * 60
   + inject_Z (PyFloat.digits_value 0 (ss ++ f))
     / inject_Z (10 ^ Z.of_nat (String.length f)))%Q.

(** Two digits. *)
Definition two_digits (s : string) : bool :=
  digits s && Nat.eqb (String.length s) 2.

(** ** A machine to try the script on

    The files that exist, the value of [FFMPEG_PATH], whether the search
    path finds the executables, what ffprobe prints, the text of the
    sidecar file and the diagnostic stream of ffmpeg. *)

Fixpoint up_to_last_slash (p : string) : string :=
  match p with
  | EmptyString => EmptyString
  | String c p' => if contains "/" p' then String c (up_to_last_slash p') else EmptyString
  end.

Definition posix_dirname (p : string) : string :=
  match up_to_last_slash p with
  | EmptyString => if startswith "/" p then "/" else ""
  | d => d
  end.

Definition machine (env : option string) (files on_path : list string)
    (probe sidecar : option string) (stream : list event) : system :=
  {| os_name_nt := false;
     getenv := fun name => if String.eqb name "FFMPEG_PATH" then env else None;
     isdir := fun p => existsb (String.eqb p) ["/opt/ff"; "/app/bin"; "/usr/bin"; "/app"];
     isfile := fun p => existsb (String.eqb p) files;
     path_exists := fun p => existsb (String.eqb p) files;
     path_join := posix_join;
     dirname := posix_dirname;
     which := fun name =>
       if existsb (String.eqb name) on_path then Some ("/usr/bin/" ++ name) else None;
     base_dir := "/app";
     read_text := fun p => if existsb (String.eqb p) files then sidecar else None;
     ffprobe_output := fun _ _ => probe;
     ffmpeg_stderr := fun _ _ _ _ => stream |}.

(** ** A detection line with any three numbers

    [black_start:a], white space, [black_end:b], white space,
    [black_duration:c]. *)
Definition detection_text (a ws1 b ws2 c : string) : string :=
  "black_start:" ++ a ++ ws1 ++ "black_end:" ++ b ++ ws2 ++ "black_duration:" ++ c.

(** A progress token [time=HH:MM:SS.f]. *)
Definition progress_text (hh mm ss f : string) : string :=
  "time=" ++ hh ++ ":" ++ mm ++ ":" ++ ss ++ "." ++ f.

(** A run of characters of the class [p], at least one. *)
Definition run_of (p : ascii -> bool) (s : string) : bool :=
  negb (String.eqb s "") && all_chars p s.

(** What follows the components [oh], [om], [os] of a value does not go on
    with a component that the pattern would still take: nothing is looked
    for after the seconds, seconds after the minutes, minutes or seconds
    after the hours. *)
Definition not_continued (oh om : option string) (os : option (string * option string))
    (rest : string) : bool :=
  match os with
  | Some _ => true
  | None =>
      negb (begins_with_seconds rest)
      && match om with
         | Some _ => true
         | None =>
             negb (begins_with_unit "m" rest)
             && match oh with
                | Some _ => true
                | None => negb (begins_with_unit "h" rest)
                end
         end
  end.

(** ** Whole numbers in binary64

    The representation of a whole number [n] with [0 <= n < 2^53]: the
    mantissa holds 53 bits. *)
Definition whole (n : Z) : spec_float :=
  match n with
  | Zpos p =>
      S754_finite false (Z.to_pos (Zpos p * 2 ^ (53 - Zdigits2 (Zpos p))))
        (Zdigits2 (Zpos p) - 53)
  | _ => S754_zero false
  end.

(** The whole number a component without fraction writes; zero when the
    component is missing. *)
Definition unit_value (n : option string) : Z :=
  match n with
  | Some ds => PyFloat.digits_value 0 ds
  | None => 0
  end.

(** A seconds component without fraction. *)
Definition whole_seconds (n : option string) : option (string * option string) :=
  option_map (fun ds => (ds, None)) n.

(** [HH:MM:SS:000] for whole hours, minutes and seconds. *)
Definition clock_text (H M S : Z) : string :=
  format_int_zero 2 H ++ ":" ++ format_int_zero 2 M ++ ":" ++ format_int_zero 2 S
  ++ ":" ++ "000".

(** [HH:MM:SS:000] for a whole number of seconds. *)
Definition clock_of_seconds (n : Z) : string :=
  clock_text (n / 3600) (n mod 3600 / 60) (n mod 60).

(** ** Numbers on a binary grid

    The binary64 representation of [n * 2^e], for [0 <= n < 2^53] and
    [-1074 <= e <= 0]: every float from zero to below 2^53 is of this form. *)
Definition dyadic (n e : Z) : spec_float :=
  match n with
  | Zpos p =>
      let t := Z.max (Zdigits2 (Zpos p) + e - 53) (-1074) in
      S754_finite false (Z.to_pos (Zpos p * 2 ^ (e - t))) t
  | _ => S754_zero false
  end.

(** * Proofs *)

Set Warnings "-inexact-float".

(** ** Generic facts *)

Lemma obind_some {A B : Type} (x : option A) (f : A -> option B) (b : B) :
  obind x f = Some b -> exists a, x = Some a /\ f a = Some b.
Proof. destruct x as [a|]; simpl; [eauto | discriminate]. Qed.

(** Two floats whose representations differ are different. *)
Ltac float_discriminate H :=
  apply (f_equal Prim2SF) in H; vm_compute in H; discriminate H.

(** ** [format_time_full] *)

(** C1. On the seconds value 867.799 of its own docstring, [format_time_full]
    returns 00:14:27:798, not 00:14:27:799: the binary64 value nearest to
    867.799 lies below it, the fraction times 1000 is 798.99999999997817, and
    [int] truncates. *)
Theorem format_time_full_docstring_example :
  PyFloat.of_string "867.799" = Some 867.799%float
  /\ format_time_full 867.799 = Some "00:14:27:798"
  /\ format_time_full 867.799 <> Some "00:14:27:799".
Proof.
  split; [vm_compute; reflexivity|].
  assert (E : format_time_full 867.799 = Some "00:14:27:798")
    by (vm_compute; reflexivity).
  split; [exact E|]. rewrite E. discriminate.
Qed.

(** ** [time_str_to_seconds] *)

(** C9, as stated, fails: the fourth field of 1:2:3:x is not numeric, yet
    the three leading fields are used and the result is 3723.0. *)
Lemma not_a_time_nonzero :
  ~ (forall s, not_a_time s -> time_str_to_seconds s = 0%float).
Proof.
  intros H. specialize (H "1:2:3:x").
  assert (N : not_a_time "1:2:3:x").
  { right. exists "x". split; [simpl; tauto | vm_compute; reflexivity]. }
  apply H in N. float_discriminate N.
Qed.

Lemma time_str_to_seconds_try_none (s : string) :
  unusable_time s -> time_str_to_seconds_try s = None.
Proof.
  intros (i & Hi & H). unfold time_str_to_seconds_try.
  remember (split ":" s) as parts eqn:P. clear P.
  destruct (nth_error parts 0) as [p0|] eqn:E0; [|reflexivity].
  cbn [obind]. destruct (PyFloat.of_string p0) as [h|] eqn:F0; [|reflexivity].
  cbn [obind]. destruct (nth_error parts 1) as [p1|] eqn:E1; [|reflexivity].
  cbn [obind]. destruct (PyFloat.of_string p1) as [m|] eqn:F1; [|reflexivity].
  cbn [obind]. destruct (nth_error parts 2) as [p2|] eqn:E2; [|reflexivity].
  cbn [obind]. destruct (PyFloat.of_string p2) as [x|] eqn:F2; [|reflexivity].
  exfalso.
  destruct i as [|[|[|i]]]; [| | |lia].
  - rewrite E0 in H. congruence.
  - rewrite E1 in H. congruence.
  - rewrite E2 in H. congruence.
Qed.

(** C9, amended. When one of the three leading colon-separated fields is
    missing or is not accepted by [float], the exception raised in the body
    is caught and [time_str_to_seconds] returns 0.0. *)
Theorem time_str_to_seconds_unusable (s : string) :
  unusable_time s ->
  time_str_to_seconds_try s = None /\ time_str_to_seconds s = 0%float.
Proof.
  intros H. apply time_str_to_seconds_try_none in H.
  unfold time_str_to_seconds. rewrite H. split; reflexivity.
Qed.

Lemma time_str_to_seconds_unusable_witness :
  unusable_time "12:xx:07" /\
  time_str_to_seconds_try "12:xx:07" = None /\ time_str_to_seconds "12:xx:07" = 0%float.
Proof.
  assert (U : unusable_time "12:xx:07").
  { exists 1%nat. split; [lia | vm_compute; reflexivity]. }
  split; [exact U | exact (time_str_to_seconds_unusable "12:xx:07" U)].
Defined.

(** ** [find_ffmpeg] *)

(** C5. When [FFMPEG_PATH] is set and names an existing file, directly or as
    the folder that holds the executable, [find_ffmpeg] returns that file,
    whatever the bundled folder and the search path hold. *)
Theorem find_ffmpeg_prefers_environment (sys : system) (env_path : string) :
  getenv sys "FFMPEG_PATH" = Some env_path ->
  env_path <> "" ->
  let named :=
    if isdir sys env_path then path_join sys env_path (exe sys "ffmpeg") else env_path in
  isfile sys named = true ->
  find_ffmpeg sys = Some named.
Proof.
  intros Henv Hne named Hfile. unfold find_ffmpeg. rewrite Henv.
  assert (N : nonempty env_path = true).
  { unfold nonempty. destruct (String.eqb_spec env_path ""); [contradiction|reflexivity]. }
  rewrite N. fold named. rewrite Hfile. reflexivity.
Qed.

Lemma find_ffmpeg_prefers_environment_witness :
  isfile (sample_system sample_stream) "/app/bin/ffmpeg" = true
  /\ which (sample_system sample_stream) "ffmpeg" = Some "/usr/bin/ffmpeg"
  /\ find_ffmpeg (sample_system sample_stream) = Some "/opt/ff/ffmpeg".
Proof.
  split; [reflexivity|]. split; [reflexivity|].
  apply (find_ffmpeg_prefers_environment (sample_system sample_stream) "/opt/ff").
  - reflexivity.
  - discriminate.
  - reflexivity.
Defined.

(** ** [detect_black_frames]: the interrupt *)

Lemma detect_loop_lines (total : float) (pre : list string) :
  forall (st : detector) (rest : list event),
  detect_loop total st (map Line pre ++ rest)%list =
  match process_lines total st pre with
  | Some st' => detect_loop total st' rest
  | None => Raised
  end.
Proof.
  induction pre as [|l pre IH]; intros st rest; simpl.
  - reflexivity.
  - destruct (process_line total st l) as [st'|]; simpl; [apply IH | reflexivity].
Qed.

Lemma detect_loop_interrupted (total : float) (pre : list string) (rest : list event)
    (st : detector) :
  detect_loop total st (map Line pre ++ Interrupt :: rest)%list
  = match process_lines total st pre with
    | Some _ => Exited interrupted_message true
    | None => Raised
    end.
Proof.
  rewrite detect_loop_lines. destruct (process_lines total st pre); reflexivity.
Qed.

(** C6. When the interrupt arrives after the lines [pre] of the stream, the
    detector returns no interval list: if no line of [pre] raised it
    terminates the child and exits with its message, and the run of [main]
    never completes with a report. *)
Theorem interrupt_returns_no_intervals
    (sys : system) (video : string) (d t : float) (pre : list string) (rest : list event) :
  (forall ffmpeg,
     ffmpeg_stderr sys ffmpeg video d t = (map Line pre ++ Interrupt :: rest)%list) ->
  forall (ffmpeg : string) (total : float),
    (forall frames, detect_black_frames sys video ffmpeg total d t <> Returned frames)
    /\ (process_lines total fresh pre <> None ->
        detect_black_frames sys video ffmpeg total d t = Exited interrupted_message true)
    /\ snd (main sys video d t) <> Completed.
Proof.
  intros Hs ffmpeg total.
  assert (D : forall f tot, detect_black_frames sys video f tot d t
              = match process_lines tot fresh pre with
                | Some _ => Exited interrupted_message true
                | None => Raised
                end).
  { intros f tot. unfold detect_black_frames. rewrite Hs. apply detect_loop_interrupted. }
  split; [|split].
  - intros frames. rewrite D. destruct (process_lines total fresh pre); discriminate.
  - intros H. rewrite D. destruct (process_lines total fresh pre); [reflexivity|contradiction].
  - unfold main.
    destruct (found (find_ffmpeg sys)) as [fm|]; [|discriminate].
    destruct (found (find_ffprobe sys)) as [fp|]; [|discriminate].
    match goal with |- context [match ?b with Some _ => _ | None => _ end] =>
      destruct b as [line1|] end; [|discriminate].
    destruct (get_video_duration sys video fp) as [tot|]; [|discriminate].
    destruct (format_time_full tot) as [tt|]; [|discriminate].
    rewrite D. destruct (process_lines tot fresh pre); discriminate.
Qed.

Lemma interrupt_returns_no_intervals_witness :
  let stream := [Line "black_start:5.0 black_end:7.5 black_duration:2.5"; Interrupt;
                 Line "black_start:9.0 black_end:9.5 black_duration:0.5"] in
  let sys := sample_system stream in
  detect_black_frames sys "film.ts" "/opt/ff/ffmpeg" 10 0.5 0.98
    = Exited interrupted_message true
  /\ snd (main sys "film.ts" 0.5 0.98) = Fatal interrupted_message.
Proof.
  intros stream sys.
  destruct (interrupt_returns_no_intervals sys "film.ts" 0.5 0.98
              ["black_start:5.0 black_end:7.5 black_duration:2.5"]
              [Line "black_start:9.0 black_end:9.5 black_duration:0.5"]
              (fun _ => eq_refl) "/opt/ff/ffmpeg" 10) as (_ & H & _).
  split.
  - apply H. vm_compute. discriminate.
  - vm_compute. reflexivity.
Defined.

(** ** The report *)





(** ** Strings *)

Lemma length_app (a b : string) :
  String.length (a ++ b) = (String.length a + String.length b)%nat.
Proof. induction a as [|c a IH]; simpl; [reflexivity | now rewrite IH]. Qed.

Lemma app_assoc_string (a b c : string) : (a ++ b) ++ c = a ++ (b ++ c).
Proof. induction a as [|x a IH]; simpl; [reflexivity | now rewrite IH]. Qed.

Lemma app_empty_r (a : string) : a ++ "" = a.
Proof. induction a as [|x a IH]; simpl; [reflexivity | now rewrite IH]. Qed.

Lemma take_app (a b : string) : take (String.length a) (a ++ b) = a.
Proof. induction a as [|c a IH]; simpl; [now destruct b | now rewrite IH]. Qed.

Lemma take_consumed (a b : string) :
  take (String.length (a ++ b) - String.length b) (a ++ b) = a.
Proof.
  rewrite length_app.
  replace (String.length a + String.length b - String.length b)%nat
    with (String.length a) by lia.
  apply take_app.
Qed.

Lemma all_chars_app (p : ascii -> bool) (a b : string) :
  all_chars p (a ++ b) = all_chars p a && all_chars p b.
Proof.
  induction a as [|c a IH]; simpl; [reflexivity|].
  rewrite IH. now rewrite andb_assoc.
Qed.

Lemma all_chars_weaken (p q : ascii -> bool) (s : string) :
  (forall c, p c = true -> q c = true) -> all_chars p s = true -> all_chars q s = true.
Proof.
  intros W. induction s as [|c s IH]; simpl; [reflexivity|].
  intros H. apply andb_true_iff in H as [H1 H2].
  rewrite (W _ H1), (IH H2). reflexivity.
Qed.

Lemma lstrip_by_app (p : ascii -> bool) (a b : string) :
  all_chars p a = true -> lstrip_by p (a ++ b) = lstrip_by p b.
Proof.
  induction a as [|c a IH]; simpl; [reflexivity|].
  intros H. apply andb_true_iff in H as [H1 H2]. rewrite H1. auto.
Qed.

Lemma lstrip_by_stops (p : ascii -> bool) (s : string) :
  stops p s = true -> lstrip_by p s = s.
Proof.
  destruct s as [|c s]; simpl; [reflexivity|].
  intros H. apply negb_true_iff in H. now rewrite H.
Qed.

Lemma lstrip_by_run (p : ascii -> bool) (a b : string) :
  all_chars p a = true -> stops p b = true -> lstrip_by p (a ++ b) = b.
Proof. intros A B. rewrite lstrip_by_app by exact A. now apply lstrip_by_stops. Qed.

Lemma lstrip_by_split (p : ascii -> bool) (s : string) :
  exists a, s = a ++ lstrip_by p s /\ all_chars p a = true /\ stops p (lstrip_by p s) = true.
Proof.
  induction s as [|c s (a & E & A & B)]; simpl.
  - exists "". repeat split.
  - destruct (p c) eqn:P.
    + exists (String c a). simpl. rewrite P, A. repeat split; [now rewrite <- E | exact B].
    + exists "". simpl. rewrite P. repeat split.
Qed.

Lemma lstrip_by_keeps (p : ascii -> bool) (a b : string) :
  negb (stops p b) = false -> b <> "" ->
  lstrip_by p (a ++ b) = lstrip_by p a ++ b.
Proof.
  intros B N. induction a as [|c a IH]; simpl.
  - apply lstrip_by_stops. now apply negb_false_iff in B.
  - destruct (p c); [exact IH | reflexivity].
Qed.

Lemma rstrip_by_app (p : ascii -> bool) (a b : string) :
  rstrip_by p (a ++ b) =
  match rstrip_by p b with
  | EmptyString => rstrip_by p a
  | r => a ++ r
  end.
Proof.
  induction a as [|c a IH]; simpl.
  - destruct (rstrip_by p b); reflexivity.
  - rewrite IH. destruct (rstrip_by p b) as [|x r]; [reflexivity|].
    destruct (a ++ String x r) eqn:E; [|reflexivity].
    destruct a; discriminate.
Qed.

Lemma strips_nothing (p : ascii -> bool) (s : string) :
  all_chars (fun c => negb (p c)) s = true ->
  lstrip_by p s = s /\ rstrip_by p s = s.
Proof.
  induction s as [|c s IH]; simpl; [split; reflexivity|].
  intros H. apply andb_true_iff in H as [H1 H2]. apply negb_true_iff in H1.
  rewrite H1. split; [reflexivity|].
  destruct (IH H2) as [_ R]. rewrite R. destruct s; reflexivity.
Qed.

Lemma startswith_app (w s : string) : startswith w (w ++ s) = true.
Proof.
  induction w as [|c w IH]; simpl; [reflexivity|].
  now rewrite Ascii.eqb_refl.
Qed.

Lemma startswith_split (w s : string) :
  startswith w s = true -> s = w ++ drop (String.length w) s.
Proof.
  revert s. induction w as [|c w IH]; intros s H; simpl in *; [reflexivity|].
  destruct s as [|b s]; [discriminate|].
  apply andb_true_iff in H as [H1 H2]. apply Ascii.eqb_eq in H1. subst b.
  now rewrite <- IH.
Qed.

Lemma split_no_separator (sep : ascii) (s : string) :
  all_chars (fun c => negb (Ascii.eqb c sep)) s = true -> split sep s = [s].
Proof.
  induction s as [|c s IH]; simpl; [reflexivity|].
  intros H. apply andb_true_iff in H as [H1 H2]. apply negb_true_iff in H1.
  rewrite H1, (IH H2). reflexivity.
Qed.

Lemma split_at_separator (sep : ascii) (a b : string) :
  all_chars (fun c => negb (Ascii.eqb c sep)) a = true ->
  split sep (a ++ String sep b) = a :: split sep b.
Proof.
  induction a as [|c a IH]; simpl.
  - now rewrite Ascii.eqb_refl.
  - intros H. apply andb_true_iff in H as [H1 H2]. apply negb_true_iff in H1.
    rewrite H1, (IH H2). reflexivity.
Qed.

(** ** Character classes *)

Lemma digit_facts (c : ascii) :
  is_digit c = true ->
  isspace c = false /\ float_space c = false /\ digit_or_dot c = true
  /\ Ascii.eqb c "_" = false /\ Ascii.eqb c ":" = false /\ Ascii.eqb c "." = false
  /\ Ascii.eqb c "-" = false /\ Ascii.eqb c "+" = false
  /\ Ascii.eqb "h" c = false /\ Ascii.eqb "m" c = false /\ Ascii.eqb "s" c = false
  /\ Ascii.eqb "." c = false /\ 0 <= digit_value c <= 9.
Proof.
  destruct c as [[] [] [] [] [] [] [] []]; vm_compute; intros H;
    try discriminate H; repeat split; discriminate.
Qed.

Lemma dot_facts :
  isspace "." = false /\ float_space "." = false /\ is_digit "." = false
  /\ digit_or_dot "." = true.
Proof. repeat split. Qed.

(** ** The matcher *)

Lemma run_lit {R : Type} (w s : string) (g : Re.groups)
    (k : string -> Re.groups -> option R) :
  Re.run (Re.lit w) s g k
  = if startswith w s then k (drop (String.length w) s) g else None.
Proof.
  revert s. induction w as [|c w IH]; intros s; simpl; [reflexivity|].
  destruct s as [|b s]; [reflexivity|].
  destruct (Ascii.eqb c b); simpl; [apply IH | reflexivity].
Qed.

Lemma star_loop_chr_greedy {R : Type} (p : ascii -> bool)
    (k : string -> Re.groups -> option R) (g : Re.groups) (x : R) :
  forall fuel s, (String.length s <= fuel)%nat ->
  k (lstrip_by p s) g = Some x ->
  Re.star_loop (Re.run (Re.Chr p)) k fuel s g = Some x.
Proof.
  induction fuel as [|fuel IH]; intros s L H.
  - destruct s; [exact H | simpl in L; lia].
  - destruct s as [|c s]; simpl in *; [now rewrite H|].
    destruct (p c) eqn:P; [|now rewrite H].
    replace (String.length s <? S (String.length s))%nat with true
      by (symmetry; apply Nat.ltb_lt; lia).
    rewrite (IH s) by (lia || exact H). reflexivity.
Qed.

Lemma star_loop_chr_blocked {R : Type} (p : ascii -> bool)
    (k : string -> Re.groups -> option R) (g : Re.groups) :
  (forall c s', p c = true -> k (String c s') g = None) ->
  forall fuel s, (String.length s <= fuel)%nat ->
  Re.star_loop (Re.run (Re.Chr p)) k fuel s g = k (lstrip_by p s) g.
Proof.
  intros B. induction fuel as [|fuel IH]; intros s L.
  - destruct s; [reflexivity | simpl in L; lia].
  - destruct s as [|c s]; simpl in *; [now destruct (k "" g)|].
    destruct (p c) eqn:P; [|now destruct (k (String c s) g)].
    replace (String.length s <? S (String.length s))%nat with true
      by (symmetry; apply Nat.ltb_lt; lia).
    rewrite (IH s) by lia.
    destruct (k (lstrip_by p s) g); [reflexivity | now apply B].
Qed.

(** Greedy: when the continuation accepts what follows the longest run, the
    run is taken whole. *)
Lemma run_star_chr_greedy {R : Type} (p : ascii -> bool) (s : string) (g : Re.groups)
    (k : string -> Re.groups -> option R) (x : R) :
  k (lstrip_by p s) g = Some x -> Re.run (Re.Star (Re.Chr p)) s g k = Some x.
Proof. intros H. simpl. now apply star_loop_chr_greedy. Qed.

(** When the continuation refuses every string that begins in the class,
    giving characters back never helps. *)
Lemma run_star_chr_blocked {R : Type} (p : ascii -> bool) (s : string) (g : Re.groups)
    (k : string -> Re.groups -> option R) :
  (forall c s', p c = true -> k (String c s') g = None) ->
  Re.run (Re.Star (Re.Chr p)) s g k = k (lstrip_by p s) g.
Proof. intros H. simpl. now apply star_loop_chr_blocked. Qed.

(** What a matcher finds, some way of matching explains. *)
Lemma run_sound {R : Type} (r : Re.regex) :
  forall (s : string) (g : Re.groups) (k : string -> Re.groups -> option R) (x : R),
  Re.run r s g k = Some x ->
  exists s' g', Re.matches r s g s' g' /\ k s' g' = Some x.
Proof.
  induction r as [|p|r1 IH1 r2 IH2|r IH|r IH|i r IH]; intros s g k x H; simpl in H.
  - exists s, g. split; [constructor | exact H].
  - destruct s as [|c s]; [discriminate|].
    destruct (p c) eqn:P; [|discriminate].
    exists s, g. split; [now constructor | exact H].
  - apply IH1 in H as (s1 & g1 & M1 & H). apply IH2 in H as (s2 & g2 & M2 & H).
    exists s2, g2. split; [econstructor; eassumption | exact H].
  - remember (String.length s) as fuel eqn:F. clear F.
    revert s g H. induction fuel as [|fuel IHf]; intros s g H; simpl in H.
    + exists s, g. split; [apply Re.M_star_stop | exact H].
    + match type of H with match ?t with _ => _ end = _ => destruct t as [y|] eqn:E end.
      * injection H as ->. apply IH in E as (s1 & g1 & M1 & E).
        destruct (String.length s1 <? String.length s)%nat eqn:L; [|discriminate].
        apply Nat.ltb_lt in L. apply IHf in E as (s2 & g2 & M2 & E).
        exists s2, g2. split; [eapply Re.M_star_more; eassumption | exact E].
      * exists s, g. split; [apply Re.M_star_stop | exact H].
  - destruct (Re.run r s g k) as [y|] eqn:E.
    + injection H as ->. apply IH in E as (s1 & g1 & M1 & E).
      exists s1, g1. split; [now apply Re.M_opt_some | exact E].
    + exists s, g. split; [apply Re.M_opt_none | exact H].
  - apply IH in H as (s1 & g1 & M1 & H).
    eexists _, _. split; [apply Re.M_group; exact M1 | exact H].
Qed.

Lemma match_sound (r : Re.regex) (s : string) (g : Re.groups) :
  Re.match_ r s = Some g -> exists s', Re.matches r s [] s' g.
Proof.
  intros H. apply run_sound in H as (s' & g' & M & H).
  injection H as ->. now exists s'.
Qed.

Lemma search_sound (r : Re.regex) (s : string) (g : Re.groups) :
  Re.search r s = Some g ->
  exists n s', Re.matches r (drop n s) [] s' g.
Proof.
  induction s as [|c s IH]; simpl; intros H.
  - destruct (Re.match_ r "") eqn:E; [|discriminate]. injection H as ->.
    apply match_sound in E as (s' & M). now exists 0%nat, s'.
  - destruct (Re.match_ r (String c s)) eqn:E.
    + injection H as ->. apply match_sound in E as (s' & M). now exists 0%nat, s'.
    + apply IH in H as (n & s' & M). now exists (S n), s'.
Qed.

(** A match consumes a prefix. *)
Lemma matches_prefix (r : Re.regex) (s s' : string) (g g' : Re.groups) :
  Re.matches r s g s' g' -> exists pre, s = pre ++ s'.
Proof.
  induction 1 as [s g|p c s g P|r1 r2 s g s1 g1 s2 g2 _ [a A] _ [b B]
                 |r s g s' g' _ IH|r s g|i r s g s' g' _ IH|r s g
                 |r s g s1 g1 s2 g2 _ [a A] _ _ [b B]].
  - now exists "".
  - now exists (String c "").
  - exists (a ++ b). now rewrite app_assoc_string, <- B.
  - exact IH.
  - now exists "".
  - exact IH.
  - now exists "".
  - exists (a ++ b). now rewrite app_assoc_string, <- B.
Qed.

(** A repetition of a character class consumes a run of the class and
    leaves the groups alone. *)
Lemma matches_star_chr (p : ascii -> bool) (s s' : string) (g g' : Re.groups) :
  Re.matches (Re.Star (Re.Chr p)) s g s' g' ->
  exists run, s = run ++ s' /\ all_chars p run = true /\ g' = g.
Proof.
  intros M. remember (Re.Star (Re.Chr p)) as r eqn:E.
  induction M as [| | | | | |r s g|r s g s1 g1 s2 g2 M1 _ L M2 IH]; try discriminate.
  - now exists "".
  - injection E as ->. destruct (IH eq_refl) as (run & -> & A & ->).
    inversion M1 as [|p' c s' g' P| | | | | |]; subst. exists (String c run). simpl.
    repeat split. now rewrite P, A.
Qed.

(** ** [float] of a written number *)

Lemma digits_inv (s : string) :
  digits s = true ->
  exists c r, s = String c r /\ is_digit c = true /\ all_chars is_digit r = true.
Proof.
  unfold digits. destruct s as [|c r]; simpl; [discriminate|].
  intros H. apply andb_true_iff in H as [H1 H2]. now exists c, r.
Qed.

Lemma digits_all (s : string) : digits s = true -> all_chars is_digit s = true.
Proof. unfold digits. intros H. now apply andb_true_iff in H. Qed.

Lemma span_digits_run (a b : string) :
  all_chars is_digit a = true -> stops is_digit b = true ->
  PyFloat.span_digits (a ++ b) = (a, b).
Proof.
  intros A B. induction a as [|c a IH]; simpl in *.
  - destruct b as [|x b]; [reflexivity|]. simpl in *.
    apply negb_true_iff in B. now rewrite B.
  - apply andb_true_iff in A as [A1 A2]. now rewrite A1, (IH A2).
Qed.

Lemma span_digits_all (a : string) :
  all_chars is_digit a = true -> PyFloat.span_digits a = (a, "").
Proof.
  intros A. rewrite <- (app_empty_r a) at 1. now apply span_digits_run.
Qed.

Lemma remove_underscores_none (s : string) :
  all_chars (fun c => negb (Ascii.eqb c "_")) s = true ->
  forall prev, Ascii.eqb prev "_" = false ->
  PyFloat.remove_underscores prev s = Some s.
Proof.
  induction s as [|c s IH]; simpl; intros H prev P.
  - now rewrite P.
  - apply andb_true_iff in H as [H1 H2]. apply negb_true_iff in H1.
    rewrite H1, P. simpl. now rewrite (IH H2 c H1).
Qed.

Lemma parse_sign_unsigned (c : ascii) (s : string) :
  Ascii.eqb c "-" = false -> Ascii.eqb c "+" = false ->
  PyFloat.parse_sign (String c s) = (false, String c s).
Proof.
  destruct c as [[] [] [] [] [] [] [] []]; simpl; intros; try discriminate; reflexivity.
Qed.

Lemma written_chars (ip : string) (fp : option string) :
  all_chars is_digit ip = true -> all_chars is_digit (fraction fp) = true ->
  all_chars digit_or_dot (written ip fp) = true.
Proof.
  intros A B.
  assert (W : forall s, all_chars is_digit s = true -> all_chars digit_or_dot s = true).
  { intros s. apply all_chars_weaken. intros c H. now apply digit_facts in H. }
  destruct fp as [f|]; simpl in *; [|now apply W].
  rewrite all_chars_app. simpl. now rewrite (W _ A), (W _ B).
Qed.

Lemma digit_or_dot_facts (c : ascii) :
  digit_or_dot c = true ->
  isspace c = false /\ float_space c = false /\ Ascii.eqb c "_" = false
  /\ Ascii.eqb c "-" = false /\ Ascii.eqb c "+" = false.
Proof.
  destruct c as [[] [] [] [] [] [] [] []]; vm_compute; intros H;
    try discriminate H; repeat split; discriminate.
Qed.

(** [float] reads a number written with digits, a point and digits as the
    correctly rounded value of its decimal expansion. *)
Lemma of_string_written (ip : string) (fp : option string) :
  digits ip = true -> all_chars is_digit (fraction fp) = true ->
  PyFloat.of_string (written ip fp) = Some (read_number ip fp).
Proof.
  intros D F. assert (A := digits_all _ D).
  assert (C := written_chars ip fp A F).
  unfold PyFloat.of_string, read_number.
  destruct (strips_nothing float_space (written ip fp)) as [L R].
  { revert C. apply all_chars_weaken. intros c H.
    apply digit_or_dot_facts in H as (_ & H & _). now rewrite H. }
  rewrite L, R.
  rewrite remove_underscores_none;
    [|revert C; apply all_chars_weaken; intros c H;
      apply digit_or_dot_facts in H as (_ & _ & H & _); now rewrite H
     |reflexivity].
  cbn [obind].
  destruct (digits_inv _ D) as (c & r & -> & Dc & Dr).
  assert (S : PyFloat.parse_sign (written (String c r) fp) = (false, written (String c r) fp)).
  { destruct (digit_facts c Dc) as (_ & _ & _ & _ & _ & _ & M & P & _).
    destruct fp; simpl; now apply parse_sign_unsigned. }
  rewrite S. unfold PyFloat.parse_decimal.
  destruct fp as [f|]; cbn [written fraction] in *.
  - rewrite span_digits_run by (exact A || reflexivity).
    rewrite (span_digits_all f F). simpl String.length. simpl PyFloat.parse_exponent.
    cbv iota beta. cbn [Nat.add]. reflexivity.
  - rewrite (span_digits_all _ A). simpl String.length. simpl PyFloat.parse_exponent.
    cbv iota beta. cbn [Nat.add]. rewrite app_empty_r. reflexivity.
Qed.

(** ** Running a pattern piece by piece *)

Section Pieces.
Context {R : Type}.
Variables (g : Re.groups) (k : string -> Re.groups -> option R).

Lemma run_cat_assoc (a b c : Re.regex) (s : string) :
  Re.run (Re.Cat (Re.Cat a b) c) s g k = Re.run (Re.Cat a (Re.Cat b c)) s g k.
Proof. reflexivity. Qed.

Lemma run_cat_opt (a b : Re.regex) (s : string) :
  Re.run (Re.Cat (Re.Opt a) b) s g k
  = match Re.run (Re.Cat a b) s g k with
    | Some x => Some x
    | None => Re.run b s g k
    end.
Proof. reflexivity. Qed.

Lemma run_opt (a : Re.regex) (s : string) :
  Re.run (Re.Opt a) s g k
  = match Re.run a s g k with
    | Some x => Some x
    | None => k s g
    end.
Proof. reflexivity. Qed.

Lemma run_cat_chr (p : ascii -> bool) (r : Re.regex) (c : ascii) (s : string) :
  Re.run (Re.Cat (Re.Chr p) r) (String c s) g k
  = if p c then Re.run r s g k else None.
Proof. reflexivity. Qed.

Lemma run_chr (p : ascii -> bool) (c : ascii) (s : string) :
  Re.run (Re.Chr p) (String c s) g k = if p c then k s g else None.
Proof. reflexivity. Qed.

Lemma run_cat_lit (w : string) (r : Re.regex) (s : string) :
  Re.run (Re.Cat (Re.lit w) r) (w ++ s) g k = Re.run r s g k.
Proof.
  change (Re.run (Re.lit w) (w ++ s) g (fun s' g' => Re.run r s' g' k) = Re.run r s g k).
  rewrite run_lit, startswith_app.
  replace (drop (String.length w) (w ++ s)) with s; [reflexivity|].
  induction w as [|c w IH]; simpl; [reflexivity | exact IH].
Qed.

Lemma run_cat_lit_fail (w : string) (r : Re.regex) (s : string) :
  startswith w s = false -> Re.run (Re.Cat (Re.lit w) r) s g k = None.
Proof.
  intros H.
  change (Re.run (Re.lit w) s g (fun s' g' => Re.run r s' g' k) = None).
  now rewrite run_lit, H.
Qed.

Lemma run_cat_plus_fail (p : ascii -> bool) (r : Re.regex) (s : string) :
  stops p s = true -> Re.run (Re.Cat (Re.plus (Re.Chr p)) r) s g k = None.
Proof.
  destruct s as [|c s]; simpl; [reflexivity|].
  intros H. apply negb_true_iff in H. now rewrite H.
Qed.

Lemma run_cat_group_fail (i : nat) (p : ascii -> bool) (r : Re.regex) (s : string) :
  stops p s = true ->
  Re.run (Re.Cat (Re.Group i (Re.plus (Re.Chr p))) r) s g k = None.
Proof.
  destruct s as [|c s]; simpl; [reflexivity|].
  intros H. apply negb_true_iff in H. now rewrite H.
Qed.

(** A run of the class, followed by something the rest of the pattern
    refuses to start inside the class: the whole run is consumed. *)
Lemma run_cat_plus (p : ascii -> bool) (r : Re.regex) (a b : string) :
  a <> "" -> all_chars p a = true -> stops p b = true ->
  (forall c s', p c = true -> Re.run r (String c s') g k = None) ->
  Re.run (Re.Cat (Re.plus (Re.Chr p)) r) (a ++ b) g k = Re.run r b g k.
Proof.
  intros N A B Hk. destruct a as [|c a]; [contradiction|].
  simpl in A. apply andb_true_iff in A as [A1 A2].
  change (Re.run (Re.Cat (Re.plus (Re.Chr p)) r) (String c a ++ b) g k)
    with (if p c
          then Re.run (Re.Star (Re.Chr p)) (a ++ b) g (fun s' g' => Re.run r s' g' k)
          else None).
  rewrite A1, run_star_chr_blocked by auto.
  now rewrite lstrip_by_run.
Qed.
End Pieces.

Lemma run_cat_group {R : Type} (i : nat) (p : ascii -> bool) (r : Re.regex)
    (a b : string) (g : Re.groups) (k : string -> Re.groups -> option R) :
  a <> "" -> all_chars p a = true -> stops p b = true ->
  (forall c s' g', p c = true -> Re.run r (String c s') g' k = None) ->
  Re.run (Re.Cat (Re.Group i (Re.plus (Re.Chr p))) r) (a ++ b) g k
  = Re.run r b ((i, a) :: g) k.
Proof.
  intros N A B Hk. destruct a as [|c a]; [contradiction|].
  pose proof (take_consumed (String c a) b) as T.
  simpl in A. apply andb_true_iff in A as [A1 A2].
  change (Re.run (Re.Cat (Re.Group i (Re.plus (Re.Chr p))) r) (String c a ++ b) g k)
    with (if p c
          then Re.run (Re.Star (Re.Chr p)) (a ++ b) g
                 (fun s' g' =>
                    Re.run r s'
                      ((i, take (String.length (String c a ++ b) - String.length s')
                             (String c a ++ b)) :: g') k)
          else None).
  rewrite A1, run_star_chr_blocked by auto.
  rewrite lstrip_by_run by assumption. now rewrite T.
Qed.

Lemma run_group_last (i : nat) (p : ascii -> bool) (a b : string) (g : Re.groups) :
  a <> "" -> all_chars p a = true -> stops p b = true ->
  Re.run (Re.Group i (Re.plus (Re.Chr p))) (a ++ b) g (fun _ g' => Some g')
  = Some ((i, a) :: g).
Proof.
  intros N A B. destruct a as [|c a]; [contradiction|].
  pose proof (take_consumed (String c a) b) as T.
  simpl in A. apply andb_true_iff in A as [A1 A2].
  change (Re.run (Re.Group i (Re.plus (Re.Chr p))) (String c a ++ b) g
            (fun _ g' => Some g'))
    with (if p c
          then Re.run (Re.Star (Re.Chr p)) (a ++ b) g
                 (fun s' g' =>
                    Some ((i, take (String.length (String c a ++ b) - String.length s')
                                 (String c a ++ b)) :: g'))
          else None).
  rewrite A1. apply run_star_chr_greedy.
  rewrite lstrip_by_run by assumption. now rewrite T.
Qed.

(** ** Searching *)

Lemma startswith_app_long (w a b : string) :
  (String.length w <= String.length a)%nat -> startswith w (a ++ b) = startswith w a.
Proof.
  revert a. induction w as [|c w IH]; intros a L; simpl; [reflexivity|].
  destruct a as [|x a]; simpl in *; [lia|].
  rewrite IH by lia. reflexivity.
Qed.

Lemma startswith_app_short (w a b : string) :
  (String.length a <= String.length w)%nat ->
  startswith w (a ++ b) = startswith a w && startswith (drop (String.length a) w) b.
Proof.
  revert a. induction w as [|c w IH]; intros a L; simpl.
  - destruct a; simpl in *; [reflexivity | lia].
  - destruct a as [|x a]; simpl in *; [reflexivity|].
    rewrite IH by lia. rewrite (Ascii.eqb_sym c x). now rewrite andb_assoc.
Qed.

Lemma contains_cons (w : string) (c : ascii) (s : string) :
  contains w (String c s) = false ->
  startswith w (String c s) = false /\ contains w s = false.
Proof. simpl. intros H. now apply orb_false_iff in H. Qed.

Lemma contains_startswith (w s : string) :
  contains w s = false -> startswith w s = false.
Proof. destruct s; simpl; intros H; now apply orb_false_iff in H. Qed.

Lemma search_without (w : string) (r : Re.regex) (s : string) :
  contains w s = false -> Re.search (Re.Cat (Re.lit w) r) s = None.
Proof.
  induction s as [|c s IH]; intros H.
  - apply contains_startswith in H. simpl. unfold Re.match_.
    now rewrite run_cat_lit_fail.
  - apply contains_cons in H as [H1 H2]. simpl. unfold Re.match_.
    rewrite run_cat_lit_fail by exact H1. auto.
Qed.

Lemma length_drop (n : nat) (s : string) :
  (String.length (drop n s) <= String.length s)%nat.
Proof.
  revert s. induction n as [|n IH]; intros s; simpl; [lia|].
  destruct s as [|c s]; simpl; [lia|]. specialize (IH s). lia.
Qed.

(** Before an occurrence of an unbordered word, and in a text that does not
    hold it, no other occurrence starts. *)
Lemma no_straddle (w pre rest : string) :
  unbordered w = true -> pre <> "" -> contains w pre = false ->
  startswith w (pre ++ w ++ rest) = false.
Proof.
  intros U N C.
  destruct (le_lt_dec (String.length w) (String.length pre)) as [L|L].
  - rewrite startswith_app_long by exact L. now apply contains_startswith.
  - rewrite startswith_app_short by lia.
    rewrite startswith_app_long by apply length_drop.
    unfold unbordered in U. rewrite forallb_forall in U.
    assert (I : In (String.length pre) (seq 1 (String.length w - 1))).
    { apply in_seq. destruct pre; [contradiction | simpl in *; lia]. }
    apply U, negb_true_iff in I. rewrite I. apply andb_false_r.
Qed.

Lemma search_skip (w : string) (r : Re.regex) (pre rest : string) :
  unbordered w = true -> contains w pre = false ->
  Re.search (Re.Cat (Re.lit w) r) (pre ++ w ++ rest)
  = Re.search (Re.Cat (Re.lit w) r) (w ++ rest).
Proof.
  intros U. induction pre as [|c pre IH]; intros C; [reflexivity|].
  pose proof (no_straddle w (String c pre) rest U ltac:(discriminate) C) as S.
  apply contains_cons in C as [_ C].
  cbn [append Re.search]. unfold Re.match_ at 1.
  change (String c (pre ++ w ++ rest)) with (String c pre ++ w ++ rest).
  rewrite run_cat_lit_fail by exact S. auto.
Qed.

Lemma contains_lstrip (w : string) (p : ascii -> bool) (s : string) :
  contains w s = false -> contains w (lstrip_by p s) = false.
Proof.
  induction s as [|c s IH]; intros H; [exact H|].
  simpl lstrip_by. destruct (p c); [|exact H].
  apply contains_cons in H as [_ H]. auto.
Qed.

Lemma stops_rstrip (q p : ascii -> bool) (s : string) :
  stops q s = true -> stops q (rstrip_by p s) = true.
Proof.
  destruct s as [|c s]; simpl; [reflexivity|].
  intros H. destruct (rstrip_by p s); [destruct (p c)|]; simpl; auto.
Qed.

Lemma strip_around (pre w post : string) :
  stops isspace w = true -> w <> "" -> rstrip_by isspace w = w ->
  strip (pre ++ w ++ post)
  = lstrip_by isspace pre ++ w ++ rstrip_by isspace post.
Proof.
  intros S N E. unfold strip.
  assert (L : lstrip_by isspace (pre ++ w ++ post)
              = lstrip_by isspace pre ++ w ++ post).
  { induction pre as [|c pre IH]; simpl.
    - apply lstrip_by_stops. destruct w; [contradiction | exact S].
    - destruct (isspace c); [exact IH | reflexivity]. }
  rewrite L.
  assert (T : rstrip_by isspace (w ++ post) = w ++ rstrip_by isspace post).
  { rewrite rstrip_by_app. destruct (rstrip_by isspace post);
      [now rewrite E, app_empty_r | reflexivity]. }
  rewrite rstrip_by_app, T.
  destruct (w ++ rstrip_by isspace post) eqn:X; [|reflexivity].
  destruct w; [contradiction | discriminate].
Qed.

(** ** The patterns of the detector *)

Ltac invert_matches :=
  repeat match goal with
    | H : Re.matches (Re.Cat _ _) _ _ _ _ |- _ => inversion H; clear H; subst
    | H : Re.matches (Re.Chr _) _ _ _ _ |- _ => inversion H; clear H; subst
    | H : Re.matches Re.Eps _ _ _ _ |- _ => inversion H; clear H; subst
    | H : Re.matches (Re.Group _ _) _ _ _ _ |- _ => inversion H; clear H; subst
    | H : Re.matches (Re.Star (Re.Chr _)) _ _ _ _ |- _ =>
        apply matches_star_chr in H; destruct H as (? & ? & ? & ?); subst
    | H : Ascii.eqb _ _ = true |- _ => apply Ascii.eqb_eq in H; subst
    end.

(** What [time_pattern] captures: two digits, colon, two digits, colon, two
    digits, point, digits. *)
Lemma time_pattern_captures (line : string) (g : Re.groups) :
  Re.search time_pattern line = Some g ->
  exists h1 h2 m1 m2 s1 s2 f,
    Re.group g 1
    = Some (String h1 (String h2 (String ":" (String m1 (String m2 (String ":"
              (String s1 (String s2 (String "." f)))))))))
    /\ is_digit h1 = true /\ is_digit h2 = true
    /\ is_digit m1 = true /\ is_digit m2 = true
    /\ is_digit s1 = true /\ is_digit s2 = true /\ digits f = true.
Proof.
  intros H. apply search_sound in H as (n & s' & M).
  unfold time_pattern, Re.plus, Re.digit in M. cbn [Re.lit] in M.
  invert_matches.
  match goal with |- context [take ?n ?s] => 
    match s with
    | String ?h1 (String ?h2 (String _ (String ?m1 (String ?m2 (String _
         (String ?s1 (String ?s2 (String _ (String ?c (append ?x ?tl)))))))))) =>
        exists h1, h2, m1, m2, s1, s2, (String c x);
        pose proof (take_consumed
          (String h1 (String h2 (String ":" (String m1 (String m2 (String ":"
             (String s1 (String s2 (String "." (String c x)))))))))) tl) as T
    end
  end.
  cbn [append] in T. cbn [Re.group Nat.eqb]. rewrite T.
  unfold digits. simpl. repeat split; try assumption.
  match goal with H : is_digit ?c = true, A : all_chars is_digit ?x = true
    |- is_digit ?c && all_chars is_digit ?x = true => now rewrite H, A end.
Qed.

Lemma written_no_colon (ip : string) (fp : option string) :
  all_chars is_digit ip = true -> all_chars is_digit (fraction fp) = true ->
  all_chars (fun c => negb (Ascii.eqb c ":")) (written ip fp) = true.
Proof.
  intros A F. generalize (written_chars ip fp A F). apply all_chars_weaken.
  intros c H. unfold digit_or_dot in H. apply orb_true_iff in H as [H|H].
  - apply digit_facts in H as (_ & _ & _ & _ & H & _). now rewrite H.
  - apply Ascii.eqb_eq in H. now subst c.
Qed.

(** On a time written [h:m:s] or [h:m:s.f], the body of
    [time_str_to_seconds] raises nothing and computes, in binary64,
    [h * 3600 + m * 60 + s] from the three numbers read. *)
Lemma time_str_to_seconds_try_written (h m s : string) (f : option string) :
  digits h = true -> digits m = true -> digits s = true ->
  all_chars is_digit (fraction f) = true ->
  time_str_to_seconds_try (h ++ String ":" (m ++ String ":" (written s f)))
  = Some (read_number h None * 3600 + read_number m None * 60 + read_number s f)%float.
Proof.
  intros H M S F. unfold time_str_to_seconds_try.
  rewrite split_at_separator
    by (apply (written_no_colon h None); [now apply digits_all | reflexivity]).
  rewrite split_at_separator
    by (apply (written_no_colon m None); [now apply digits_all | reflexivity]).
  rewrite split_no_separator by (apply written_no_colon; [now apply digits_all | exact F]).
  cbn [nth_error obind].
  pose proof (of_string_written h None H eq_refl) as Eh.
  pose proof (of_string_written m None M eq_refl) as Em.
  cbn [written] in Eh, Em.
  rewrite Eh. cbn [obind]. rewrite Em. cbn [obind].
  rewrite (of_string_written s f S F). reflexivity.
Qed.

(** The time strings the detector extracts always convert: the handler of
    [time_str_to_seconds] is never entered from the reading loop. *)
Lemma detector_time_converts (line : string) (g : Re.groups) :
  Re.search time_pattern line = Some g ->
  exists t v, Re.group g 1 = Some t /\ time_str_to_seconds_try t = Some v.
Proof.
  intros H. apply time_pattern_captures in H
    as (h1 & h2 & m1 & m2 & s1 & s2 & f & E & H1 & H2 & M1 & M2 & S1 & S2 & F).
  eexists _, _. split; [exact E|].
  apply (time_str_to_seconds_try_written
           (String h1 (String h2 "")) (String m1 (String m2 "")) (String s1 (String s2 ""))
           (Some f)).
  - unfold digits. simpl. now rewrite H1, H2.
  - unfold digits. simpl. now rewrite M1, M2.
  - unfold digits. simpl. now rewrite S1, S2.
  - now apply digits_all.
Qed.

(** ** [detect_black_frames]: the intervals *)

Lemma startswith_prefix (w a t : string) :
  startswith w a = true -> startswith w (a ++ t) = true.
Proof.
  revert a. induction w as [|c w IH]; intros a H; simpl in *; [reflexivity|].
  destruct a as [|x a]; [discriminate|]. simpl.
  apply andb_true_iff in H as [H1 H2]. now rewrite H1, IH.
Qed.

Lemma contains_prefix (w a t : string) :
  contains w (a ++ t) = false -> contains w a = false.
Proof.
  induction a as [|c a IH]; intros H.
  - destruct (contains w "") eqn:E; [|reflexivity].
    simpl in E. rewrite orb_false_r in E.
    apply contains_startswith in H.
    pose proof (startswith_prefix w "" t E) as Q. congruence.
  - change (String c a ++ t) with (String c (a ++ t)) in H.
    apply contains_cons in H as [H1 H2]. simpl.
    rewrite (IH H2), orb_false_r.
    destruct (startswith w (String c a)) eqn:E; [|reflexivity].
    pose proof (startswith_prefix w (String c a) t E) as Q.
    change (String c a ++ t) with (String c (a ++ t)) in Q. congruence.
Qed.

Lemma rstrip_by_prefix (p : ascii -> bool) (s : string) :
  exists t, s = rstrip_by p s ++ t.
Proof.
  induction s as [|c s [t E]]; simpl; [now exists ""|].
  destruct (rstrip_by p s) as [|x r] eqn:X.
  - destruct (p c); [now exists (String c s)|]. exists s. reflexivity.
  - exists t. simpl. f_equal. exact E.
Qed.

Lemma contains_strip (w s : string) :
  contains w s = false -> contains w (strip s) = false.
Proof.
  intros H. unfold strip.
  destruct (rstrip_by_prefix isspace (lstrip_by isspace s)) as [t E].
  apply (contains_prefix w _ t). rewrite <- E. now apply contains_lstrip.
Qed.

(** The progress part of the loop body raises nothing when the total
    duration is not zero. *)
Lemma progress_written (total : float) (shown : list float) (line : string) :
  (total =? 0)%float = false ->
  exists shown',
    match Re.search time_pattern line with
    | Some g =>
        current_time_str <- Re.group g 1 ;;
        (if (total =? 0)%float then None
         else Some (shown ++ [(time_str_to_seconds current_time_str / total * 100)%float])%list)
    | None => Some shown
    end = Some shown'.
Proof.
  intros T. destruct (Re.search time_pattern line) as [g|] eqn:E; [|now exists shown].
  apply detector_time_converts in E as (t & v & G & _).
  rewrite G, T. cbn [obind]. eauto.
Qed.

Lemma process_line_without_token (total : float) (st : detector) (line : string) :
  (total =? 0)%float = false -> contains "black_start:" line = false ->
  exists st', process_line total st line = Some st'
              /\ black_frames st' = black_frames st.
Proof.
  intros T C. unfold process_line.
  destruct (progress_written total (progress_shown st) (strip line) T) as [shown' E].
  rewrite E. cbn [obind].
  unfold black_pattern. rewrite search_without by now apply contains_strip.
  eexists. split; reflexivity.
Qed.

Lemma black_pattern_on_token (post : string) :
  stops digit_or_dot post = true ->
  Re.match_ black_pattern (token ++ post)
  = Some [(3%nat, "2.5"); (2%nat, "7.5"); (1%nat, "5.0")].
Proof.
  intros P.
  assert (D : forall (r : Re.regex) c s' g' (k : string -> Re.groups -> option Re.groups),
             digit_or_dot c = true ->
             Re.run (Re.Cat (Re.plus Re.space) r) (String c s') g' k = None).
  { intros r c s' g' k H. apply run_cat_plus_fail. simpl.
    apply digit_or_dot_facts in H as (H & _). now rewrite H. }
  assert (S : forall w (r : Re.regex) c s' (g' : Re.groups)
                     (k : string -> Re.groups -> option Re.groups),
             startswith "b" w = true -> w <> "" -> isspace c = true ->
             Re.run (Re.Cat (Re.lit w) r) (String c s') g' k = None).
  { intros w r c s' g' k W N H. apply run_cat_lit_fail.
    destruct w as [|x w]; [contradiction|]. cbn [startswith] in W.
    apply andb_true_iff in W as [W _]. apply Ascii.eqb_eq in W. subst x.
    cbn [startswith].
    destruct c as [[] [] [] [] [] [] [] []]; try discriminate H; reflexivity. }
  unfold Re.match_, black_pattern, Re.space in *.
  change (token ++ post)
    with ("black_start:" ++ "5.0" ++ " " ++ "black_end:" ++ "7.5" ++ " "
          ++ "black_duration:" ++ "2.5" ++ post).
  rewrite run_cat_lit.
  rewrite run_cat_group; [|discriminate|reflexivity|reflexivity|intros; now apply D].
  rewrite run_cat_plus;
    [|discriminate|reflexivity|reflexivity
     |intros; apply S; [reflexivity|discriminate|assumption]].
  rewrite run_cat_lit.
  rewrite run_cat_group; [|discriminate|reflexivity|reflexivity|intros; now apply D].
  rewrite run_cat_plus;
    [|discriminate|reflexivity|reflexivity
     |intros; apply S; [reflexivity|discriminate|assumption]].
  rewrite run_cat_lit.
  now rewrite run_group_last.
Qed.

Lemma process_line_with_token (total : float) (st : detector) (pre post : string) :
  (total =? 0)%float = false -> contains "black_start:" pre = false ->
  stops digit_or_dot post = true ->
  exists st', process_line total st (pre ++ token ++ post) = Some st'
              /\ black_frames st' = (black_frames st ++ [token_interval])%list.
Proof.
  intros T C P. unfold process_line.
  rewrite (strip_around pre token post) by (reflexivity || discriminate).
  set (line := lstrip_by isspace pre ++ token ++ rstrip_by isspace post).
  destruct (progress_written total (progress_shown st) line T) as [shown' E].
  rewrite E. cbn [obind]. subst line.
  assert (M : Re.search black_pattern
                (lstrip_by isspace pre ++ token ++ rstrip_by isspace post)
              = Some [(3%nat, "2.5"); (2%nat, "7.5"); (1%nat, "5.0")]).
  { change token with ("black_start:" ++ "5.0 black_end:7.5 black_duration:2.5").
    unfold black_pattern. rewrite app_assoc_string.
    rewrite search_skip by (reflexivity || now apply contains_lstrip).
    fold black_pattern.
    pose proof (black_pattern_on_token (rstrip_by isspace post)
                  (stops_rstrip _ _ _ P)) as B.
    change token with ("black_start:" ++ "5.0 black_end:7.5 black_duration:2.5") in B.
    rewrite app_assoc_string in B.
    destruct ("5.0 black_end:7.5 black_duration:2.5" ++ rstrip_by isspace post) eqn:X;
      cbn [append Re.search]; cbn [append] in B; now rewrite B. }
  rewrite M. cbn [Re.group Nat.eqb obind].
  replace (PyFloat.of_string "5.0") with (Some 5%float) by (vm_compute; reflexivity).
  replace (PyFloat.of_string "7.5") with (Some 7.5%float) by (vm_compute; reflexivity).
  replace (PyFloat.of_string "2.5") with (Some 2.5%float) by (vm_compute; reflexivity).
  cbn [obind]. eexists. split; reflexivity.
Qed.

Lemma process_lines_without_token (total : float) (lines : list string) :
  (total =? 0)%float = false ->
  Forall (fun l => contains "black_start:" l = false) lines ->
  forall st, exists st', process_lines total st lines = Some st'
                         /\ black_frames st' = black_frames st.
Proof.
  intros T F. induction F as [|l lines C _ IH]; intros st; cbn [process_lines].
  - now exists st.
  - destruct (process_line_without_token total st l T C) as (st1 & E & B).
    rewrite E. cbn [obind]. destruct (IH st1) as (st2 & E2 & B2).
    exists st2. split; [exact E2 | congruence].
Qed.

(** ** The patterns of the offset parser *)

Lemma run_plus_chr {R : Type} (p : ascii -> bool) (a b : string) (g : Re.groups)
    (k : string -> Re.groups -> option R) :
  a <> "" -> all_chars p a = true -> stops p b = true ->
  (forall c s', p c = true -> k (String c s') g = None) ->
  Re.run (Re.plus (Re.Chr p)) (a ++ b) g k = k b g.
Proof.
  intros N A B Hk. destruct a as [|c a]; [contradiction|].
  simpl in A. apply andb_true_iff in A as [A1 A2].
  change (Re.run (Re.plus (Re.Chr p)) (String c a ++ b) g k)
    with (if p c then Re.run (Re.Star (Re.Chr p)) (a ++ b) g k else None).
  rewrite A1, run_star_chr_blocked by auto.
  now rewrite lstrip_by_run.
Qed.

Lemma run_cat_star {R : Type} (p : ascii -> bool) (r : Re.regex) (a b : string)
    (g : Re.groups) (k : string -> Re.groups -> option R) :
  all_chars p a = true -> stops p b = true ->
  (forall c s', p c = true -> Re.run r (String c s') g k = None) ->
  Re.run (Re.Cat (Re.Star (Re.Chr p)) r) (a ++ b) g k = Re.run r b g k.
Proof.
  intros A B Hk.
  change (Re.run (Re.Cat (Re.Star (Re.Chr p)) r) (a ++ b) g k)
    with (Re.run (Re.Star (Re.Chr p)) (a ++ b) g (fun s' g' => Re.run r s' g' k)).
  rewrite run_star_chr_blocked by auto.
  now rewrite lstrip_by_run.
Qed.

Lemma digits_nonempty (ds : string) : digits ds = true -> ds <> "".
Proof. intros D ->. discriminate D. Qed.

(** An hours or minutes component that is written is taken. *)
Lemma hm_unit_present {R : Type} (i : nat) (u : ascii) (rest : Re.regex)
    (ds tail : string) (g : Re.groups) (k : string -> Re.groups -> option R) (x : R) :
  digits ds = true -> is_digit u = false ->
  Re.run rest tail ((i, ds) :: g) k = Some x ->
  Re.run (Re.Cat (hm_unit i u) rest) (ds ++ String u tail) g k = Some x.
Proof.
  intros D U H. unfold hm_unit, Re.digit.
  rewrite run_cat_opt, run_cat_assoc.
  rewrite run_cat_group.
  - rewrite run_cat_chr, Ascii.eqb_refl, H. reflexivity.
  - now apply digits_nonempty.
  - now apply digits_all.
  - simpl. now rewrite U.
  - intros c s' g' C. rewrite run_cat_chr.
    destruct (Ascii.eqb_spec u c); [congruence | reflexivity].
Qed.

(** It is skipped when the text does not begin with digits followed by its
    letter. *)
Lemma hm_unit_absent {R : Type} (i : nat) (u : ascii) (rest : Re.regex)
    (s : string) (g : Re.groups) (k : string -> Re.groups -> option R) :
  is_digit u = false ->
  startswith (String u "") (lstrip_by is_digit s) = false ->
  Re.run (Re.Cat (hm_unit i u) rest) s g k = Re.run rest s g k.
Proof.
  intros U A. unfold hm_unit, Re.digit.
  rewrite run_cat_opt, run_cat_assoc.
  destruct (lstrip_by_split is_digit s) as (a & E & Da & St).
  destruct a as [|c a].
  - simpl in E. rewrite <- E in St. now rewrite run_cat_group_fail.
  - rewrite E at 1. rewrite run_cat_group; [| discriminate | exact Da | exact St |].
    + destruct (lstrip_by is_digit s) as [|y t]; [reflexivity|].
      rewrite run_cat_chr. cbn [startswith] in A. rewrite andb_true_r in A.
      now rewrite A.
    + intros y t g' Y. rewrite run_cat_chr.
      destruct (Ascii.eqb_spec u y); [congruence | reflexivity].
Qed.

Lemma hm_unit_not_begun {R : Type} (i : nat) (u : ascii) (rest : Re.regex)
    (s : string) (g : Re.groups) (k : string -> Re.groups -> option R) :
  is_digit u = false -> begins_with_unit u s = false ->
  Re.run (Re.Cat (hm_unit i u) rest) s g k = Re.run rest s g k.
Proof.
  intros U B. unfold begins_with_unit in B. apply andb_false_iff in B as [B|B].
  - apply negb_false_iff in B. unfold hm_unit, Re.digit.
    rewrite run_cat_opt, run_cat_assoc. now rewrite run_cat_group_fail.
  - now apply hm_unit_absent.
Qed.

Lemma seconds_unit_unfold {R : Type} (s whole : string) (g : Re.groups)
    (k : string -> Re.groups -> option R) :
  whole = s ->
  Re.run seconds_unit s g k
  = match Re.run (Re.plus (Re.Chr is_digit)) s g
            (fun s1 g1 =>
               match Re.run (Re.Cat (Re.Chr (Ascii.eqb ".")) (Re.plus (Re.Chr is_digit)))
                       s1 g1 (after_seconds whole k) with
               | Some x => Some x
               | None => after_seconds whole k s1 g1
               end) with
    | Some x => Some x
    | None => k s g
    end.
Proof. intros ->. reflexivity. Qed.

Lemma after_seconds_digit {R : Type} (whole : string)
    (k : string -> Re.groups -> option R) (c : ascii) (s' : string) (g : Re.groups) :
  is_digit c = true -> after_seconds whole k (String c s') g = None.
Proof.
  intros C. unfold after_seconds. rewrite run_chr.
  apply digit_facts in C as (_ & _ & _ & _ & _ & _ & _ & _ & _ & _ & C & _).
  now rewrite C.
Qed.

Lemma fraction_digit {R : Type} (k : string -> Re.groups -> option R)
    (c : ascii) (s' : string) (g : Re.groups) :
  is_digit c = true ->
  Re.run (Re.Cat (Re.Chr (Ascii.eqb ".")) (Re.plus (Re.Chr is_digit))) (String c s') g k
  = None.
Proof.
  intros C. rewrite run_cat_chr.
  apply digit_facts in C as (_ & _ & _ & _ & _ & _ & _ & _ & _ & _ & _ & C & _).
  now rewrite C.
Qed.

(** A seconds component that is written is taken, with its fraction. *)
Lemma seconds_unit_present {R : Type} (ds : string) (f : option string) (tail : string)
    (g : Re.groups) (k : string -> Re.groups -> option R) (x : R) :
  seconds_ok (Some (ds, f)) = true ->
  k tail ((3%nat, written ds f) :: g) = Some x ->
  Re.run seconds_unit (written ds f ++ String "s" tail) g k = Some x.
Proof.
  intros OK H.
  assert (K : after_seconds (written ds f ++ String "s" tail) k (String "s" tail) g
              = Some x).
  { unfold after_seconds. rewrite run_chr. cbn [Ascii.eqb Bool.eqb].
    now rewrite take_consumed. }
  destruct f as [fr|]; cbn [seconds_ok written] in *.
  - apply andb_true_iff in OK as [D F].
    rewrite (seconds_unit_unfold _ ((ds ++ String "." fr) ++ String "s" tail))
      by reflexivity.
    rewrite app_assoc_string at 1. cbn [append].
    rewrite run_plus_chr;
      [| now apply digits_nonempty | now apply digits_all | reflexivity |].
    + rewrite run_cat_chr. cbn [Ascii.eqb Bool.eqb].
      rewrite run_plus_chr;
        [| now apply digits_nonempty | now apply digits_all | reflexivity
         | intros; now apply after_seconds_digit].
      now rewrite K.
    + intros c s' C. rewrite fraction_digit by exact C.
      now apply after_seconds_digit.
  - rewrite (seconds_unit_unfold _ (ds ++ String "s" tail)) by reflexivity.
    rewrite run_plus_chr;
      [| now apply digits_nonempty | now apply digits_all | reflexivity |].
    + rewrite run_cat_chr. cbn [Ascii.eqb Bool.eqb]. now rewrite K.
    + intros c s' C. rewrite fraction_digit by exact C.
      now apply after_seconds_digit.
Qed.

(** It is skipped when the text does not begin with one. *)
Lemma seconds_unit_not_begun {R : Type} (s : string) (g : Re.groups)
    (k : string -> Re.groups -> option R) :
  begins_with_seconds s = false -> Re.run seconds_unit s g k = k s g.
Proof.
  intros B. rewrite (seconds_unit_unfold s s) by reflexivity.
  match goal with |- match ?t with _ => _ end = _ => assert (E : t = None) end;
    [|now rewrite E].
  unfold begins_with_seconds in B.
  destruct (lstrip_by_split is_digit s) as (a & E & Da & St).
  destruct a as [|c a].
  - simpl in E. rewrite <- E in St.
    destruct s as [|c s]; [reflexivity|]. simpl in St.
    apply negb_true_iff in St. unfold Re.plus. simpl. now rewrite St.
  - assert (N : stops is_digit s = false).
    { rewrite E. simpl in *. apply andb_true_iff in Da as [-> _]. reflexivity. }
    rewrite N in B. cbn [negb andb] in B. apply orb_false_iff in B as [B1 B2].
    rewrite E at 1. rewrite run_plus_chr; [| discriminate | exact Da | exact St |].
    + destruct (lstrip_by is_digit s) as [|y t] eqn:L; [reflexivity|].
      rewrite run_cat_chr.
      assert (A : after_seconds s k (String y t) g = None).
      { unfold after_seconds. rewrite run_chr. cbn [startswith] in B1.
        rewrite andb_true_r in B1. now rewrite B1. }
      rewrite A. destruct (Ascii.eqb_spec "." y) as [<-|]; [|reflexivity].
      destruct (lstrip_by_split is_digit t) as (b & Eb & Db & Sb).
      destruct b as [|d b].
      * simpl in Eb. rewrite <- Eb in Sb.
        destruct t as [|d t]; [reflexivity|]. simpl in Sb.
        apply negb_true_iff in Sb. unfold Re.plus. simpl. now rewrite Sb.
      * assert (Nt : stops is_digit t = false).
        { rewrite Eb. simpl in *. apply andb_true_iff in Db as [-> _]. reflexivity. }
        rewrite Nt in B2. cbn [negb andb] in B2.
        rewrite Eb at 1.
        rewrite run_plus_chr;
          [| discriminate | exact Db | exact Sb | intros; now apply after_seconds_digit].
        unfold after_seconds.
        destruct (lstrip_by is_digit t) as [|z t']; [reflexivity|].
        rewrite run_chr. cbn [startswith] in B2. rewrite andb_true_r in B2.
        now rewrite B2.
    + intros y t Y. rewrite fraction_digit by exact Y.
      now apply after_seconds_digit.
Qed.

Lemma begins_with_unit_after_digits (u : ascii) (ds : string) (c : ascii) (tail : string) :
  digits ds = true -> is_digit c = false ->
  begins_with_unit u (ds ++ String c tail) = Ascii.eqb u c.
Proof.
  intros D C. unfold begins_with_unit.
  rewrite lstrip_by_run by (now apply digits_all || (simpl; now rewrite C)).
  destruct (digits_inv _ D) as (x & r & -> & X & _). simpl. rewrite X. simpl.
  now rewrite andb_true_r.
Qed.

Lemma seconds_text_no_unit (u : ascii) (os : option (string * option string)) :
  seconds_ok os = true -> Ascii.eqb u "." = false -> Ascii.eqb u "s" = false ->
  begins_with_unit u (seconds_text os) = false.
Proof.
  intros OK U1 U2. destruct os as [[ds [f|]]|]; simpl in *.
  - apply andb_true_iff in OK as [D _].
    rewrite app_assoc_string. cbn [append].
    now rewrite begins_with_unit_after_digits.
  - now rewrite begins_with_unit_after_digits.
  - reflexivity.
Qed.

Lemma seconds_unit_on_text (os : option (string * option string)) (g : Re.groups) :
  seconds_ok os = true ->
  Re.run seconds_unit (seconds_text os) g (fun _ g' => Some g')
  = Some (match os with Some (ds, f) => [(3%nat, written ds f)] | None => [] end ++ g)%list.
Proof.
  intros OK. destruct os as [[ds f]|]; cbn [seconds_text].
  - now apply seconds_unit_present.
  - now rewrite seconds_unit_not_begun.
Qed.

Lemma minutes_on_text (om : option string) (os : option (string * option string))
    (g : Re.groups) :
  unit_ok om = true -> seconds_ok os = true ->
  Re.run (Re.Cat (hm_unit 2 "m") seconds_unit) (unit_text om "m" ++ seconds_text os) g
    (fun _ g' => Some g')
  = Some (match os with Some (ds, f) => [(3%nat, written ds f)] | None => [] end
          ++ match om with Some ds => [(2%nat, ds)] | None => [] end ++ g)%list.
Proof.
  intros M OK. destruct om as [m|]; cbn [unit_text unit_ok] in *.
  - rewrite app_assoc_string. cbn [append].
    apply hm_unit_present; [exact M | reflexivity |].
    now rewrite seconds_unit_on_text.
  - cbn [append]. rewrite hm_unit_not_begun;
      [| reflexivity | now apply seconds_text_no_unit].
    now rewrite seconds_unit_on_text.
Qed.

(** On a value made of components, [hms_pattern] captures exactly them. *)
Lemma hms_match_components (oh om : option string) (os : option (string * option string)) :
  unit_ok oh = true -> unit_ok om = true -> seconds_ok os = true ->
  Re.match_ hms_pattern (hms_text oh om os) = Some (hms_groups oh om os).
Proof.
  intros H M OK. unfold Re.match_, hms_pattern, hms_text, hms_groups.
  destruct oh as [h|]; cbn [unit_text unit_ok] in *.
  - rewrite app_assoc_string. cbn [append].
    apply hm_unit_present; [exact H | reflexivity |].
    now rewrite minutes_on_text.
  - cbn [append]. rewrite hm_unit_not_begun; [| reflexivity |].
    + rewrite minutes_on_text by assumption. now rewrite !app_nil_r.
    + destruct om as [m|]; cbn [unit_text unit_ok append] in *.
      * rewrite app_assoc_string. cbn [append].
        now rewrite begins_with_unit_after_digits.
      * now apply seconds_text_no_unit.
Qed.

(** On a value that begins with no component, it captures nothing. *)
Lemma hms_match_nothing (v : string) :
  begins_with_component v = false -> Re.match_ hms_pattern v = Some [].
Proof.
  intros B. unfold begins_with_component in B.
  apply orb_false_iff in B as [B B3]. apply orb_false_iff in B as [B1 B2].
  unfold Re.match_, hms_pattern.
  rewrite hm_unit_not_begun by (reflexivity || exact B1).
  rewrite hm_unit_not_begun by (reflexivity || exact B2).
  now rewrite seconds_unit_not_begun.
Qed.

Lemma search_here (r : Re.regex) (s : string) (g : Re.groups) :
  Re.match_ r s = Some g -> Re.search r s = Some g.
Proof. intros H. destruct s; simpl; now rewrite H. Qed.

Lemma space_facts (c : ascii) :
  isspace c = true ->
  Ascii.eqb "=" c = false /\ Ascii.eqb dquote c = false /\ is_digit c = false.
Proof.
  destruct c as [[] [] [] [] [] [] [] []]; vm_compute; intros H;
    try discriminate H; repeat split.
Qed.

(** The first assignment of a file is found, with the text between its
    quotes as group 1. *)
Lemma start_time_search (pre ws1 ws2 value post : string) :
  contains "START_TIME" pre = false ->
  all_chars isspace ws1 = true -> all_chars isspace ws2 = true ->
  value <> "" -> all_chars (fun c => negb (Ascii.eqb c dquote)) value = true ->
  Re.search start_time_pattern (assignment pre ws1 ws2 value post)
  = Some [(1%nat, value)].
Proof.
  intros C W1 W2 N V. unfold assignment, start_time_pattern, Re.space.
  rewrite search_skip by (reflexivity || exact C).
  apply search_here. unfold Re.match_.
  rewrite run_cat_lit.
  rewrite run_cat_star; [| exact W1 | reflexivity |].
  2:{ intros c s' H. rewrite run_cat_chr.
      apply space_facts in H as (H & _). now rewrite H. }
  cbn [append]. rewrite run_cat_chr, Ascii.eqb_refl.
  rewrite run_cat_star; [| exact W2 | reflexivity |].
  2:{ intros c s' H. rewrite run_cat_chr.
      apply space_facts in H as (_ & H & _). now rewrite H. }
  rewrite run_cat_chr, Ascii.eqb_refl.
  rewrite run_cat_group; [| exact N | exact V | |].
  - now rewrite run_chr, Ascii.eqb_refl.
  - reflexivity.
  - intros c s' g' H. rewrite run_chr. apply negb_true_iff in H.
    rewrite Ascii.eqb_sym. now rewrite H.
Qed.

(** ** [parse_ini_offset] *)

Lemma hms_char_facts (c : ascii) :
  hms_char c = true -> isspace c = false /\ Ascii.eqb c dquote = false.
Proof.
  destruct c as [[] [] [] [] [] [] [] []]; vm_compute; intros H;
    try discriminate H; split; reflexivity.
Qed.

Lemma digit_hms_char (s : string) :
  all_chars is_digit s = true -> all_chars hms_char s = true.
Proof.
  apply all_chars_weaken. intros c H. unfold hms_char. now rewrite H.
Qed.

Lemma hms_text_chars (oh om : option string) (os : option (string * option string)) :
  unit_ok oh = true -> unit_ok om = true -> seconds_ok os = true ->
  all_chars hms_char (hms_text oh om os) = true.
Proof.
  intros H M S. unfold hms_text. rewrite !all_chars_app.
  assert (U : forall n u, unit_ok n = true -> hms_char u = true ->
              all_chars hms_char (unit_text n u) = true).
  { intros [ds|] u D C; simpl; [|reflexivity].
    rewrite all_chars_app, (digit_hms_char ds) by now apply digits_all.
    simpl. now rewrite C. }
  rewrite (U oh "h"%char), (U om "m"%char) by (assumption || reflexivity).
  destruct os as [[ds [f|]]|]; cbn [seconds_text written seconds_ok] in *;
    [| |reflexivity].
  - apply andb_true_iff in S as [D F].
    rewrite !all_chars_app, (digit_hms_char ds) by now apply digits_all.
    cbn [all_chars]. rewrite (digit_hms_char f) by now apply digits_all.
    reflexivity.
  - rewrite all_chars_app, (digit_hms_char ds) by now apply digits_all.
    reflexivity.
Qed.

Lemma component_of_digits (g : Re.groups) (i : nat) (ds : string) (f : option string) :
  Re.group g i = Some (written ds f) ->
  digits ds = true -> all_chars is_digit (fraction f) = true ->
  component g i = Some (read_number ds f).
Proof.
  intros G D F. unfold component. rewrite G.
  replace (nonempty (written ds f)) with true.
  - now apply of_string_written.
  - destruct (digits_inv _ D) as (c & r & -> & _). now destruct f.
Qed.

Lemma components_of_groups (oh om : option string) (os : option (string * option string)) :
  unit_ok oh = true -> unit_ok om = true -> seconds_ok os = true ->
  component (hms_groups oh om os) 1 = Some (unit_number oh)
  /\ component (hms_groups oh om os) 2 = Some (unit_number om)
  /\ component (hms_groups oh om os) 3 = Some (seconds_number os).
Proof.
  intros H M S.
  assert (F : forall ds f, seconds_ok (Some (ds, f)) = true ->
              digits ds = true /\ all_chars is_digit (fraction f) = true).
  { intros ds [f|] X; simpl in X; [|now split].
    apply andb_true_iff in X as [X1 X2]. split; [exact X1 | now apply digits_all]. }
  destruct oh as [h|], om as [m|], os as [[ds f]|];
    cbn [unit_ok unit_number seconds_number hms_groups app] in *;
    try (destruct (F ds f S) as [Ds Df]);
    repeat split;
    first [ reflexivity
          | apply (component_of_digits _ _ _ None); [reflexivity | assumption | reflexivity]
          | apply component_of_digits; [reflexivity | assumption | assumption] ].
Qed.

(** The offset of a file whose first assignment holds a value made of
    components. *)
Lemma parse_ini_offset_try_components
    (pre ws1 ws2 post : string) (oh om : option string)
    (os : option (string * option string)) :
  contains "START_TIME" pre = false ->
  all_chars isspace ws1 = true -> all_chars isspace ws2 = true ->
  unit_ok oh = true -> unit_ok om = true -> seconds_ok os = true ->
  hms_text oh om os <> "" ->
  parse_ini_offset_try (assignment pre ws1 ws2 (hms_text oh om os) post)
  = Some (unit_number oh * 3600 + unit_number om * 60 + seconds_number os)%float.
Proof.
  intros C W1 W2 H M S N. unfold parse_ini_offset_try.
  pose proof (hms_text_chars oh om os H M S) as Ch.
  rewrite start_time_search; try assumption.
  2:{ revert Ch. apply all_chars_weaken. intros c X.
      apply hms_char_facts in X as [_ X]. now rewrite X. }
  cbn [Re.group Nat.eqb obind].
  assert (St : strip (hms_text oh om os) = hms_text oh om os).
  { unfold strip. destruct (strips_nothing isspace (hms_text oh om os)) as [L R].
    - revert Ch. apply all_chars_weaken. intros c X.
      apply hms_char_facts in X as [X _]. now rewrite X.
    - now rewrite L, R. }
  rewrite St, hms_match_components by assumption.
  destruct (components_of_groups oh om os H M S) as (E1 & E2 & E3).
  rewrite E1, E2, E3. reflexivity.
Qed.

Lemma parse_ini_offset_try_absent (content : string) :
  contains "START_TIME" content = false -> parse_ini_offset_try content = Some 0%float.
Proof.
  intros C. unfold parse_ini_offset_try, start_time_pattern.
  now rewrite search_without.
Qed.

(** C3. For a file whose first [START_TIME] assignment holds a value made
    of the optional components [<N>h], [<N>m] and [<N>(.N)s], in that order
    and with at least one of them, [parse_ini_offset] returns the binary64
    result of [hours * 3600 + minutes * 60 + seconds], a missing component
    counting as zero; for the value 10h36m22.010s this is 38182.01. For a
    file that holds no [START_TIME] it returns 0.0. *)
Theorem parse_ini_offset_components
    (sys : system) (path pre ws1 ws2 post : string) (oh om : option string)
    (os : option (string * option string)) :
  read_text sys path = Some (assignment pre ws1 ws2 (hms_text oh om os) post) ->
  contains "START_TIME" pre = false ->
  all_chars isspace ws1 = true -> all_chars isspace ws2 = true ->
  unit_ok oh = true -> unit_ok om = true -> seconds_ok os = true ->
  hms_text oh om os <> "" ->
  parse_ini_offset sys path
  = (unit_number oh * 3600 + unit_number om * 60 + seconds_number os)%float
  /\ (unit_number (Some "10") * 3600 + unit_number (Some "36") * 60
      + seconds_number (Some ("22", Some "010")))%float = 38182.01%float
  /\ forall sys' path' content,
       read_text sys' path' = Some content ->
       contains "START_TIME" content = false ->
       parse_ini_offset sys' path' = 0%float.
Proof.
  intros E C W1 W2 H M S N. split; [|split].
  - unfold parse_ini_offset. rewrite E. cbn [obind].
    now rewrite parse_ini_offset_try_components.
  - vm_compute. reflexivity.
  - intros sys' path' content R A. unfold parse_ini_offset. rewrite R. cbn [obind].
    now rewrite parse_ini_offset_try_absent.
Qed.

Lemma parse_ini_offset_components_witness :
  parse_ini_offset (sample_system sample_stream) "film.ts.ini" = 38182.01%float.
Proof.
  destruct (parse_ini_offset_components (sample_system sample_stream) "film.ts.ini"
              "" "" "" "" (Some "10") (Some "36") (Some ("22", Some "010"))
              eq_refl eq_refl eq_refl eq_refl eq_refl eq_refl eq_refl
              ltac:(discriminate)) as (E & V & _).
  rewrite E. exact V.
Defined.

(** C7, as stated, fails: the value 10hxyz is not matched by the time
    pattern as a whole, yet its leading component is used and the offset is
    36000.0. *)
Lemma malformed_value_keeps_leading_component :
  ~ (forall sys path, malformed (read_text sys path) -> parse_ini_offset sys path = 0%float).
Proof.
  intros H.
  set (content := "START_TIME=" ++ String dquote ("10hxyz" ++ String dquote "")).
  specialize (H (with_sidecar (Some content)) "film.ts.ini").
  assert (M : malformed (read_text (with_sidecar (Some content)) "film.ts.ini")).
  { cbn [with_sidecar read_text malformed].
    replace (Re.search start_time_pattern content) with (Some [(1%nat, "10hxyz")])
      by (vm_compute; reflexivity).
    exists "10hxyz". split; [reflexivity | vm_compute; reflexivity]. }
  apply H in M. float_discriminate M.
Qed.

Lemma unusable_offset_zero (sys : system) (path : string) :
  unusable_offset (read_text sys path) -> parse_ini_offset sys path = 0%float.
Proof.
  unfold unusable_offset, parse_ini_offset.
  destruct (read_text sys path) as [content|]; [|reflexivity].
  cbn [obind]. unfold parse_ini_offset_try.
  destruct (Re.search start_time_pattern content) as [g|]; [|reflexivity].
  intros (v & G & B). rewrite G. cbn [obind].
  rewrite (hms_match_nothing _ B). reflexivity.
Qed.

(** ** Rounding to binary64 *)

Lemma digits2_size (p : positive) : digits2_pos p = Pos.size p.
Proof. induction p; simpl; congruence. Qed.

Lemma Zdigits2_bounds (m : Z) :
  0 < m -> 2 ^ (Zdigits2 m - 1) <= m < 2 ^ Zdigits2 m.
Proof.
  destruct m as [|p|p]; try lia. intros _. cbn [Zdigits2]. rewrite digits2_size.
  pose proof (Pos.size_gt p) as G. pose proof (Pos.size_le p) as L.
  apply Pos2Z.pos_lt_pos in G. apply Pos2Z.pos_le_pos in L.
  rewrite Pos2Z.inj_pow in G, L. change (Z.pos p~0) with (2 * Z.pos p) in L.
  split; [|exact G].
  assert (E : 2 ^ Z.pos (Pos.size p) = 2 * 2 ^ (Z.pos (Pos.size p) - 1)).
  { rewrite <- Z.pow_succ_r by lia. f_equal. lia. }
  lia.
Qed.

Lemma Zdigits2_nonneg (m : Z) : 0 <= Zdigits2 m.
Proof. destruct m; simpl; lia. Qed.

Lemma Zdigits2_pos (m : Z) : 0 < m -> 0 < Zdigits2 m.
Proof. destruct m; simpl; lia. Qed.

Lemma Zdigits2_unique (m d : Z) :
  2 ^ (d - 1) <= m < 2 ^ d -> 0 < m -> Zdigits2 m = d.
Proof.
  intros [L U] P. pose proof (Zdigits2_bounds m P) as [L' U'].
  pose proof (Zdigits2_pos m P) as D.
  assert (0 < d).
  { destruct (Z.ltb_spec 0 d); [assumption|].
    assert (2 ^ d <= 1); [|lia].
    destruct (Z.eq_dec d 0) as [->|]; [simpl; lia|].
    rewrite Z.pow_neg_r by lia. lia. }
  destruct (Z.lt_trichotomy (Zdigits2 m) d) as [C|[C|C]]; [|exact C|].
  - assert (2 ^ Zdigits2 m <= 2 ^ (d - 1)) by (apply Z.pow_le_mono_r; lia). lia.
  - assert (2 ^ d <= 2 ^ (Zdigits2 m - 1)) by (apply Z.pow_le_mono_r; lia). lia.
Qed.

Lemma fexp_eq (e : Z) : fexp prec emax e = Z.max (e - 53) (-1074).
Proof. reflexivity. Qed.

Lemma pow2_pos (a : Z) : 0 <= a -> 0 < 2 ^ a.
Proof. intros. apply Z.pow_pos_nonneg; lia. Qed.

Lemma pow2_le_exp (a b : Z) : 0 <= b -> 2 ^ a <= 2 ^ b -> a <= b.
Proof.
  intros B H. destruct (Z.le_gt_cases a b) as [|C]; [assumption|].
  assert (2 ^ b < 2 ^ a) by (apply Z.pow_lt_mono_r; lia). lia.
Qed.

Lemma pow2_lt_exp (a b : Z) : 0 <= a -> 2 ^ a < 2 ^ b -> a < b.
Proof.
  intros A H. destruct (Z.lt_ge_cases a b) as [|C]; [assumption|].
  assert (2 ^ b <= 2 ^ a) by (apply Z.pow_le_mono_r; lia). lia.
Qed.

Lemma shr_1_m (mrs : shr_record) :
  0 <= shr_m mrs -> shr_m (shr_1 mrs) = shr_m mrs / 2.
Proof.
  destruct mrs as [m r s]. cbn [shr_m]. intros H.
  destruct m as [|[p|p|]|p]; cbn [shr_1 shr_m].
  - reflexivity.
  - apply Z.div_unique with 1; lia.
  - apply Z.div_unique with 0; lia.
  - reflexivity.
  - lia.
Qed.

Lemma iter_shr_m (p : positive) :
  forall mrs, 0 <= shr_m mrs ->
  shr_m (iter_pos shr_1 p mrs) = shr_m mrs / 2 ^ Z.pos p.
Proof.
  assert (N : forall m k, 0 <= m -> 0 <= m / 2 ^ Z.pos k).
  { intros. apply Z.div_pos; [assumption | apply pow2_pos; lia]. }
  induction p as [p IH|p IH|]; intros mrs H; cbn [iter_pos].
  - rewrite IH, IH, shr_1_m; try assumption.
    + rewrite !Z.div_div by (try apply pow2_pos; lia).
      f_equal. rewrite <- Z.pow_add_r by lia.
      change 2 with (2 ^ 1) at 1. rewrite <- Z.pow_add_r by lia. f_equal. lia.
    + rewrite shr_1_m by assumption. apply Z.div_pos; lia.
    + rewrite IH by (rewrite shr_1_m by assumption; apply Z.div_pos; lia).
      apply N. rewrite shr_1_m by assumption. apply Z.div_pos; lia.
  - rewrite IH, IH; try assumption.
    + rewrite !Z.div_div by (try apply pow2_pos; lia).
      f_equal. rewrite <- Z.pow_add_r by lia. f_equal. lia.
    + rewrite IH by assumption. now apply N.
  - rewrite shr_1_m by assumption. reflexivity.
Qed.

Lemma shr_spec (mrs : shr_record) (e n : Z) :
  0 <= shr_m mrs ->
  shr_m (fst (shr mrs e n)) = shr_m mrs / 2 ^ Z.max n 0
  /\ snd (shr mrs e n) = e + Z.max n 0.
Proof.
  intros H. destruct n as [|p|p]; cbn [shr fst snd].
  - rewrite Z.div_1_r. split; [reflexivity | lia].
  - rewrite iter_shr_m by assumption. split; f_equal; lia.
  - replace (Z.max (Z.neg p) 0) with 0 by lia. rewrite Z.div_1_r. split; [reflexivity | lia].
Qed.

Lemma shr_record_of_loc_m (m : Z) (l : location) : shr_m (shr_record_of_loc m l) = m.
Proof. destruct l as [|[]]; reflexivity. Qed.

Lemma shr_fexp_spec (m e : Z) (l : location) :
  0 <= m ->
  let E := Z.max e (fexp prec emax (Zdigits2 m + e)) in
  shr_m (fst (shr_fexp prec emax m e l)) = m / 2 ^ (E - e)
  /\ snd (shr_fexp prec emax m e l) = E.
Proof.
  intros H E. unfold shr_fexp.
  destruct (shr_spec (shr_record_of_loc m l) e
              (fexp prec emax (Zdigits2 m + e) - e)) as [A B].
  { now rewrite shr_record_of_loc_m. }
  rewrite shr_record_of_loc_m in A. rewrite A, B.
  split; [f_equal; f_equal; lia | lia].
Qed.

Lemma round_nearest_even_range (m : Z) (l : location) :
  m <= round_nearest_even m l <= m + 1.
Proof. destruct l as [|[]]; cbn [round_nearest_even]; try lia. destruct (Z.even m); lia. Qed.

Lemma shr_fexp_exact (m e : Z) :
  fexp prec emax (Zdigits2 m + e) <= e ->
  shr_fexp prec emax m e loc_Exact = ({| shr_m := m; shr_r := false; shr_s := false |}, e).
Proof.
  intros H. unfold shr_fexp, shr. cbn [shr_record_of_loc].
  destruct (fexp prec emax (Zdigits2 m + e) - e) eqn:X; try reflexivity. lia.
Qed.

Lemma binary_round_aux_shape (sx : bool) (mx ex : Z) (lx : location) :
  0 <= mx ->
  let E := Z.max ex (fexp prec emax (Zdigits2 mx + ex)) in
  let m1 := mx / 2 ^ (E - ex) in
  exists m2 m3 e3,
    m1 <= m2 <= m1 + 1
    /\ (lx = loc_Exact -> E = ex -> m2 = mx)
    /\ 0 <= m3
    /\ ((m3 = m2 /\ e3 = E) \/ (m2 = 2 * m3 /\ e3 = E + 1))
    /\ binary_round_aux prec emax sx mx ex lx = pack sx m3 e3
    /\ (ex <= fexp prec emax (Zdigits2 mx + ex) -> 0 < m3 ->
        fexp prec emax (Zdigits2 m3 + e3) = e3).
Proof.
  intros Hm. cbv zeta.
  destruct (shr_fexp_spec mx ex lx Hm) as [A1 B1].
  assert (P0 : mx = 0 -> Zdigits2 mx = 0) by (intros ->; reflexivity).
  assert (Pb : 0 < mx -> 2 ^ (Zdigits2 mx - 1) <= mx < 2 ^ Zdigits2 mx)
    by apply Zdigits2_bounds.
  assert (D0 : 0 <= Zdigits2 mx) by apply Zdigits2_nonneg.
  rewrite !fexp_eq in *.
  remember (Zdigits2 mx) as d0 eqn:Hd0.
  remember (Z.max ex (Z.max (d0 + ex - 53) (-1074))) as E eqn:HE.
  remember (mx / 2 ^ (E - ex)) as m1 eqn:Hm1.
  unfold binary_round_aux.
  destruct (shr_fexp prec emax mx ex lx) as [mrs' e'] eqn:S1. cbn [fst snd] in A1, B1.
  subst e'. remember (round_nearest_even (shr_m mrs') (loc_of_shr_record mrs')) as m2 eqn:Hm2.
  assert (R : m1 <= m2 <= m1 + 1).
  { rewrite Hm2, <- A1. apply round_nearest_even_range. }
  assert (M1 : 0 <= m1) by (rewrite Hm1; apply Z.div_pos; [lia | apply pow2_pos; lia]).
  assert (M2 : 0 <= m2) by lia.
  destruct (shr_fexp_spec m2 E loc_Exact M2) as [A2 B2].
  destruct (shr_fexp prec emax m2 E loc_Exact) as [mrs'' e''] eqn:S2.
  cbn [fst snd] in A2, B2. rewrite fexp_eq in A2, B2.
  remember (d0 + ex - E) as t eqn:Ht.
  assert (U1 : 0 <= t -> m1 < 2 ^ t).
  { intros T0. rewrite Hm1. apply Z.div_lt_upper_bound; [apply pow2_pos; lia|].
    rewrite <- Z.pow_add_r by lia. replace (E - ex + t) with d0 by lia.
    destruct (Z.eq_dec mx 0) as [->|]; [apply pow2_pos; lia|]. apply Pb. lia. }
  assert (Z1 : t <= 0 -> m1 = 0).
  { intros T0. rewrite Hm1. apply Z.div_small. split; [lia|].
    destruct (Z.eq_dec mx 0) as [->|]; [apply pow2_pos; lia|].
    assert (mx < 2 ^ d0) by (apply Pb; lia).
    assert (2 ^ d0 <= 2 ^ (E - ex)) by (apply Z.pow_le_mono_r; lia). lia. }
  assert (L1 : 1 <= t -> 2 ^ (t - 1) <= m1).
  { intros T1. rewrite Hm1. apply Z.div_le_lower_bound; [apply pow2_pos; lia|].
    rewrite <- Z.pow_add_r by lia. replace (E - ex + (t - 1)) with (d0 - 1) by lia.
    assert (0 < mx) by (destruct (Z.eq_dec mx 0) as [X|]; [specialize (P0 X)|]; lia).
    apply Pb. lia. }
  assert (X : lx = loc_Exact -> E = ex -> m2 = mx).
  { intros -> He. rewrite shr_fexp_exact in S1 by (rewrite fexp_eq, <- Hd0; lia).
    injection S1 as <-. exact Hm2. }
  assert (D2 : 0 < m2 ->
               (Zdigits2 m2 <= Z.max t 1 /\ (1 <= t -> m2 < 2 ^ t))
               \/ (1 <= t /\ m2 = 2 ^ t /\ Zdigits2 m2 = t + 1)).
  { intros P2. destruct (Z.le_gt_cases t 0) as [T0|T0].
    - left. specialize (Z1 T0). assert (Q : m2 = 1) by lia. rewrite Q.
      cbn. split; lia.
    - specialize (U1 ltac:(lia)). destruct (Z.eq_dec m2 (2 ^ t)) as [Q|Q].
      + right. split; [lia|]. split; [exact Q|].
        apply Zdigits2_unique; [|lia]. rewrite Q.
        replace (t + 1 - 1) with t by lia. split; [lia|].
        apply Z.pow_lt_mono_r; lia.
      + left. assert (m2 < 2 ^ t) by lia. split; [|intros; assumption].
        pose proof (Zdigits2_bounds m2 P2) as [Lb _].
        assert (Zdigits2 m2 - 1 < t); [|lia].
        apply pow2_lt_exp; [pose proof (Zdigits2_pos m2 P2); lia | lia]. }
  clear Hm2 S1 Hm1.
  destruct (Z.eq_dec m2 0) as [Z2|NZ2].
  - (* rounded to zero *)
    exists m2, 0, E.
    split; [exact R|]. split; [exact X|]. split; [lia|]. split; [left; lia|].
    split; [|lia].
    replace (shr_m mrs'') with 0; [reflexivity|].
    rewrite A2, Z2. symmetry. apply Z.div_0_l. apply Z.pow_nonzero; lia.
  - destruct (D2 ltac:(lia)) as [[Dle Dlt]|(T1 & Q & Dq)].
    + (* no second shift *)
      assert (F2 : fexp prec emax (Zdigits2 m2 + E) <= E) by (rewrite fexp_eq; lia).
      rewrite shr_fexp_exact in S2 by exact F2. injection S2 as <- <-.
      exists m2, m2, E. cbn [shr_m].
      split; [exact R|]. split; [exact X|]. split; [lia|]. split; [left; lia|].
      split; [destruct m2; try lia; reflexivity|].
      intros Hp _. rewrite fexp_eq.
      destruct (Z.le_gt_cases t 52) as [T52|T52]; [lia|].
      assert (t = 53) by lia.
      specialize (L1 ltac:(lia)). specialize (Dlt ltac:(lia)).
      assert (Zdigits2 m2 = 53); [|lia].
      apply Zdigits2_unique; [|lia]. replace (53 - 1) with (t - 1) by lia.
      replace 53 with t by lia. lia.
    + destruct (Z.eq_dec t 53) as [T|T].
      * (* carry at full precision: one more shift *)
        assert (F2 : Z.max (Zdigits2 m2 + E - 53) (-1074) = E + 1) by lia.
        assert (A3 : shr_m mrs'' = 2 ^ 52).
        { rewrite A2, F2. replace (Z.max E (E + 1) - E) with 1 by lia.
          rewrite Q, T. reflexivity. }
        exists m2, (2 ^ 52), (E + 1).
        split; [exact R|]. split; [exact X|]. split; [lia|].
        split; [right; rewrite Q, T; split; [reflexivity | lia]|].
        split.
        -- rewrite A3, B2, F2. replace (Z.max E (E + 1)) with (E + 1) by lia.
           reflexivity.
        -- intros _ _. rewrite fexp_eq.
           replace (Zdigits2 (2 ^ 52)) with 53 by reflexivity. lia.
      * assert (F2 : fexp prec emax (Zdigits2 m2 + E) <= E) by (rewrite fexp_eq; lia).
        rewrite shr_fexp_exact in S2 by exact F2. injection S2 as <- <-.
        exists m2, m2, E. cbn [shr_m].
        split; [exact R|]. split; [exact X|]. split; [lia|]. split; [left; lia|].
        split; [destruct m2; try lia; reflexivity|].
        intros Hp _. rewrite fexp_eq. lia.
Qed.


Lemma pow2_add (a b : Z) : (pow2 (a + b) == pow2 a * pow2 b)%Q.
Proof. unfold pow2. apply Qpower_plus. discriminate. Qed.

Lemma pow2_gt0 (e : Z) : (0 < pow2 e)%Q.
Proof. unfold pow2. apply Qpower_0_lt. reflexivity. Qed.

Lemma pow2_mono (a b : Z) : a <= b -> (pow2 a <= pow2 b)%Q.
Proof. intros H. unfold pow2. apply Qpower_le_compat_l; [exact H | discriminate]. Qed.

Lemma pow2_inject (n : Z) : 0 <= n -> (inject_Z (2 ^ n) == pow2 n)%Q.
Proof. intros H. unfold pow2. now rewrite Zpower_Qpower. Qed.

Lemma pow2_succ (e : Z) : (pow2 (e + 1) == 2 * pow2 e)%Q.
Proof. rewrite pow2_add. unfold pow2 at 2. simpl. lra. Qed.

(** Dropping [n] low bits of [mx] brackets it between two multiples. *)
Lemma div_bracket (mx n e : Z) :
  0 <= mx -> 0 <= n ->
  (inject_Z (mx / 2 ^ n) * pow2 (e + n) <= inject_Z mx * pow2 e
   /\ (inject_Z mx + 1) * pow2 e <= (inject_Z (mx / 2 ^ n) + 1) * pow2 (e + n))%Q.
Proof.
  intros Hm Hn.
  assert (P : 0 < 2 ^ n) by (apply pow2_pos; lia).
  pose proof (Z.mul_div_le mx (2 ^ n) P) as L.
  pose proof (Z.mul_succ_div_gt mx (2 ^ n) P) as U.
  assert (L' : (inject_Z (mx / 2 ^ n) * pow2 n <= inject_Z mx)%Q).
  { rewrite <- pow2_inject, <- inject_Z_mult by lia. rewrite <- Zle_Qle. lia. }
  assert (U' : (inject_Z mx + 1 <= (inject_Z (mx / 2 ^ n) + 1) * pow2 n)%Q).
  { rewrite <- pow2_inject by lia.
    change 1%Q with (inject_Z 1). rewrite <- !inject_Z_plus, <- inject_Z_mult.
    rewrite <- Zle_Qle. lia. }
  pose proof (pow2_gt0 e) as Pe. pose proof (pow2_add e n) as A.
  rewrite A. split; nra.
Qed.

Lemma pack_valid (sx : bool) (m e : Z) :
  0 <= m -> (0 < m -> fexp prec emax (Zdigits2 m + e) = e) ->
  SpecFloat.valid_binary prec emax (pack sx m e) = true.
Proof.
  intros H C. destruct m as [|p|p]; cbn [pack]; [reflexivity| |lia].
  destruct (e <=? emax - prec) eqn:B; [|reflexivity].
  cbn [valid_binary]. unfold bounded, canonical_mantissa. rewrite B, andb_true_r.
  apply Z.eqb_eq. apply (C ltac:(lia)).
Qed.

Lemma pack_value (m e : Z) :
  0 <= m -> e <= 971 ->
  SF_finite (pack false m e) = true /\ SF_nonneg (pack false m e) = true
  /\ (SF_value (pack false m e) == inject_Z m * pow2 e)%Q.
Proof.
  intros H B. destruct m as [|p|p]; cbn [pack]; [| |lia].
  - split; [reflexivity|]. split; [reflexivity|]. cbn [SF_value]. change (inject_Z 0) with 0%Q. ring.
  - replace (e <=? emax - prec) with true by (symmetry; apply Z.leb_le; exact B).
    split; [reflexivity|]. split; reflexivity.
Qed.

Lemma pack_nonneg (m e : Z) : 0 <= m -> SF_nonneg (pack false m e) = true.
Proof.
  intros H. destruct m as [|p|p]; cbn [pack]; [reflexivity| |lia].
  now destruct (e <=? emax - prec).
Qed.

(** The value that [binary_round_aux] rounds to, for a number [x] that
    lies between [mx * 2^ex] and the next multiple and below [2^k]: it is
    finite and off by less than one unit of the exponent kept. *)
Lemma binary_round_aux_value (mx ex : Z) (lx : location) (x : Q) (k : Z) :
  0 <= mx ->
  (inject_Z mx * pow2 ex <= x)%Q -> (x <= (inject_Z mx + 1) * pow2 ex)%Q ->
  (x < pow2 k)%Q -> k <= 1023 -> ex <= 970 ->
  let r := binary_round_aux prec emax false mx ex lx in
  let E := Z.max ex (Z.max (k - 53) (-1074)) in
  SF_finite r = true /\ SF_nonneg r = true
  /\ (SF_value r - x <= pow2 E)%Q /\ (x - SF_value r <= pow2 E)%Q
  /\ (ex <= fexp prec emax (Zdigits2 mx + ex) -> SpecFloat.valid_binary prec emax r = true).
Proof.
  intros Hm Lx Ux Xk K973 Hex r E.
  destruct (binary_round_aux_shape false mx ex lx Hm)
    as (m2 & m3 & e3 & R & _ & M3 & Sh & Eq & Can).
  rewrite fexp_eq in *.
  remember (Z.max ex (Z.max (Zdigits2 mx + ex - 53) (-1074))) as E0 eqn:HE0.
  (* digits are bounded by the magnitude *)
  assert (Dk : 0 < mx -> Zdigits2 mx + ex <= k).
  { intros P. pose proof (Zdigits2_bounds mx P) as [Lb _].
    pose proof (Zdigits2_pos mx P) as Dp.
    assert (Q1 : (pow2 (Zdigits2 mx - 1 + ex) <= inject_Z mx * pow2 ex)%Q).
    { rewrite pow2_add, <- pow2_inject by lia.
      apply Qmult_le_compat_r; [|apply Qlt_le_weak, pow2_gt0].
      now rewrite <- Zle_Qle. }
    assert (Q2 : (pow2 (Zdigits2 mx - 1 + ex) < pow2 k)%Q) by lra.
    unfold pow2 in Q2. apply Qpower_lt_compat_l_inv in Q2; [lia | reflexivity]. }
  assert (E0E : E0 <= E).
  { destruct (Z.eq_dec mx 0) as [Z0|]; [rewrite Z0 in HE0; cbn [Zdigits2] in HE0|];
      unfold E; lia. }
  assert (EX : ex <= E0) by lia.
  destruct (div_bracket mx (E0 - ex) ex Hm ltac:(lia)) as [B1 B2].
  replace (ex + (E0 - ex)) with E0 in B1, B2 by lia.
  set (m1 := mx / 2 ^ (E0 - ex)) in *.
  assert (V : (inject_Z m3 * pow2 e3 == inject_Z m2 * pow2 E0)%Q).
  { destruct Sh as [[-> ->]|[-> ->]]; [reflexivity|].
    rewrite pow2_succ, inject_Z_mult. change (inject_Z 2) with 2%Q. ring. }
  assert (E3 : e3 <= 971).
  { assert (E <= 970) by (unfold E; lia). destruct Sh as [[_ ->]|[_ ->]]; lia. }
  destruct (pack_value m3 e3 M3 E3) as (F & N & Val).
  fold r in Eq. rewrite Eq.
  split; [exact F|]. split; [exact N|].
  pose proof (pow2_gt0 E0) as P0. pose proof (pow2_mono E0 E E0E) as Mono.
  assert (R1 : (inject_Z m1 <= inject_Z m2)%Q) by (rewrite <- Zle_Qle; lia).
  assert (R2 : (inject_Z m2 <= inject_Z m1 + 1)%Q).
  { change 1%Q with (inject_Z 1). rewrite <- inject_Z_plus, <- Zle_Qle. lia. }
  split; [|split].
  - rewrite Val, V. nra.
  - rewrite Val, V. nra.
  - intros Hp. apply pack_valid; [exact M3|]. intros P3. rewrite fexp_eq.
    apply Can; [exact Hp | exact P3].
Qed.

Lemma div_core_spec (p q : Z) :
  0 <= p -> 0 < q ->
  let e' := Z.min (Z.max (Zdigits2 p - Zdigits2 q - 53) (-1074)) 0 in
  exists l, SFdiv_core_binary prec emax p 0 q 0 = (p * 2 ^ (- e') / q, e', l)
            /\ (p = 0 -> l = loc_Exact).
Proof.
  intros Hp Hq e'. unfold SFdiv_core_binary.
  rewrite fexp_eq.
  replace (Z.min (Z.max (Zdigits2 p + 0 - (Zdigits2 q + 0) - 53) (-1074)) (0 - 0))
    with e' by (unfold e'; f_equal; lia).
  replace (0 - 0 - e') with (- e') by lia.
  assert (S : 0 <= - e') by (unfold e'; lia).
  set (m' := match - e' with
             | 0 => p
             | Z.pos _ => Z.shiftl p (- e')
             | Z.neg _ => 0
             end).
  assert (M : m' = p * 2 ^ (- e')).
  { unfold m'. destruct (- e') as [|s|s] eqn:X; [simpl; lia | | lia].
    apply Z.shiftl_mul_pow2. lia. }
  destruct (Z.div_eucl m' q) as [q0 r] eqn:D.
  assert (Q0 : q0 = m' / q) by (unfold Z.div; now rewrite D).
  assert (R0 : r = m' mod q) by (unfold Z.modulo; now rewrite D).
  exists (new_location q r). split.
  - now rewrite Q0, M.
  - intros P0. rewrite M, P0, Z.mul_0_l, Z.mod_0_l in R0 by lia. subst r.
    unfold new_location, new_location_even, new_location_odd.
    now destruct (Z.even q).
Qed.

Lemma binary_round_aux_zero (e : Z) :
  -1074 <= e -> binary_round_aux prec emax false 0 e loc_Exact = S754_zero false.
Proof.
  intros H. unfold binary_round_aux.
  rewrite shr_fexp_exact by (rewrite fexp_eq; cbn [Zdigits2]; lia).
  cbn [shr_m loc_of_shr_record round_nearest_even].
  rewrite shr_fexp_exact by (rewrite fexp_eq; cbn [Zdigits2]; lia).
  reflexivity.
Qed.

(** Enough bits are kept in the quotient for one rounding. *)
Lemma div_core_precise (p q : Z) :
  0 < p -> 0 < q ->
  let e' := Z.min (Z.max (Zdigits2 p - Zdigits2 q - 53) (-1074)) 0 in
  let m := p * 2 ^ (- e') / q in
  0 <= m /\ e' <= fexp prec emax (Zdigits2 m + e').
Proof.
  intros Hp Hq e' m.
  assert (S : 0 <= - e') by (unfold e'; lia).
  assert (M0 : 0 <= m).
  { unfold m. apply Z.div_pos; [|lia]. apply Z.mul_nonneg_nonneg; [lia|].
    apply Z.lt_le_incl, pow2_pos. lia. }
  split; [exact M0|]. rewrite fexp_eq.
  destruct (Z.eq_dec e' (-1074)) as [->|Ne]; [lia|].
  pose proof (Zdigits2_bounds p Hp) as [Lp Up].
  pose proof (Zdigits2_bounds q Hq) as [Lq Uq].
  pose proof (Zdigits2_pos p Hp) as Dp. pose proof (Zdigits2_pos q Hq) as Dq.
  set (d1 := Zdigits2 p) in *. set (d2 := Zdigits2 q) in *.
  (* the quotient has at least [d1 - d2 - e'] bits *)
  assert (G : 0 <= d1 - 1 - e' - d2) by (unfold e' in *; lia).
  assert (Lm : 2 ^ (d1 - 1 - e' - d2) <= m).
  { unfold m. apply Z.div_le_lower_bound; [lia|].
    transitivity (2 ^ d2 * 2 ^ (d1 - 1 - e' - d2)).
    - apply Z.mul_le_mono_nonneg_r; [apply Z.lt_le_incl, pow2_pos; lia | lia].
    - rewrite <- Z.pow_add_r by lia. replace (d2 + (d1 - 1 - e' - d2)) with (d1 - 1 + - e') by lia.
      rewrite Z.pow_add_r by lia.
      apply Z.mul_le_mono_nonneg_r; [apply Z.lt_le_incl, pow2_pos; lia | lia]. }
  assert (Pm : 0 < m) by (pose proof (pow2_pos (d1 - 1 - e' - d2) G); lia).
  pose proof (Zdigits2_bounds m Pm) as [_ Um].
  assert (d1 - 1 - e' - d2 < Zdigits2 m) by (apply pow2_lt_exp; lia).
  unfold e' in *. lia.
Qed.

Lemma SF_of_ratio_valid (p q : Z) :
  0 <= p -> 0 < q ->
  SpecFloat.valid_binary prec emax (PyFloat.SF_of_ratio p q) = true
  /\ SF_nonneg (PyFloat.SF_of_ratio p q) = true.
Proof.
  intros Hp Hq. unfold PyFloat.SF_of_ratio.
  destruct (div_core_spec p q Hp Hq) as (l & -> & Z0).
  destruct (Z.eq_dec p 0) as [->|Np].
  - rewrite (Z0 eq_refl), Z.mul_0_l, Z.div_0_l by lia.
    rewrite binary_round_aux_zero by lia. split; reflexivity.
  - destruct (div_core_precise p q ltac:(lia) Hq) as [M0 Pr].
    destruct (binary_round_aux_shape false _
                (Z.min (Z.max (Zdigits2 p - Zdigits2 q - 53) (-1074)) 0) l M0)
      as (m2 & m3 & e3 & _ & _ & M3 & _ & -> & Can).
    split; [|now apply pack_nonneg].
    apply pack_valid; [exact M3|]. intros P3. now apply Can.
Qed.


Lemma shl_align_spec (m : positive) (e e' : Z) :
  snd (shl_align m e e') = Z.min e e'
  /\ Z.pos (fst (shl_align m e e')) = Z.pos m * 2 ^ (e - Z.min e e').
Proof.
  unfold shl_align. destruct (e' - e) as [|d|d] eqn:X; cbn [fst snd].
  - replace (Z.min e e') with e by lia. rewrite Z.sub_diag. split; lia.
  - replace (Z.min e e') with e by lia. rewrite Z.sub_diag. split; lia.
  - replace (Z.min e e') with e' by lia. split; [reflexivity|].
    change (Pos.iter xO m d) with (shift_pos d m). rewrite shift_pos_correct.
    replace (e - e') with (Z.pos d) by lia. change (Z.pow_pos 2 d) with (2 ^ Z.pos d). lia.
Qed.

(** The magnitude of a number bounds the digits of its mantissa. *)
Lemma digits_below (m e k : Z) :
  0 < m -> (inject_Z m * pow2 e < pow2 k)%Q -> Zdigits2 m + e <= k.
Proof.
  intros P H. pose proof (Zdigits2_bounds m P) as [Lb _].
  pose proof (Zdigits2_pos m P) as Dp.
  assert (Q1 : (pow2 (Zdigits2 m - 1 + e) <= inject_Z m * pow2 e)%Q).
  { rewrite pow2_add, <- pow2_inject by lia.
    apply Qmult_le_compat_r; [|apply Qlt_le_weak, pow2_gt0].
    now rewrite <- Zle_Qle. }
  assert (Q2 : (pow2 (Zdigits2 m - 1 + e) < pow2 k)%Q) by lra.
  unfold pow2 in Q2. apply Qpower_lt_compat_l_inv in Q2; [lia | reflexivity].
Qed.

Lemma binary_round_nonneg (m : positive) (e : Z) :
  SF_nonneg (binary_round prec emax false m e) = true.
Proof.
  unfold binary_round.
  destruct (shl_align m e (fexp prec emax (Z.pos (digits2_pos m) + e))) as [mz ez].
  destruct (binary_round_aux_shape false (Z.pos mz) ez loc_Exact ltac:(lia))
    as (m2 & m3 & e3 & _ & _ & M3 & _ & -> & _).
  now apply pack_nonneg.
Qed.

Lemma binary_round_value (m : positive) (e k : Z) :
  (inject_Z (Z.pos m) * pow2 e < pow2 k)%Q -> k <= 1023 ->
  let r := binary_round prec emax false m e in
  let E := Z.max (k - 53) (-1074) in
  SF_finite r = true /\ SF_nonneg r = true
  /\ (SF_value r - inject_Z (Z.pos m) * pow2 e <= pow2 E)%Q
  /\ (inject_Z (Z.pos m) * pow2 e - SF_value r <= pow2 E)%Q.
Proof.
  intros H K r E. unfold r, binary_round.
  pose proof (shl_align_spec m e (fexp prec emax (Z.pos (digits2_pos m) + e))) as [S1 S2].
  destruct (shl_align m e (fexp prec emax (Z.pos (digits2_pos m) + e))) as [mz ez].
  cbn [fst snd] in S1, S2. rewrite fexp_eq in S1, S2. rewrite <- S1 in S2.
  pose proof (digits_below (Z.pos m) e k ltac:(lia) H) as D. cbn [Zdigits2] in D.
  assert (V : (inject_Z (Z.pos mz) * pow2 ez == inject_Z (Z.pos m) * pow2 e)%Q).
  { rewrite S2, inject_Z_mult, pow2_inject by lia.
    rewrite <- Qmult_assoc, <- pow2_add.
    replace (e - ez + ez) with e by lia. reflexivity. }
  destruct (binary_round_aux_value (Z.pos mz) ez loc_Exact
              (inject_Z (Z.pos m) * pow2 e) k) as (F & N & B1 & B2 & _);
    try lia.
  - rewrite V. lra.
  - rewrite <- V. pose proof (pow2_gt0 ez). nra.
  - exact H.
  - replace (Z.max ez (Z.max (k - 53) (-1074))) with E in B1, B2 by (unfold E; lia).
    repeat split; assumption.
Qed.

Lemma SF_value_finite (m : positive) (e : Z) :
  (SF_value (S754_finite false m e) == inject_Z (Z.pos m) * pow2 e)%Q.
Proof. reflexivity. Qed.

Lemma SFadd_nonneg (x y : spec_float) :
  SF_nonneg x = true -> SF_nonneg y = true -> SF_nonneg (SFadd prec emax x y) = true.
Proof.
  destruct x as [[]|[]| |[] mx ex], y as [[]|[]| |[] my ey]; try discriminate;
    try reflexivity.
  intros _ _. unfold SFadd. cbn [cond_Zopp].
  match goal with |- context [binary_normalize _ _ (Z.pos ?a + Z.pos ?b) _ _] =>
    change (Z.pos a + Z.pos b) with (Z.pos (a + b)) end.
  cbn [binary_normalize]. apply binary_round_nonneg.
Qed.

Lemma SFadd_value (x y : spec_float) (k : Z) :
  SF_finite x = true -> SF_nonneg x = true ->
  SF_finite y = true -> SF_nonneg y = true ->
  (SF_value x + SF_value y < pow2 k)%Q -> k <= 1023 ->
  let r := SFadd prec emax x y in
  let E := Z.max (k - 53) (-1074) in
  SF_finite r = true /\ SF_nonneg r = true
  /\ (SF_value r - (SF_value x + SF_value y) <= pow2 E)%Q
  /\ ((SF_value x + SF_value y) - SF_value r <= pow2 E)%Q.
Proof.
  intros Fx Nx Fy Ny H K r E. pose proof (pow2_gt0 E) as PE.
  destruct x as [[]|[]| |[] mx ex], y as [[]|[]| |[] my ey]; try discriminate;
    unfold r; cbn [SFadd].
  - repeat split; cbn [SF_value]; lra.
  - repeat split; cbn [SF_value]; lra.
  - repeat split; cbn [SF_value]; lra.
  - cbn [cond_Zopp].
    pose proof (shl_align_spec mx ex (Z.min ex ey)) as [_ Sx].
    pose proof (shl_align_spec my ey (Z.min ex ey)) as [_ Sy].
    replace (Z.min ex (Z.min ex ey)) with (Z.min ex ey) in Sx by lia.
    replace (Z.min ey (Z.min ex ey)) with (Z.min ex ey) in Sy by lia.
    set (ez := Z.min ex ey) in *.
    match goal with |- context [binary_normalize _ _ (Z.pos ?a + Z.pos ?b) _ _] =>
      change (Z.pos a + Z.pos b) with (Z.pos (a + b));
      assert (V : (inject_Z (Z.pos (a + b)) * pow2 ez
                   == SF_value (S754_finite false mx ex)
                      + SF_value (S754_finite false my ey))%Q)
    end.
    { rewrite Pos2Z.inj_add, inject_Z_plus, Sx, Sy, !inject_Z_mult.
      rewrite !pow2_inject by (unfold ez; lia).
      rewrite !SF_value_finite.
      rewrite (Qmult_plus_distr_l), <- !Qmult_assoc, <- !pow2_add.
      replace (ex - ez + ez) with ex by lia. replace (ey - ez + ez) with ey by lia.
      reflexivity. }
    cbn [binary_normalize].
    match goal with |- context [binary_round _ _ false ?m ?e] =>
      destruct (binary_round_value m e k) as (F & N & B1 & B2); [rewrite V; exact H | exact K |]
    end.
    rewrite V in B1, B2. repeat split; assumption.
Qed.

Lemma valid_exponent_bound (s : bool) (m : positive) (e k : Z) :
  SpecFloat.valid_binary prec emax (S754_finite s m e) = true ->
  (inject_Z (Z.pos m) * pow2 e < pow2 k)%Q ->
  e <= Z.max (k - 53) (-1074).
Proof.
  cbn [SpecFloat.valid_binary]. unfold bounded, canonical_mantissa. intros V H.
  apply andb_true_iff in V as [V _]. apply Z.eqb_eq in V. rewrite fexp_eq in V.
  pose proof (digits_below (Z.pos m) e k ltac:(lia) H) as D. cbn [Zdigits2] in D. lia.
Qed.

Lemma SFmul_nonneg (x : spec_float) (my : positive) (ey : Z) :
  SF_nonneg x = true ->
  SF_nonneg (SFmul prec emax x (S754_finite false my ey)) = true.
Proof.
  destruct x as [[]|[]| |[] mx ex]; try discriminate; try reflexivity.
  intros _. cbn [SFmul xorb].
  destruct (binary_round_aux_shape false (Z.pos (mx * my)) (ex + ey) loc_Exact ltac:(lia))
    as (m2 & m3 & e3 & _ & _ & M3 & _ & -> & _).
  now apply pack_nonneg.
Qed.

Lemma SFmul_value (x : spec_float) (my : positive) (ey k : Z) :
  SF_finite x = true -> SF_nonneg x = true ->
  (forall m e, x = S754_finite false m e -> e + ey <= Z.max (k - 53) (-1074)) ->
  (SF_value x * (inject_Z (Z.pos my) * pow2 ey) < pow2 k)%Q -> k <= 1023 ->
  let r := SFmul prec emax x (S754_finite false my ey) in
  let E := Z.max (k - 53) (-1074) in
  SF_finite r = true /\ SF_nonneg r = true
  /\ (SF_value r - SF_value x * (inject_Z (Z.pos my) * pow2 ey) <= pow2 E)%Q
  /\ (SF_value x * (inject_Z (Z.pos my) * pow2 ey) - SF_value r <= pow2 E)%Q.
Proof.
  intros Fx Nx He H K r E. pose proof (pow2_gt0 E) as PE.
  destruct x as [[]|[]| |[] mx ex]; try discriminate; unfold r; cbn [SFmul xorb].
  - repeat split; cbn [SF_value]; lra.
  - specialize (He mx ex eq_refl).
    assert (V : (inject_Z (Z.pos (mx * my)) * pow2 (ex + ey)
                 == SF_value (S754_finite false mx ex) * (inject_Z (Z.pos my) * pow2 ey))%Q).
    { rewrite Pos2Z.inj_mul, inject_Z_mult, pow2_add, SF_value_finite. ring. }
    destruct (binary_round_aux_value (Z.pos (mx * my)) (ex + ey) loc_Exact
                (SF_value (S754_finite false mx ex) * (inject_Z (Z.pos my) * pow2 ey)) k)
      as (F & N & B1 & B2 & _); try lia.
    + rewrite V. lra.
    + rewrite <- V. pose proof (pow2_gt0 (ex + ey)). nra.
    + exact H.
    + replace (Z.max (ex + ey) (Z.max (k - 53) (-1074))) with E in B1, B2
        by (unfold E; lia).
      repeat split; assumption.
Qed.

Lemma SF_of_ratio_value (p q k : Z) :
  0 <= p -> 0 < q -> (inject_Z p / inject_Z q < pow2 k)%Q -> k <= 1023 ->
  let r := PyFloat.SF_of_ratio p q in
  let E := Z.max (k - 53) (-1074) in
  SF_finite r = true
  /\ (SF_value r - inject_Z p / inject_Z q <= pow2 E)%Q
  /\ (inject_Z p / inject_Z q - SF_value r <= pow2 E)%Q.
Proof.
  intros Hp Hq H K r E. pose proof (pow2_gt0 E) as PE.
  assert (Qq : (0 < inject_Z q)%Q) by (change 0%Q with (inject_Z 0); now rewrite <- Zlt_Qlt).
  unfold r, PyFloat.SF_of_ratio.
  destruct (div_core_spec p q Hp Hq) as (l & -> & Z0).
  destruct (Z.eq_dec p 0) as [->|Np].
  - rewrite (Z0 eq_refl), Z.mul_0_l, Z.div_0_l by lia.
    rewrite binary_round_aux_zero by lia. cbn [SF_finite SF_value].
    change (inject_Z 0) with 0%Q. unfold Qdiv. rewrite Qmult_0_l.
    repeat split; lra.
  - clear Z0. set (e' := Z.min (Z.max (Zdigits2 p - Zdigits2 q - 53) (-1074)) 0).
    set (m := p * 2 ^ (- e') / q).
    assert (S : 0 <= - e') by (unfold e'; lia).
    assert (P2 : 0 < 2 ^ (- e')) by (apply pow2_pos; lia).
    assert (M0 : 0 <= m) by (unfold m; apply Z.div_pos; nia).
    set (x := (inject_Z p / inject_Z q)%Q) in *.
    assert (Xq : (x * inject_Z q == inject_Z p)%Q).
    { unfold x. field. lra. }
    assert (I : (pow2 e' * pow2 (- e') == 1)%Q).
    { rewrite <- pow2_add. replace (e' + - e') with 0 by lia. reflexivity. }
    pose proof (pow2_gt0 e') as Pe. pose proof (pow2_gt0 (- e')) as Ps.
    (* the quotient brackets the ratio *)
    assert (B1 : (inject_Z m * pow2 e' <= x)%Q).
    { pose proof (Z.mul_div_le (p * 2 ^ (- e')) q Hq) as L. fold m in L.
      assert (L' : (inject_Z q * inject_Z m <= inject_Z p * pow2 (- e'))%Q).
      { rewrite <- pow2_inject, <- !inject_Z_mult by lia. now rewrite <- Zle_Qle. }
      rewrite <- Xq in L'.
      assert (inject_Z m <= x * pow2 (- e'))%Q by nra.
      assert (inject_Z m * pow2 e' <= x * (pow2 e' * pow2 (- e')))%Q by nra.
      rewrite I in *. lra. }
    assert (B2 : (x <= (inject_Z m + 1) * pow2 e')%Q).
    { pose proof (Z.mul_succ_div_gt (p * 2 ^ (- e')) q Hq) as U. fold m in U.
      assert (U' : (inject_Z p * pow2 (- e') <= inject_Z q * (inject_Z m + 1))%Q).
      { rewrite <- pow2_inject by lia. change 1%Q with (inject_Z 1).
        rewrite <- inject_Z_plus, <- !inject_Z_mult. rewrite <- Zle_Qle. lia. }
      rewrite <- Xq in U'.
      assert (x * pow2 (- e') <= inject_Z m + 1)%Q by nra.
      assert (x * (pow2 e' * pow2 (- e')) <= (inject_Z m + 1) * pow2 e')%Q by nra.
      rewrite I in *. lra. }
    (* the magnitude bounds the exponent kept *)
    assert (Ek : e' <= Z.max (k - 53) (-1074)).
    { assert (Pp : 0 < p) by lia.
      pose proof (Zdigits2_bounds p Pp) as [Lp _].
      pose proof (Zdigits2_bounds q Hq) as [_ Uq].
      pose proof (Zdigits2_pos p Pp) as Dp. pose proof (Zdigits2_pos q Hq) as Dq.
      assert (Lp' : (pow2 (Zdigits2 p - 1) <= inject_Z p)%Q).
      { rewrite <- pow2_inject by lia. now rewrite <- Zle_Qle. }
      assert (Uq' : (inject_Z q < pow2 (Zdigits2 q))%Q).
      { rewrite <- pow2_inject by lia. now rewrite <- Zlt_Qlt. }
      assert (A : (pow2 (Zdigits2 p - 1 - Zdigits2 q) * pow2 (Zdigits2 q)
                   == pow2 (Zdigits2 p - 1))%Q).
      { rewrite <- pow2_add. now replace (Zdigits2 p - 1 - Zdigits2 q + Zdigits2 q)
          with (Zdigits2 p - 1) by lia. }
      pose proof (pow2_gt0 (Zdigits2 p - 1 - Zdigits2 q)) as Pd.
      assert (C : (pow2 (Zdigits2 p - 1 - Zdigits2 q) < pow2 k)%Q).
      { assert (pow2 (Zdigits2 p - 1 - Zdigits2 q) * inject_Z q < x * inject_Z q)%Q.
        { rewrite Xq. nra. }
        assert (pow2 (Zdigits2 p - 1 - Zdigits2 q) < x)%Q by nra. lra. }
      unfold pow2 in C. apply Qpower_lt_compat_l_inv in C; [|reflexivity].
      unfold e'. lia. }
    destruct (binary_round_aux_value m e' l x k M0 B1 B2 H K ltac:(unfold e'; lia))
      as (F & _ & C1 & C2 & _).
    replace (Z.max e' (Z.max (k - 53) (-1074))) with E in C1, C2 by (unfold E; lia).
    repeat split; assumption.
Qed.

(** ** Binary64 arithmetic of the script *)

Lemma digits_value_app (a b : string) :
  forall acc, PyFloat.digits_value acc (a ++ b)
              = PyFloat.digits_value (PyFloat.digits_value acc a) b.
Proof. induction a as [|c a IH]; intros acc; simpl; [reflexivity | apply IH]. Qed.

Lemma digits_value_bounds (s : string) :
  all_chars is_digit s = true ->
  forall acc, 0 <= acc ->
  acc * 10 ^ Z.of_nat (String.length s) <= PyFloat.digits_value acc s
  /\ PyFloat.digits_value acc s < (acc + 1) * 10 ^ Z.of_nat (String.length s).
Proof.
  induction s as [|c s IH]; intros H acc A.
  - simpl. lia.
  - cbn [all_chars] in H. apply andb_true_iff in H as [H1 H2].
    apply digit_facts in H1. destruct H1 as (_ & _ & _ & _ & _ & _ & _ & _ & _ & _ & _ & _ & D).
    cbn [PyFloat.digits_value String.length].
    rewrite Nat2Z.inj_succ, Z.pow_succ_r by lia.
    destruct (IH H2 (10 * acc + digit_value c) ltac:(lia)) as [L U].
    assert (P : 0 < 10 ^ Z.of_nat (String.length s)) by (apply Z.pow_pos_nonneg; lia).
    split; nia.
Qed.

Lemma read_number_spec (ip : string) (fp : option string) :
  all_chars is_digit ip = true -> all_chars is_digit (fraction fp) = true ->
  let d := PyFloat.digits_value 0 (ip ++ fraction fp) in
  let n := Z.of_nat (String.length (fraction fp)) in
  0 <= d /\ 0 < 10 ^ n
  /\ Prim2SF (read_number ip fp) = PyFloat.SF_of_ratio d (10 ^ n)
  /\ SF_nonneg (PyFloat.SF_of_ratio d (10 ^ n)) = true.
Proof.
  intros A F d n.
  assert (D : 0 <= d).
  { unfold d.
    destruct (digits_value_bounds (ip ++ fraction fp)
                ltac:(now rewrite all_chars_app, A, F) 0 ltac:(lia)) as [L _].
    lia. }
  assert (P : 0 < 10 ^ n) by (apply Z.pow_pos_nonneg; lia).
  destruct (SF_of_ratio_valid d (10 ^ n) D P) as [V N].
  split; [exact D|]. split; [exact P|]. split; [|exact N].
  unfold read_number, PyFloat.decimal_to_float. fold d. fold n.
  replace (Z.max (- n) 0) with 0 by lia.
  replace (Z.max (- - n) 0) with n by lia.
  rewrite Z.pow_0_r, Z.mul_1_r. now apply Prim2SF_SF2Prim.
Qed.

Lemma nonneg_read_number (ip : string) (fp : option string) :
  all_chars is_digit ip = true -> all_chars is_digit (fraction fp) = true ->
  nonneg (read_number ip fp) = true.
Proof.
  intros A F. destruct (read_number_spec ip fp A F) as (_ & _ & E & N).
  unfold nonneg. now rewrite E.
Qed.

Lemma nonneg_add (x y : float) :
  nonneg x = true -> nonneg y = true -> nonneg (x + y) = true.
Proof. unfold nonneg. rewrite add_spec. apply SFadd_nonneg. Qed.

Lemma nonneg_mul (x c : float) (mc : positive) (ec : Z) :
  Prim2SF c = S754_finite false mc ec ->
  nonneg x = true -> nonneg (x * c) = true.
Proof. unfold nonneg. rewrite mul_spec. intros ->. apply SFmul_nonneg. Qed.

Lemma nonneg_leb (x : float) : nonneg x = true -> (0 <=? x)%float = true.
Proof.
  unfold nonneg. rewrite leb_spec.
  change (Prim2SF 0) with (S754_zero false).
  destruct (Prim2SF x) as [[]|[]| |[] m e]; try discriminate; reflexivity.
Qed.

(** ** What the time pattern can capture *)

Ltac inv H := inversion H; clear H; subst.

Lemma matches_plus_chr (p : ascii -> bool) (s s' : string) (g g' : Re.groups) :
  Re.matches (Re.plus (Re.Chr p)) s g s' g' ->
  exists run, s = run ++ s' /\ run <> "" /\ all_chars p run = true /\ g' = g.
Proof.
  unfold Re.plus. intros M. inv M.
  match goal with H : Re.matches (Re.Chr _) _ _ _ _ |- _ => inv H end.
  match goal with H : Re.matches (Re.Star _) _ _ _ _ |- _ =>
    apply matches_star_chr in H as (run & -> & A & ->) end.
  match goal with P : p ?c = true |- _ =>
    exists (String c run); simpl; rewrite P, A end.
  repeat split. discriminate.
Qed.

Lemma matches_digit_group (i : nat) (s s' : string) (g g' : Re.groups) :
  Re.matches (Re.Group i (Re.plus Re.digit)) s g s' g' ->
  exists ds, digits ds = true /\ g' = (i, ds) :: g.
Proof.
  intros M. inv M.
  match goal with H : Re.matches (Re.plus _) _ _ _ _ |- _ =>
    apply matches_plus_chr in H as (run & -> & N & A & ->) end.
  exists run. rewrite take_consumed. split; [|reflexivity].
  unfold digits. rewrite A. destruct run; [contradiction | reflexivity].
Qed.

Lemma matches_seconds_group (s s' : string) (g g' : Re.groups) :
  Re.matches
    (Re.Group 3
       (Re.Cat (Re.plus Re.digit)
          (Re.Opt (Re.Cat (Re.Chr (Ascii.eqb ".")) (Re.plus Re.digit)))))
    s g s' g' ->
  exists ds f, seconds_ok (Some (ds, f)) = true /\ g' = (3%nat, written ds f) :: g.
Proof.
  intros M. inv M.
  match goal with H : Re.matches (Re.Cat _ _) _ _ _ _ |- _ => inv H end.
  match goal with H : Re.matches (Re.plus _) _ _ _ _ |- _ =>
    apply matches_plus_chr in H as (run & -> & N & A & ->) end.
  assert (D : digits run = true).
  { unfold digits. rewrite A. destruct run; [contradiction | reflexivity]. }
  match goal with H : Re.matches (Re.Opt _) _ _ _ _ |- _ => inv H end.
  - match goal with H : Re.matches (Re.Cat _ _) _ _ _ _ |- _ => inv H end.
    match goal with H : Re.matches (Re.Chr _) _ _ _ _ |- _ => inv H end.
    match goal with P : Ascii.eqb _ _ = true |- _ => apply Ascii.eqb_eq in P; subst end.
    match goal with H : Re.matches (Re.plus _) _ _ _ _ |- _ =>
      apply matches_plus_chr in H as (fr & -> & Nf & Af & ->) end.
    exists run, (Some fr). split.
    + cbn [seconds_ok]. rewrite D. unfold digits. rewrite Af.
      destruct fr; [contradiction | reflexivity].
    + f_equal. f_equal. cbn [written].
      rewrite <- (take_consumed (run ++ String "." fr) s').
      rewrite app_assoc_string. reflexivity.
  - exists run, None. split; [exact D|]. now rewrite take_consumed.
Qed.

(** Every group that [hms_pattern] sets holds a number. *)
Lemma hms_groups_numeric (s : string) (g : Re.groups) :
  Re.match_ hms_pattern s = Some g ->
  forall i v, Re.group g i = Some v -> numeric v.
Proof.
  intros H. apply match_sound in H as (s' & M).
  assert (U : forall i u s0 g0 s1 g1,
             Re.matches (hm_unit i u) s0 g0 s1 g1 ->
             g1 = g0 \/ exists ds, digits ds = true /\ g1 = (i, ds) :: g0).
  { intros i u s0 g0 s1 g1 X. unfold hm_unit in X.
    inv X; [|now left].
    match goal with Y : Re.matches (Re.Cat _ _) _ _ _ _ |- _ => inv Y end.
    match goal with Y : Re.matches (Re.Group _ _) _ _ _ _ |- _ =>
      apply matches_digit_group in Y as (ds & D & ->) end.
    match goal with Y : Re.matches (Re.Chr _) _ _ _ _ |- _ => inv Y end.
    right. now exists ds. }
  assert (S3 : forall s0 g0 s1 g1,
             Re.matches seconds_unit s0 g0 s1 g1 ->
             g1 = g0 \/ exists ds f, seconds_ok (Some (ds, f)) = true
                                     /\ g1 = (3%nat, written ds f) :: g0).
  { intros s0 g0 s1 g1 X. unfold seconds_unit in X.
    inv X; [|now left].
    match goal with Y : Re.matches (Re.Cat _ _) _ _ _ _ |- _ => inv Y end.
    match goal with Y : Re.matches (Re.Group _ _) _ _ _ _ |- _ =>
      apply matches_seconds_group in Y as (ds & f & OK & ->) end.
    match goal with Y : Re.matches (Re.Chr _) _ _ _ _ |- _ => inv Y end.
    right. now exists ds, f. }
  unfold hms_pattern in M. inv M.
  match goal with Y : Re.matches (Re.Cat _ _) _ _ _ _ |- _ => inv Y end.
  match goal with
  | M1 : Re.matches (hm_unit 1 _) _ _ _ _, M2 : Re.matches (hm_unit 2 _) _ _ _ _,
    M3 : Re.matches seconds_unit _ _ _ _ |- _ =>
      apply U in M1; apply U in M2; apply S3 in M3; rename M1 into X1;
      rename M2 into X2; rename M3 into X3
  end.
  assert (Nd : forall ds, digits ds = true -> numeric ds).
  { intros ds D. exists ds, None. now repeat split. }
  assert (Ns : forall ds f, seconds_ok (Some (ds, f)) = true -> numeric (written ds f)).
  { intros ds f OK. exists ds, f. split; [reflexivity|].
    destruct f as [fr|]; cbn [seconds_ok fraction] in *; [|now split].
    apply andb_true_iff in OK as [D F]. split; [exact D | now apply digits_all]. }
  intros i v G.
  destruct X1 as [->|(d1 & D1 & ->)], X2 as [->|(d2 & D2 & ->)],
           X3 as [->|(d3 & f3 & D3 & ->)];
    cbn [Re.group] in G;
    repeat match type of G with
      | (if ?b then _ else _) = _ => destruct b
      end;
    try discriminate G; injection G as <-; auto.
Qed.

Lemma component_nonneg (tg : Re.groups) (i : nat) (x : float) :
  (forall j v, Re.group tg j = Some v -> numeric v) ->
  component tg i = Some x -> nonneg x = true.
Proof.
  intros G. unfold component.
  destruct (Re.group tg i) as [v|] eqn:E.
  - destruct (G i v E) as (ds & f & -> & D & F).
    destruct (nonempty (written ds f)).
    + rewrite (of_string_written ds f D F). intros [= <-].
      apply nonneg_read_number; [now apply digits_all | exact F].
    + intros [= <-]. reflexivity.
  - intros [= <-]. reflexivity.
Qed.

Lemma parse_ini_offset_try_nonneg (content : string) (offset : float) :
  parse_ini_offset_try content = Some offset -> nonneg offset = true.
Proof.
  unfold parse_ini_offset_try.
  destruct (Re.search start_time_pattern content) as [g|]; [|intros [= <-]; reflexivity].
  destruct (Re.group g 1) as [v|]; [|discriminate]. cbn [obind].
  destruct (Re.match_ hms_pattern (strip v)) as [tg|] eqn:M;
    [|intros [= <-]; reflexivity].
  pose proof (hms_groups_numeric _ _ M) as G.
  destruct (component tg 1) as [h|] eqn:C1; [|discriminate]. cbn [obind].
  destruct (component tg 2) as [m|] eqn:C2; [|discriminate]. cbn [obind].
  destruct (component tg 3) as [s|] eqn:C3; [|discriminate]. cbn [obind].
  intros [= <-].
  apply component_nonneg in C1, C2, C3; try exact G.
  apply nonneg_add; [apply nonneg_add|]; try assumption.
  - eapply nonneg_mul; [vm_compute; reflexivity | exact C1].
  - eapply nonneg_mul; [vm_compute; reflexivity | exact C2].
Qed.

(** C10. Whatever the sidecar file holds, the offset that
    [parse_ini_offset] returns is not negative (and is not a NaN): it is
    0.0, or a sum of products of numbers read from runs of digits. *)
Theorem parse_ini_offset_nonnegative (sys : system) (ini_filepath : string) :
  (0 <=? parse_ini_offset sys ini_filepath)%float = true.
Proof.
  apply nonneg_leb. unfold parse_ini_offset.
  destruct (read_text sys ini_filepath) as [content|]; [|reflexivity].
  cbn [obind].
  destruct (parse_ini_offset_try content) as [offset|] eqn:E; [|reflexivity].
  now apply parse_ini_offset_try_nonneg in E.
Qed.

(** ** The precision of [time_str_to_seconds] *)

Lemma near_read_number (ip : string) (fp : option string) (k : Z) :
  all_chars is_digit ip = true -> all_chars is_digit (fraction fp) = true ->
  let a := (inject_Z (PyFloat.digits_value 0 (ip ++ fraction fp))
            / inject_Z (10 ^ Z.of_nat (String.length (fraction fp))))%Q in
  (a < pow2 k)%Q -> k <= 1023 ->
  near (read_number ip fp) a (pow2 (Z.max (k - 53) (-1074))).
Proof.
  intros A F a H K. destruct (read_number_spec ip fp A F) as (D & P & E & N).
  destruct (SF_of_ratio_value _ _ k D P H K) as (Fi & B1 & B2).
  unfold near, float_value. rewrite E. repeat split; assumption.
Qed.

Lemma near_add (x y : float) (a b ea eb : Q) (k : Z) :
  near x a ea -> near y b eb ->
  (a + ea + (b + eb) < pow2 k)%Q -> k <= 1023 ->
  near (x + y) (a + b) (ea + eb + pow2 (Z.max (k - 53) (-1074))).
Proof.
  intros (Fx & Nx & X1 & X2) (Fy & Ny & Y1 & Y2) H K.
  unfold float_value in *.
  destruct (SFadd_value (Prim2SF x) (Prim2SF y) k Fx Nx Fy Ny ltac:(lra) K)
    as (F & N & B1 & B2).
  unfold near, float_value. rewrite add_spec. unfold SF64add.
  repeat split; try assumption; lra.
Qed.

Lemma near_nonneg (x : float) (a err : Q) : near x a err -> (0 <= float_value x)%Q.
Proof.
  intros (F & N & _). unfold float_value.
  destruct (Prim2SF x) as [[]|[]| |[] m e]; try discriminate; cbn [SF_value];
    try lra.
  pose proof (pow2_gt0 e). assert (0 < inject_Z (Z.pos m))%Q; [|cbn [cond_Zopp]; nra].
  change 0%Q with (inject_Z 0). now rewrite <- Zlt_Qlt.
Qed.

Lemma near_mul (x c : float) (a ea cv : Q) (mc : positive) (ec kx k : Z) :
  near x a ea ->
  Prim2SF c = S754_finite false mc ec -> (inject_Z (Z.pos mc) * pow2 ec == cv)%Q ->
  (a + ea < pow2 kx)%Q -> Z.max (kx - 53) (-1074) + ec <= Z.max (k - 53) (-1074) ->
  ((a + ea) * cv < pow2 k)%Q -> k <= 1023 ->
  near (x * c) (a * cv) (ea * cv + pow2 (Z.max (k - 53) (-1074))).
Proof.
  intros Nx C Cv Hkx He H K. pose proof (near_nonneg x a ea Nx) as P.
  destruct Nx as (Fx & Nx & X1 & X2). unfold float_value in *.
  assert (Cp : (0 < cv)%Q).
  { rewrite <- Cv. pose proof (pow2_gt0 ec).
    assert (0 < inject_Z (Z.pos mc))%Q; [|nra].
    change 0%Q with (inject_Z 0). now rewrite <- Zlt_Qlt. }
  destruct (SFmul_value (Prim2SF x) mc ec k Fx Nx) as (F & N & B1 & B2).
  - intros m e Eq. pose proof (Prim2SF_valid x) as V. rewrite Eq in V.
    pose proof (valid_exponent_bound false m e kx V) as B.
    rewrite Eq in X1. rewrite SF_value_finite in X1.
    specialize (B ltac:(lra)). lia.
  - rewrite Cv. nra.
  - exact K.
  - unfold near, float_value. rewrite mul_spec, C. unfold SF64mul.
    rewrite Cv in B1, B2.
    repeat split; try assumption; nra.
Qed.

Lemma two_digits_value (s : string) :
  two_digits s = true ->
  digits s = true /\ all_chars is_digit s = true
  /\ 0 <= PyFloat.digits_value 0 s < 100.
Proof.
  unfold two_digits. intros H. apply andb_true_iff in H as [D L].
  apply Nat.eqb_eq in L. pose proof (digits_all s D) as A.
  destruct (digits_value_bounds s A 0 ltac:(lia)) as [Lo Up].
  rewrite L in Lo, Up. repeat split; try assumption; simpl in *; lia.
Qed.

Lemma near_two_digits (s : string) :
  two_digits s = true ->
  near (read_number s None) (inject_Z (PyFloat.digits_value 0 s)) (pow2 (-46)).
Proof.
  intros T. destruct (two_digits_value s T) as (D & A & Lo & Up).
  pose proof (near_read_number s None 7 A eq_refl) as N.
  cbn [fraction String.length Z.of_nat] in N. rewrite app_empty_r in N.
  assert (E : (inject_Z (PyFloat.digits_value 0 s) / inject_Z (10 ^ 0)
               == inject_Z (PyFloat.digits_value 0 s))%Q).
  { change (inject_Z (10 ^ 0)) with 1%Q. field. }
  assert (B : (inject_Z (PyFloat.digits_value 0 s) < 100)%Q).
  { change 100%Q with (inject_Z 100). now rewrite <- Zlt_Qlt. }
  specialize (N ltac:(rewrite E; change (pow2 7) with 128%Q; lra) ltac:(lia)).
  destruct N as (F & Nn & B1 & B2).
  unfold near. rewrite E in B1, B2. repeat split; assumption.
Qed.

Lemma near_seconds (ss f : string) :
  two_digits ss = true -> all_chars is_digit f = true ->
  let a := (inject_Z (PyFloat.digits_value 0 (ss ++ f))
            / inject_Z (10 ^ Z.of_nat (String.length f)))%Q in
  near (read_number ss (Some f)) a (pow2 (-46)) /\ (0 <= a < 100)%Q.
Proof.
  intros T F a. destruct (two_digits_value ss T) as (D & A & Lo & Up).
  assert (P : 0 < 10 ^ Z.of_nat (String.length f)) by (apply Z.pow_pos_nonneg; lia).
  assert (V : 0 <= PyFloat.digits_value 0 (ss ++ f)
              < 100 * 10 ^ Z.of_nat (String.length f)).
  { rewrite digits_value_app.
    destruct (digits_value_bounds f F (PyFloat.digits_value 0 ss) ltac:(lia)) as [L U].
    split; nia. }
  assert (R : (0 <= a < 100)%Q).
  { unfold a. set (d := PyFloat.digits_value 0 (ss ++ f)) in *.
    set (q := 10 ^ Z.of_nat (String.length f)) in *.
    assert (Qp : (0 < inject_Z q)%Q) by (change 0%Q with (inject_Z 0); now rewrite <- Zlt_Qlt).
    assert (D0 : (0 <= inject_Z d)%Q) by (change 0%Q with (inject_Z 0); rewrite <- Zle_Qle; lia).
    assert (D1 : (inject_Z d < 100 * inject_Z q)%Q).
    { change 100%Q with (inject_Z 100). rewrite <- inject_Z_mult, <- Zlt_Qlt. lia. }
    split.
    - apply Qle_shift_div_l; [exact Qp | lra].
    - apply Qlt_shift_div_r; [exact Qp | lra]. }
  split; [|exact R].
  apply (near_read_number ss (Some f) 7 A F); [|lia].
  change (pow2 7) with 128%Q. cbn [fraction]. fold a. lra.
Qed.

(** C2. For a time written [HH:MM:SS.f] with two digits in each of the
    first three fields and digits after the point, [time_str_to_seconds]
    raises nothing and returns a finite binary64 number within one
    millisecond of hours * 3600 + minutes * 60 + seconds computed by hand;
    on 00:14:27.799 it returns the binary64 number nearest to 867.799. *)
Theorem time_str_to_seconds_precision (hh mm ss f : string) :
  two_digits hh = true -> two_digits mm = true -> two_digits ss = true ->
  digits f = true ->
  let time_str := hh ++ ":" ++ mm ++ ":" ++ ss ++ "." ++ f in
  time_str_to_seconds_try time_str = Some (time_str_to_seconds time_str)
  /\ SF_finite (Prim2SF (time_str_to_seconds time_str)) = true
  /\ (Qabs (float_value (time_str_to_seconds time_str) - seconds_by_hand hh mm ss f)
      <= 1 # 1000)%Q
  /\ time_str_to_seconds "00:14:27.799" = 867.799%float.
Proof.
  intros Th Tm Ts Df time_str.
  destruct (two_digits_value hh Th) as (Dh & Ah & Hlo & Hup).
  destruct (two_digits_value mm Tm) as (Dm & Am & Mlo & Mup).
  destruct (two_digits_value ss Ts) as (Ds & As & _).
  pose proof (digits_all f Df) as Af.
  assert (E : time_str_to_seconds_try time_str
              = Some (read_number hh None * 3600 + read_number mm None * 60
                      + read_number ss (Some f))%float).
  { apply (time_str_to_seconds_try_written hh mm ss (Some f)); assumption. }
  unfold time_str_to_seconds. rewrite E.
  split; [reflexivity|].
  (* the numbers read *)
  pose proof (near_two_digits hh Th) as Nh.
  pose proof (near_two_digits mm Tm) as Nm.
  destruct (near_seconds ss f Ts Af) as [Ns Rs].
  set (H := inject_Z (PyFloat.digits_value 0 hh)) in *.
  set (M := inject_Z (PyFloat.digits_value 0 mm)) in *.
  set (S := (inject_Z (PyFloat.digits_value 0 (ss ++ f))
             / inject_Z (10 ^ Z.of_nat (String.length f)))%Q) in *.
  assert (RH : (0 <= H < 100)%Q).
  { unfold H. change 0%Q with (inject_Z 0). change 100%Q with (inject_Z 100).
    rewrite <- Zle_Qle, <- Zlt_Qlt. lia. }
  assert (RM : (0 <= M < 100)%Q).
  { unfold M. change 0%Q with (inject_Z 0). change 100%Q with (inject_Z 100).
    rewrite <- Zle_Qle, <- Zlt_Qlt. lia. }
  assert (P46 : (pow2 (-46) == 1 # 70368744177664)%Q) by reflexivity.
  assert (P34 : (pow2 (-34) == 1 # 17179869184)%Q) by reflexivity.
  assert (P40 : (pow2 (-40) == 1 # 1099511627776)%Q) by reflexivity.
  (* hours * 3600 *)
  assert (N1 : near (read_number hh None * 3600) (H * 3600)
                 (pow2 (-46) * 3600 + pow2 (-34))).
  { apply (near_mul _ _ H (pow2 (-46)) 3600 7916483719987200 (-41) 7 19 Nh);
      [reflexivity | reflexivity | change (pow2 7) with 128%Q; lra | lia
      | change (pow2 19) with 524288%Q; lra | lia]. }
  (* minutes * 60 *)
  assert (N2 : near (read_number mm None * 60) (M * 60)
                 (pow2 (-46) * 60 + pow2 (-40))).
  { apply (near_mul _ _ M (pow2 (-46)) 60 8444249301319680 (-47) 7 13 Nm);
      [reflexivity | reflexivity | change (pow2 7) with 128%Q; lra | lia
      | change (pow2 13) with 8192%Q; lra | lia]. }
  pose proof (near_add _ _ _ _ _ _ 19 N1 N2
                ltac:(change (pow2 19) with 524288%Q; lra) ltac:(lia)) as N3.
  change (Z.max (19 - 53) (-1074)) with (-34) in N3.
  pose proof (near_add _ _ _ _ _ _ 19 N3 Ns
                ltac:(change (pow2 19) with 524288%Q; lra) ltac:(lia)) as N4.
  change (Z.max (19 - 53) (-1074)) with (-34) in N4.
  destruct N4 as (F4 & _ & B1 & B2).
  split; [exact F4|]. split; [|vm_compute; reflexivity].
  apply Qabs_Qle_condition. unfold seconds_by_hand. fold H M S. split; lra.
Qed.

Lemma time_str_to_seconds_precision_witness :
  time_str_to_seconds "01:02:03.25" = 3723.25%float
  /\ (Qabs (float_value (time_str_to_seconds "01:02:03.25")
            - seconds_by_hand "01" "02" "03" "25") <= 1 # 1000)%Q.
Proof.
  split; [vm_compute; reflexivity|].
  exact (proj1 (proj2 (proj2 (time_str_to_seconds_precision "01" "02" "03" "25"
                                eq_refl eq_refl eq_refl eq_refl)))).
Defined.

(** ** The locators beyond the environment variable *)

(** X1. When [FFMPEG_PATH] is unset, empty, or leads to no existing file,
    [find_ffmpeg] returns the executable of the bundled [bin] folder if it
    exists there, whatever the search path holds. *)
Theorem find_ffmpeg_bundled_before_search_path (sys : system) :
  (forall env_path, getenv sys "FFMPEG_PATH" = Some env_path -> env_path <> "" ->
     isfile sys (if isdir sys env_path
                 then path_join sys env_path (exe sys "ffmpeg") else env_path) = false) ->
  isfile sys (path_join sys (path_join sys (base_dir sys) "bin") (exe sys "ffmpeg")) = true ->
  find_ffmpeg sys
  = Some (path_join sys (path_join sys (base_dir sys) "bin") (exe sys "ffmpeg")).
Proof.
  intros E B. unfold find_ffmpeg.
  destruct (getenv sys "FFMPEG_PATH") as [env_path|] eqn:G.
  - unfold nonempty. destruct (String.eqb env_path "") eqn:N; cbn [negb].
    + now rewrite B.
    + apply String.eqb_neq in N. rewrite (E env_path eq_refl N). now rewrite B.
  - now rewrite B.
Qed.

Lemma find_ffmpeg_bundled_before_search_path_witness :
  let sys := machine (Some "/opt/ff") ["/app/bin/ffmpeg"; "/usr/bin/ffmpeg"] ["ffmpeg"; "ffprobe"]
               None None [] in
  which sys "ffmpeg" = Some "/usr/bin/ffmpeg"
  /\ find_ffmpeg sys = Some "/app/bin/ffmpeg".
Proof.
  split; [reflexivity|].
  apply (find_ffmpeg_bundled_before_search_path
           (machine (Some "/opt/ff") ["/app/bin/ffmpeg"; "/usr/bin/ffmpeg"] ["ffmpeg"; "ffprobe"]
              None None [])).
  - intros env_path G _. cbn in G. injection G as <-. reflexivity.
  - reflexivity.
Defined.

(** X2. A path returned by [find_ffmpeg] is an existing file or the answer
    of the search path; a path returned by [find_ffprobe] is an existing
    file beside the ffmpeg that [find_ffmpeg] returns, or the answer of the
    search path. Nothing else is ever returned. *)
Theorem locators_return_checked_paths (sys : system) (p : string) :
  (find_ffmpeg sys = Some p -> isfile sys p = true \/ which sys "ffmpeg" = Some p)
  /\ (find_ffprobe sys = Some p ->
      (exists ffmpeg_exec,
         find_ffmpeg sys = Some ffmpeg_exec
         /\ p = path_join sys (dirname sys ffmpeg_exec) (exe sys "ffprobe")
         /\ isfile sys p = true)
      \/ which sys "ffprobe" = Some p).
Proof.
  split.
  - unfold find_ffmpeg.
    destruct (getenv sys "FFMPEG_PATH") as [env_path|].
    + destruct (nonempty env_path).
      * destruct (isfile sys (if isdir sys env_path then _ else _)) eqn:F.
        -- intros H. injection H as <-. now left.
        -- destruct (isfile sys (path_join sys (path_join sys _ _) _)) eqn:B.
           ++ intros H. injection H as <-. now left.
           ++ destruct (which sys "ffmpeg") as [w|]; [|discriminate].
              destruct (nonempty w); [|discriminate]. intros H. injection H as <-. now right.
      * destruct (isfile sys (path_join sys (path_join sys _ _) _)) eqn:B.
        -- intros H. injection H as <-. now left.
        -- destruct (which sys "ffmpeg") as [w|]; [|discriminate].
           destruct (nonempty w); [|discriminate]. intros H. injection H as <-. now right.
    + destruct (isfile sys (path_join sys (path_join sys _ _) _)) eqn:B.
      * intros H. injection H as <-. now left.
      * destruct (which sys "ffmpeg") as [w|]; [|discriminate].
        destruct (nonempty w); [|discriminate]. intros H. injection H as <-. now right.
  - unfold find_ffprobe.
    destruct (find_ffmpeg sys) as [f|].
    + destruct (nonempty f).
      * destruct (isfile sys (path_join sys (dirname sys f) _)) eqn:F.
        -- intros H. injection H as <-. left. exists f. auto.
        -- destruct (which sys "ffprobe") as [w|]; [|discriminate].
           destruct (nonempty w); [|discriminate]. intros H. injection H as <-. now right.
      * destruct (which sys "ffprobe") as [w|]; [|discriminate].
        destruct (nonempty w); [|discriminate]. intros H. injection H as <-. now right.
    + destruct (which sys "ffprobe") as [w|]; [|discriminate].
      destruct (nonempty w); [|discriminate]. intros H. injection H as <-. now right.
Qed.

(** X3. When [FFMPEG_PATH] names a folder that holds both executables,
    ffmpeg and ffprobe are both taken from that folder, whatever the
    bundled folder and the search path hold. *)
Theorem both_executables_from_environment_folder (sys : system) (folder : string) :
  getenv sys "FFMPEG_PATH" = Some folder -> folder <> "" ->
  isdir sys folder = true ->
  isfile sys (path_join sys folder (exe sys "ffmpeg")) = true ->
  isfile sys (path_join sys folder (exe sys "ffprobe")) = true ->
  path_join sys folder (exe sys "ffmpeg") <> "" ->
  dirname sys (path_join sys folder (exe sys "ffmpeg")) = folder ->
  find_ffmpeg sys = Some (path_join sys folder (exe sys "ffmpeg"))
  /\ find_ffprobe sys = Some (path_join sys folder (exe sys "ffprobe")).
Proof.
  intros G N D F1 F2 NE DN.
  assert (E : find_ffmpeg sys = Some (path_join sys folder (exe sys "ffmpeg"))).
  { unfold find_ffmpeg. rewrite G. unfold nonempty.
    apply String.eqb_neq in N. rewrite N. cbn [negb]. rewrite D, F1. reflexivity. }
  split; [exact E|].
  unfold find_ffprobe. rewrite E. unfold nonempty.
  apply String.eqb_neq in NE. rewrite NE. cbn [negb]. rewrite DN, F2. reflexivity.
Qed.

Lemma both_executables_from_environment_folder_witness :
  let sys := machine (Some "/opt/ff")
               ["/opt/ff/ffmpeg"; "/opt/ff/ffprobe"; "/app/bin/ffmpeg"; "/app/bin/ffprobe"]
               ["ffmpeg"; "ffprobe"] None None [] in
  find_ffmpeg sys = Some "/opt/ff/ffmpeg" /\ find_ffprobe sys = Some "/opt/ff/ffprobe".
Proof.
  apply (both_executables_from_environment_folder
           (machine (Some "/opt/ff")
              ["/opt/ff/ffmpeg"; "/opt/ff/ffprobe"; "/app/bin/ffmpeg"; "/app/bin/ffprobe"]
              ["ffmpeg"; "ffprobe"] None None []) "/opt/ff");
    try reflexivity; discriminate.
Defined.

(** X4. When [FFMPEG_PATH] leads to no file, the bundled folder holds no
    ffmpeg and the search path finds none, [find_ffmpeg] returns nothing
    and the run stops with the ffmpeg message before anything is printed,
    even though [find_ffprobe] still finds ffprobe on the search path. *)
Theorem ffprobe_alone_is_not_enough (sys : system) (video ffprobe : string) (d t : float) :
  (forall env_path, getenv sys "FFMPEG_PATH" = Some env_path -> env_path <> "" ->
     isfile sys (if isdir sys env_path
                 then path_join sys env_path (exe sys "ffmpeg") else env_path) = false) ->
  isfile sys (path_join sys (path_join sys (base_dir sys) "bin") (exe sys "ffmpeg")) = false ->
  (forall p, which sys "ffmpeg" = Some p -> p = "") ->
  which sys "ffprobe" = Some ffprobe -> ffprobe <> "" ->
  find_ffmpeg sys = None
  /\ find_ffprobe sys = Some ffprobe
  /\ main sys video d t = ([], Fatal ffmpeg_missing).
Proof.
  intros E B P W N.
  assert (F : find_ffmpeg sys = None).
  { unfold find_ffmpeg.
    assert (X : match getenv sys "FFMPEG_PATH" with
                | Some env_path =>
                    if nonempty env_path
                    then if isfile sys (if isdir sys env_path
                                        then path_join sys env_path (exe sys "ffmpeg")
                                        else env_path)
                         then Some (if isdir sys env_path
                                    then path_join sys env_path (exe sys "ffmpeg")
                                    else env_path)
                         else None
                    else None
                | None => None
                end = None).
    { destruct (getenv sys "FFMPEG_PATH") as [env_path|]; [|reflexivity].
      unfold nonempty. destruct (String.eqb_spec env_path "") as [->|NE]; [reflexivity|].
      cbn [negb]. now rewrite (E env_path eq_refl NE). }
    rewrite X, B. destruct (which sys "ffmpeg") as [p|]; [|reflexivity].
    now rewrite (P p eq_refl). }
  split; [exact F|]. split.
  - unfold find_ffprobe. rewrite F, W. unfold nonempty.
    apply String.eqb_neq in N. now rewrite N.
  - unfold main. now rewrite F.
Qed.

Lemma ffprobe_alone_is_not_enough_witness :
  let sys := machine (Some "/opt/ff") ["/usr/bin/ffprobe"] ["ffprobe"] None None [] in
  find_ffmpeg sys = None
  /\ find_ffprobe sys = Some "/usr/bin/ffprobe"
  /\ main sys "film.ts" 0.5 0.98 = ([], Fatal ffmpeg_missing).
Proof.
  apply (ffprobe_alone_is_not_enough
           (machine (Some "/opt/ff") ["/usr/bin/ffprobe"] ["ffprobe"] None None [])
           "film.ts" "/usr/bin/ffprobe" 0.5 0.98);
    try reflexivity; try discriminate.
  intros env_path G _. cbn in G. injection G as <-. reflexivity.
Defined.

(** ** The duration probe *)

Lemma lstrip_by_all (p : ascii -> bool) (s : string) :
  all_chars p s = true -> lstrip_by p s = "".
Proof.
  intros A. rewrite <- (app_empty_r s). now rewrite lstrip_by_app.
Qed.

Lemma rstrip_by_all (p : ascii -> bool) (s : string) :
  all_chars p s = true -> rstrip_by p s = "".
Proof.
  induction s as [|c s IH]; simpl; [reflexivity|].
  intros A. apply andb_true_iff in A as [C A]. rewrite (IH A), C. reflexivity.
Qed.

Lemma strip_blank (s : string) : all_chars isspace s = true -> strip s = "".
Proof.
  intros A. unfold strip. now rewrite (lstrip_by_all _ _ A).
Qed.

Lemma written_nonempty (ip : string) (fp : option string) :
  digits ip = true -> written ip fp <> "".
Proof.
  intros D. destruct (digits_inv ip D) as (c & r & -> & _).
  destruct fp; discriminate.
Qed.

Lemma strip_written (ws1 ws2 ip : string) (fp : option string) :
  all_chars isspace ws1 = true -> all_chars isspace ws2 = true ->
  digits ip = true -> all_chars is_digit (fraction fp) = true ->
  strip (ws1 ++ written ip fp ++ ws2) = written ip fp.
Proof.
  intros W1 W2 D F.
  pose proof (written_chars ip fp (digits_all ip D) F) as C.
  assert (NS : all_chars (fun c => negb (isspace c)) (written ip fp) = true).
  { apply (all_chars_weaken digit_or_dot); [|exact C].
    intros c H. now destruct (digit_or_dot_facts c H) as (-> & _). }
  rewrite strip_around.
  - now rewrite (lstrip_by_all _ _ W1), (rstrip_by_all _ _ W2), app_empty_r.
  - destruct (digits_inv ip D) as (c & r & -> & Dc & _).
    destruct fp; simpl; now destruct (digit_facts c Dc) as (-> & _).
  - now apply written_nonempty.
  - now apply strips_nothing.
Qed.

(** X5. [get_video_duration] reads the number ffprobe prints, whatever
    white space (such as the end of line) surrounds it: the result is the
    binary64 number nearest to the decimal text. *)
Theorem get_video_duration_ignores_white_space
    (sys : system) (video ffprobe ws1 ws2 ip : string) (fp : option string) :
  ffprobe_output sys ffprobe video = Some (ws1 ++ written ip fp ++ ws2) ->
  all_chars isspace ws1 = true -> all_chars isspace ws2 = true ->
  digits ip = true -> all_chars is_digit (fraction fp) = true ->
  get_video_duration sys video ffprobe = Some (read_number ip fp).
Proof.
  intros O W1 W2 D F. unfold get_video_duration. rewrite O. cbn [obind].
  rewrite strip_written by assumption. now apply of_string_written.
Qed.

Lemma get_video_duration_ignores_white_space_witness :
  get_video_duration (sample_system sample_stream) "film.ts" "/opt/ff/ffprobe"
  = Some 10%float.
Proof.
  change (Some 10%float) with (Some (read_number "10" (Some "000000"))).
  apply (get_video_duration_ignores_white_space (sample_system sample_stream)
           "film.ts" "/opt/ff/ffprobe" "" (String newline "") "10" (Some "000000"));
    reflexivity.
Defined.

(** X6. When ffprobe cannot be run, or prints nothing but white space, the
    probe is fatal: with both executables found and no sidecar file, [main]
    prints the sidecar notice and exits with the duration message, and the
    detection is never started. *)
Theorem blank_probe_output_is_fatal
    (sys : system) (video ffmpeg ffprobe : string) (d t : float) :
  found (find_ffmpeg sys) = Some ffmpeg ->
  found (find_ffprobe sys) = Some ffprobe ->
  path_exists sys (video ++ ".ini") = false ->
  match ffprobe_output sys ffprobe video with
  | Some output => all_chars isspace output = true
  | None => True
  end ->
  get_video_duration sys video ffprobe = None
  /\ main sys video d t = ([Printed no_ini], Fatal duration_failed).
Proof.
  intros F1 F2 I O.
  assert (G : get_video_duration sys video ffprobe = None).
  { unfold get_video_duration.
    destruct (ffprobe_output sys ffprobe video) as [output|]; [|reflexivity].
    cbn [obind]. now rewrite (strip_blank _ O). }
  split; [exact G|].
  unfold main. rewrite F1, F2, I, G. reflexivity.
Qed.

Lemma blank_probe_output_is_fatal_witness :
  let sys := machine None ["/usr/bin/ffmpeg"; "/usr/bin/ffprobe"] ["ffmpeg"; "ffprobe"]
               (Some (String newline "")) None [Line token] in
  main sys "film.ts" 0.5 0.98 = ([Printed no_ini], Fatal duration_failed).
Proof.
  refine (proj2 (blank_probe_output_is_fatal
                   (machine None ["/usr/bin/ffmpeg"; "/usr/bin/ffprobe"]
                      ["ffmpeg"; "ffprobe"] (Some (String newline "")) None [Line token])
                   "film.ts" "/usr/bin/ffmpeg" "/usr/bin/ffprobe" 0.5 0.98 _ _ _ _));
    reflexivity.
Defined.

(** ** Numbers that are not finite *)

Lemma float_of_SF (x : float) (v : spec_float) : Prim2SF x = v -> x = SF2Prim v.
Proof. intros <-. symmetry. apply SF2Prim_Prim2SF. Qed.

Lemma format_time_full_not_finite (x : float) :
  SF_finite (Prim2SF x) = false -> format_time_full x = None.
Proof.
  destruct (Prim2SF x) as [s|s| |s m e] eqn:E; try discriminate; intros _;
    apply float_of_SF in E; subst x.
  - destruct s; vm_compute; reflexivity.
  - vm_compute; reflexivity.
Qed.

(** X7. [format_time_full] raises on an infinity and on NaN. ffprobe
    printing such a value passes [float] in [get_video_duration], so the
    run then ends in an uncaught exception at the duration banner, not in
    the fatal exit of the probe. *)
Theorem duration_not_finite_crashes
    (sys : system) (video ffmpeg ffprobe : string) (d t x : float) :
  SF_finite (Prim2SF x) = false ->
  format_time_full x = None
  /\ (found (find_ffmpeg sys) = Some ffmpeg ->
      found (find_ffprobe sys) = Some ffprobe ->
      path_exists sys (video ++ ".ini") = false ->
      get_video_duration sys video ffprobe = Some x ->
      main sys video d t = ([Printed no_ini], Crashed)).
Proof.
  intros N. pose proof (format_time_full_not_finite x N) as F.
  split; [exact F|].
  intros F1 F2 I G. unfold main. rewrite F1, F2, I, G, F. reflexivity.
Qed.

Lemma duration_not_finite_crashes_witness :
  let sys := machine None ["/usr/bin/ffmpeg"; "/usr/bin/ffprobe"] ["ffmpeg"; "ffprobe"]
               (Some ("nan" ++ String newline "")) None [Line token] in
  get_video_duration sys "film.ts" "/usr/bin/ffprobe" = Some nan
  /\ main sys "film.ts" 0.5 0.98 = ([Printed no_ini], Crashed).
Proof.
  split; [vm_compute; reflexivity|].
  refine (proj2 (duration_not_finite_crashes
                   (machine None ["/usr/bin/ffmpeg"; "/usr/bin/ffprobe"]
                      ["ffmpeg"; "ffprobe"] (Some ("nan" ++ String newline "")) None
                      [Line token])
                   "film.ts" "/usr/bin/ffmpeg" "/usr/bin/ffprobe" 0.5 0.98 nan _) _ _ _ _);
    vm_compute; reflexivity.
Defined.

(** ** [time_str_to_seconds]: the fields that are read *)

Lemma later_fields_not_read (a b c rest : string) :
  all_chars (fun x => negb (Ascii.eqb x ":")) a = true ->
  all_chars (fun x => negb (Ascii.eqb x ":")) b = true ->
  all_chars (fun x => negb (Ascii.eqb x ":")) c = true ->
  time_str_to_seconds_try (a ++ ":" ++ b ++ ":" ++ c ++ ":" ++ rest)
  = time_str_to_seconds_try (a ++ ":" ++ b ++ ":" ++ c).
Proof.
  intros A B C. unfold time_str_to_seconds_try.
  change (a ++ ":" ++ b ++ ":" ++ c ++ ":" ++ rest)
    with (a ++ String ":" (b ++ String ":" (c ++ String ":" rest))).
  change (a ++ ":" ++ b ++ ":" ++ c) with (a ++ String ":" (b ++ String ":" c)).
  rewrite !split_at_separator by assumption.
  rewrite (split_no_separator ":" c C).
  reflexivity.
Qed.

(** X8. [time_str_to_seconds] reads the first three colon-separated fields
    only: whatever follows a third colon changes nothing, so a time in the
    report's own format [HH:MM:SS:mmm] is read without its milliseconds. *)
Theorem time_str_to_seconds_ignores_later_fields (a b c rest : string) :
  all_chars (fun x => negb (Ascii.eqb x ":")) a = true ->
  all_chars (fun x => negb (Ascii.eqb x ":")) b = true ->
  all_chars (fun x => negb (Ascii.eqb x ":")) c = true ->
  time_str_to_seconds (a ++ ":" ++ b ++ ":" ++ c ++ ":" ++ rest)
  = time_str_to_seconds (a ++ ":" ++ b ++ ":" ++ c).
Proof.
  intros A B C. unfold time_str_to_seconds. now rewrite later_fields_not_read.
Qed.

Lemma time_str_to_seconds_ignores_later_fields_witness :
  time_str_to_seconds "00:14:27:799" = time_str_to_seconds "00:14:27"
  /\ time_str_to_seconds "00:14:27:799" = 867%float.
Proof.
  split; [|vm_compute; reflexivity].
  apply (time_str_to_seconds_ignores_later_fields "00" "14" "27" "799"); reflexivity.
Defined.

(** ** The matcher finds what can be matched *)

Lemma run_complete {R : Type} (r : Re.regex) (s s' : string) (g g' : Re.groups) :
  Re.matches r s g s' g' ->
  forall k : string -> Re.groups -> option R,
  k s' g' <> None ->
  Re.run r s g k <> None
  /\ (forall r1, r = Re.Star r1 ->
      forall fuel, (String.length s <= fuel)%nat ->
      Re.star_loop (Re.run r1) k fuel s g <> None).
Proof.
  induction 1 as [s g|p c s g P|r1 r2 s g s1 g1 s2 g2 _ IH1 _ IH2
                  |r s g s' g' _ IH|r s g|i r s g s' g' _ IH
                  |r s g|r s g s1 g1 s2 g2 _ IH1 L _ IH2];
    intros k K.
  - split; [exact K | discriminate].
  - split; [simpl; now rewrite P | discriminate].
  - split; [|discriminate]. cbn [Re.run].
    apply IH1. now apply IH2.
  - split; [|discriminate]. cbn [Re.run].
    destruct (IH k K) as [N _]. destruct (Re.run r s g k); [discriminate | contradiction].
  - split; [|discriminate]. cbn [Re.run]. destruct (Re.run r s g k); [discriminate | exact K].
  - split; [|discriminate]. cbn [Re.run]. now apply IH.
  - assert (X : forall fuel, Re.star_loop (Re.run r) k fuel s g <> None).
    { intros [|fuel]; cbn [Re.star_loop]; [exact K|].
      match goal with |- match ?e with _ => _ end <> _ => destruct e end;
        [discriminate | exact K]. }
    split; [apply X|]. intros r1 E. injection E as <-. intros fuel _. apply X.
  - assert (X : forall fuel, (String.length s <= fuel)%nat ->
                Re.star_loop (Re.run r) k fuel s g <> None).
    { intros [|fuel] F; [lia|]. cbn [Re.star_loop].
      match goal with |- match ?e with _ => _ end <> _ => destruct e eqn:E end;
        [discriminate|].
      exfalso. revert E. apply IH1.
      apply Nat.ltb_lt in L. rewrite L.
      apply (proj2 (IH2 k K) r eq_refl). apply Nat.ltb_lt in L. lia. }
    split; [apply X; lia|]. intros r1 E. injection E as <-. exact X.
Qed.

Lemma match_complete (r : Re.regex) (s s' : string) (g : Re.groups) :
  Re.matches r s [] s' g -> Re.match_ r s <> None.
Proof.
  intros M. unfold Re.match_. apply (run_complete r s s' [] g M). discriminate.
Qed.

Lemma search_complete (r : Re.regex) (pre s s' : string) (g : Re.groups) :
  Re.matches r s [] s' g -> Re.search r (pre ++ s) <> None.
Proof.
  intros M. induction pre as [|c pre IH].
  - cbn [append]. pose proof (match_complete r s s' g M) as N.
    destruct s; cbn [Re.search]; destruct (Re.match_ r _); congruence.
  - cbn [append Re.search].
    destruct (Re.match_ r (String c (pre ++ s))); [discriminate | exact IH].
Qed.

Lemma matches_lit (w s : string) (g : Re.groups) :
  Re.matches (Re.lit w) (w ++ s) g s g.
Proof.
  induction w as [|c w IH]; cbn [Re.lit append]; [constructor|].
  econstructor; [|exact IH]. constructor. apply Ascii.eqb_refl.
Qed.

Lemma matches_star_run (p : ascii -> bool) (a b : string) (g : Re.groups) :
  all_chars p a = true -> Re.matches (Re.Star (Re.Chr p)) (a ++ b) g b g.
Proof.
  induction a as [|c a IH]; cbn [append all_chars]; intros A; [constructor|].
  apply andb_true_iff in A as [C A].
  eapply Re.M_star_more; [constructor; exact C | simpl; lia | now apply IH].
Qed.

Lemma matches_plus_run (p : ascii -> bool) (a b : string) (g : Re.groups) :
  a <> "" -> all_chars p a = true ->
  Re.matches (Re.plus (Re.Chr p)) (a ++ b) g b g.
Proof.
  destruct a as [|c a]; [contradiction|]. intros _ A. cbn [all_chars] in A.
  apply andb_true_iff in A as [C A]. unfold Re.plus. cbn [append].
  econstructor; [constructor; exact C | now apply matches_star_run].
Qed.

(** ** The detector on any detection line *)

Lemma run_of_inv (p : ascii -> bool) (s : string) :
  run_of p s = true -> s <> "" /\ all_chars p s = true.
Proof.
  unfold run_of. intros H. apply andb_true_iff in H as [N A]. split; [|exact A].
  intros ->. discriminate.
Qed.

Lemma run_of_stops (p q : ascii -> bool) (s t : string) :
  run_of p s = true -> (forall c, p c = true -> q c = false) -> stops q (s ++ t) = true.
Proof.
  intros H Q. apply run_of_inv in H as [N A].
  destruct s as [|c s]; [contradiction|]. cbn [all_chars] in A.
  apply andb_true_iff in A as [C _]. simpl. now rewrite (Q c C).
Qed.

Lemma space_not_digit_or_dot (c : ascii) : isspace c = true -> digit_or_dot c = false.
Proof.
  intros H. destruct (digit_or_dot c) eqn:D; [|reflexivity].
  apply digit_or_dot_facts in D as (D & _). congruence.
Qed.

Lemma black_pattern_on_text (a ws1 b ws2 c post : string) :
  run_of digit_or_dot a = true -> run_of isspace ws1 = true ->
  run_of digit_or_dot b = true -> run_of isspace ws2 = true ->
  run_of digit_or_dot c = true -> stops digit_or_dot post = true ->
  Re.match_ black_pattern (detection_text a ws1 b ws2 c ++ post)
  = Some [(3%nat, c); (2%nat, b); (1%nat, a)].
Proof.
  intros A W1 B W2 C P.
  assert (D : forall (r : Re.regex) x s' g' (k : string -> Re.groups -> option Re.groups),
             digit_or_dot x = true ->
             Re.run (Re.Cat (Re.plus Re.space) r) (String x s') g' k = None).
  { intros r x s' g' k H. apply run_cat_plus_fail. simpl.
    apply digit_or_dot_facts in H as (H & _). now rewrite H. }
  assert (S : forall w (r : Re.regex) x s' (g' : Re.groups)
                     (k : string -> Re.groups -> option Re.groups),
             startswith "b" w = true -> w <> "" -> isspace x = true ->
             Re.run (Re.Cat (Re.lit w) r) (String x s') g' k = None).
  { intros w r x s' g' k W N H. apply run_cat_lit_fail.
    destruct w as [|y w]; [contradiction|]. cbn [startswith] in W.
    apply andb_true_iff in W as [W _]. apply Ascii.eqb_eq in W. subst y.
    cbn [startswith].
    destruct x as [[] [] [] [] [] [] [] []]; try discriminate H; reflexivity. }
  destruct (run_of_inv _ _ A) as [Na Aa]. destruct (run_of_inv _ _ B) as [Nb Ab].
  destruct (run_of_inv _ _ C) as [Nc Ac]. destruct (run_of_inv _ _ W1) as [N1 A1].
  destruct (run_of_inv _ _ W2) as [N2 A2].
  unfold Re.match_, black_pattern, Re.space, detection_text in *.
  rewrite !app_assoc_string.
  rewrite run_cat_lit.
  rewrite run_cat_group;
    [|exact Na|exact Aa
     |apply (run_of_stops isspace); [exact W1 | apply space_not_digit_or_dot]
     |intros; now apply D].
  rewrite run_cat_plus;
    [|exact N1|exact A1|reflexivity
     |intros; apply S; [reflexivity|discriminate|assumption]].
  rewrite run_cat_lit.
  rewrite run_cat_group;
    [|exact Nb|exact Ab
     |apply (run_of_stops isspace); [exact W2 | apply space_not_digit_or_dot]
     |intros; now apply D].
  rewrite run_cat_plus;
    [|exact N2|exact A2|reflexivity
     |intros; apply S; [reflexivity|discriminate|assumption]].
  rewrite run_cat_lit.
  now rewrite run_group_last.
Qed.

Lemma rstrip_by_kept (p : ascii -> bool) (a t : string) :
  rstrip_by p t = t /\ t <> "" -> rstrip_by p (a ++ t) = a ++ t /\ a ++ t <> "".
Proof.
  intros [E N]. split.
  - rewrite rstrip_by_app, E. destruct t; [contradiction | reflexivity].
  - destruct a; [exact N | discriminate].
Qed.

Lemma rstrip_by_run (p q : ascii -> bool) (t : string) :
  run_of q t = true -> (forall c, q c = true -> p c = false) ->
  rstrip_by p t = t /\ t <> "".
Proof.
  intros R Q. apply run_of_inv in R as [N A]. split; [|exact N].
  apply strips_nothing. apply (all_chars_weaken q); [|exact A].
  intros c H. now rewrite (Q c H).
Qed.

Lemma digit_or_dot_not_space (c : ascii) : digit_or_dot c = true -> isspace c = false.
Proof. intros H. now apply digit_or_dot_facts in H as (H & _). Qed.

Lemma search_black_pattern_on_text (pre a ws1 b ws2 c post : string) :
  contains "black_start:" pre = false ->
  run_of digit_or_dot a = true -> run_of isspace ws1 = true ->
  run_of digit_or_dot b = true -> run_of isspace ws2 = true ->
  run_of digit_or_dot c = true -> stops digit_or_dot post = true ->
  strip (pre ++ detection_text a ws1 b ws2 c ++ post)
  = lstrip_by isspace pre ++ detection_text a ws1 b ws2 c ++ rstrip_by isspace post
  /\ Re.search black_pattern (strip (pre ++ detection_text a ws1 b ws2 c ++ post))
     = Some [(3%nat, c); (2%nat, b); (1%nat, a)].
Proof.
  intros Cp A W1 B W2 C P.
  assert (E : strip (pre ++ detection_text a ws1 b ws2 c ++ post)
              = lstrip_by isspace pre ++ detection_text a ws1 b ws2 c
                ++ rstrip_by isspace post).
  { apply strip_around.
    - reflexivity.
    - discriminate.
    - unfold detection_text.
      repeat (apply rstrip_by_kept).
      apply (rstrip_by_run isspace digit_or_dot); [exact C | apply digit_or_dot_not_space]. }
  split; [exact E|]. rewrite E.
  pose proof (black_pattern_on_text a ws1 b ws2 c (rstrip_by isspace post)
                A W1 B W2 C (stops_rstrip _ _ _ P)) as M.
  unfold detection_text in *. unfold black_pattern at 1.
  rewrite !app_assoc_string in *.
  rewrite search_skip by (reflexivity || now apply contains_lstrip).
  fold black_pattern. now apply search_here.
Qed.

(** X9. A line that holds [black_start:a black_end:b black_duration:c],
    with [a], [b] and [c] written as digits with an optional fraction and
    any white space between the three parts, appends one interval whose
    start, end and duration are the binary64 numbers nearest to [a], [b] and
    [c], in that order; what was collected before is kept. *)
Theorem detection_line_appends_its_numbers
    (total : float) (st : detector) (pre ws1 ws2 post ia ib ic : string)
    (fa fb fc : option string) :
  (total =? 0)%float = false ->
  contains "black_start:" pre = false -> stops digit_or_dot post = true ->
  run_of isspace ws1 = true -> run_of isspace ws2 = true ->
  digits ia = true -> all_chars is_digit (fraction fa) = true ->
  digits ib = true -> all_chars is_digit (fraction fb) = true ->
  digits ic = true -> all_chars is_digit (fraction fc) = true ->
  exists st',
    process_line total st
      (pre ++ detection_text (written ia fa) ws1 (written ib fb) ws2 (written ic fc) ++ post)
    = Some st'
    /\ black_frames st'
       = (black_frames st
          ++ [{| start := read_number ia fa; end_ := read_number ib fb;
                 duration := read_number ic fc |}])%list.
Proof.
  intros T Cp P W1 W2 Da Fa Db Fb Dc Fc.
  assert (R : forall ip fp, digits ip = true -> all_chars is_digit (fraction fp) = true ->
              run_of digit_or_dot (written ip fp) = true).
  { intros ip fp D F. unfold run_of.
    rewrite (written_chars ip fp (digits_all ip D) F), andb_true_r.
    destruct (String.eqb_spec (written ip fp) ""); [|reflexivity].
    now apply written_nonempty in e. }
  destruct (search_black_pattern_on_text pre (written ia fa) ws1 (written ib fb) ws2
              (written ic fc) post Cp (R _ _ Da Fa) W1 (R _ _ Db Fb) W2 (R _ _ Dc Fc) P)
    as [_ M].
  unfold process_line.
  destruct (progress_written total (progress_shown st)
              (strip (pre ++ detection_text (written ia fa) ws1 (written ib fb) ws2
                               (written ic fc) ++ post)) T) as [shown' E].
  rewrite E, M. cbn [Re.group Nat.eqb obind].
  rewrite !of_string_written by assumption.
  cbn [obind]. eexists. split; reflexivity.
Qed.

Lemma detection_line_appends_its_numbers_witness :
  exists st',
    process_line 10 fresh "[blackdetect @ 0x1] black_start:12.25  black_end:14 black_duration:1.75"
    = Some st'
    /\ black_frames st' = [{| start := 12.25; end_ := 14; duration := 1.75 |}].
Proof.
  destruct (detection_line_appends_its_numbers 10 fresh "[blackdetect @ 0x1] " "  " " " ""
              "12" "14" "1" (Some "25") None (Some "75"))
    as (st' & E & B); try reflexivity.
  exists st'. split; [exact E|]. rewrite B. vm_compute. reflexivity.
Defined.

(** ** What makes the reading loop raise *)

Lemma detect_loop_raises (total : float) (before : list string) (line : string)
    (rest : list event) :
  (forall st, process_line total st line = None) ->
  forall st, detect_loop total st (map Line before ++ Line line :: rest)%list = Raised.
Proof.
  intros N st. rewrite detect_loop_lines.
  destruct (process_lines total st before) as [st'|]; [|reflexivity].
  cbn [detect_loop]. now rewrite N.
Qed.

(** X10. The pattern of the detector accepts any run of digits and points
    as a number. When [float] rejects one of the three runs of a detection
    line (two points in one number, say), the line raises an exception that
    nothing catches: [detect_black_frames] neither returns nor exits with a
    message, whatever the other lines hold. *)
Theorem detection_number_rejected_by_float_raises
    (sys : system) (video ffmpeg : string) (total d t : float)
    (before : list string) (rest : list event) (pre a ws1 b ws2 c post : string) :
  contains "black_start:" pre = false -> stops digit_or_dot post = true ->
  run_of digit_or_dot a = true -> run_of isspace ws1 = true ->
  run_of digit_or_dot b = true -> run_of isspace ws2 = true ->
  run_of digit_or_dot c = true ->
  PyFloat.of_string a = None \/ PyFloat.of_string b = None \/ PyFloat.of_string c = None ->
  ffmpeg_stderr sys ffmpeg video d t
  = (map Line before ++ Line (pre ++ detection_text a ws1 b ws2 c ++ post) :: rest)%list ->
  detect_black_frames sys video ffmpeg total d t = Raised.
Proof.
  intros Cp P A W1 B W2 C F E. unfold detect_black_frames. rewrite E.
  apply detect_loop_raises. intros st. unfold process_line.
  destruct (search_black_pattern_on_text pre a ws1 b ws2 c post Cp A W1 B W2 C P) as [_ M].
  rewrite M.
  match goal with |- obind ?x _ = None => destruct x as [shown|] end; [|reflexivity].
  cbn [Re.group Nat.eqb obind].
  destruct F as [F|[F|F]].
  - now rewrite F.
  - rewrite F. now destruct (PyFloat.of_string a).
  - rewrite F. now destruct (PyFloat.of_string a), (PyFloat.of_string b).
Qed.

Lemma detection_number_rejected_by_float_raises_witness :
  detect_black_frames
    (machine None [] [] None None
       [Line "black_start:1.0 black_end:2.0 black_duration:1.0";
        Line "black_start:1.2.3 black_end:5.0 black_duration:3.8";
        Interrupt])
    "film.ts" "ffmpeg" 10 0.5 0.98
  = Raised.
Proof.
  apply (detection_number_rejected_by_float_raises
           (machine None [] [] None None
              [Line "black_start:1.0 black_end:2.0 black_duration:1.0";
               Line "black_start:1.2.3 black_end:5.0 black_duration:3.8";
               Interrupt])
           "film.ts" "ffmpeg" 10 0.5 0.98
           ["black_start:1.0 black_end:2.0 black_duration:1.0"] [Interrupt]
           "" "1.2.3" " " "5.0" " " "3.8" "");
    try reflexivity.
  left. vm_compute. reflexivity.
Defined.

Lemma two_digits_inv (s : string) :
  two_digits s = true ->
  exists c1 c2, s = String c1 (String c2 "") /\ is_digit c1 = true /\ is_digit c2 = true.
Proof.
  unfold two_digits, digits. intros H.
  apply andb_true_iff in H as [H L]. apply andb_true_iff in H as [_ A].
  destruct s as [|c1 [|c2 [|c3 s]]]; try discriminate L.
  cbn [all_chars] in A. apply andb_true_iff in A as [A1 A]. apply andb_true_iff in A as [A2 _].
  eauto.
Qed.

Lemma matches_progress_text (hh mm ss f post : string) :
  two_digits hh = true -> two_digits mm = true -> two_digits ss = true -> digits f = true ->
  exists g, Re.matches time_pattern (progress_text hh mm ss f ++ post) [] post g.
Proof.
  intros H M S F.
  destruct (two_digits_inv hh H) as (h1 & h2 & -> & H1 & H2).
  destruct (two_digits_inv mm M) as (m1 & m2 & -> & M1 & M2).
  destruct (two_digits_inv ss S) as (s1 & s2 & -> & S1 & S2).
  eexists. unfold time_pattern, progress_text. rewrite !app_assoc_string.
  econstructor; [apply matches_lit|].
  constructor. cbn [append].
  repeat (econstructor; [repeat econstructor; eassumption || apply Ascii.eqb_refl|]).
  apply matches_plus_run; [now apply digits_nonempty | now apply digits_all].
Qed.

Lemma digit_not_space (c : ascii) : is_digit c = true -> isspace c = false.
Proof. intros H. now apply digit_facts in H as (H & _). Qed.

Lemma progress_line_found (pre hh mm ss f post : string) :
  two_digits hh = true -> two_digits mm = true -> two_digits ss = true -> digits f = true ->
  Re.search time_pattern (strip (pre ++ progress_text hh mm ss f ++ post)) <> None.
Proof.
  intros H M S F.
  assert (E : strip (pre ++ progress_text hh mm ss f ++ post)
              = lstrip_by isspace pre ++ progress_text hh mm ss f ++ rstrip_by isspace post).
  { apply strip_around.
    - reflexivity.
    - discriminate.
    - unfold progress_text. repeat (apply rstrip_by_kept).
      apply (rstrip_by_run isspace is_digit); [exact F | apply digit_not_space]. }
  rewrite E.
  destruct (matches_progress_text hh mm ss f (rstrip_by isspace post) H M S F) as [g G].
  exact (search_complete time_pattern _ _ _ g G).
Qed.

(** X11. With a total duration of zero (ffprobe printing 0.000000), the
    first line that carries a progress token [time=HH:MM:SS.f] divides by
    zero: the exception is not caught and [detect_black_frames] neither
    returns a list nor exits with a message. *)
Theorem zero_duration_raises_on_progress
    (sys : system) (video ffmpeg : string) (total d t : float)
    (before : list string) (rest : list event) (pre hh mm ss f post : string) :
  (total =? 0)%float = true ->
  two_digits hh = true -> two_digits mm = true -> two_digits ss = true -> digits f = true ->
  ffmpeg_stderr sys ffmpeg video d t
  = (map Line before ++ Line (pre ++ progress_text hh mm ss f ++ post) :: rest)%list ->
  detect_black_frames sys video ffmpeg total d t = Raised.
Proof.
  intros T H M S F E. unfold detect_black_frames. rewrite E.
  apply detect_loop_raises. intros st. unfold process_line.
  pose proof (progress_line_found pre hh mm ss f post H M S F) as N.
  destruct (Re.search time_pattern _) as [g|] eqn:G; [|contradiction].
  apply detector_time_converts in G as (ts & v & G1 & _).
  rewrite G1, T. reflexivity.
Qed.

Lemma zero_duration_raises_on_progress_witness :
  get_video_duration (machine None [] [] (Some "0.000000") None sample_stream) "film.ts" "ffprobe"
  = Some 0%float
  /\ detect_black_frames (machine None [] [] (Some "0.000000") None sample_stream)
       "film.ts" "ffmpeg" 0 0.5 0.98
     = Raised.
Proof.
  split; [vm_compute; reflexivity|].
  apply (zero_duration_raises_on_progress
           (machine None [] [] (Some "0.000000") None sample_stream)
           "film.ts" "ffmpeg" 0 0.5 0.98 []
           [Line "[blackdetect @ 0x55d0c8a3b2c0] black_start:5.0 black_end:7.5 black_duration:2.5";
            Line "frame=  250 fps=0.0 q=-0.0 size=N/A time=00:00:10.00 bitrate=N/A"]
           "frame=  100 fps=0.0 q=-0.0 size=N/A " "00" "00" "04" "00" " bitrate=N/A");
    reflexivity.
Defined.

(** ** What the total duration and the other lines cannot change *)

Lemma process_line_same_frames (total1 total2 : float) (st1 st2 : detector) (line : string) :
  (total1 =? 0)%float = false -> (total2 =? 0)%float = false ->
  black_frames st1 = black_frames st2 ->
  match process_line total1 st1 line, process_line total2 st2 line with
  | Some a, Some b => black_frames a = black_frames b
  | None, None => True
  | _, _ => False
  end.
Proof.
  intros T1 T2 B. unfold process_line.
  destruct (progress_written total1 (progress_shown st1) (strip line) T1) as [sh1 E1].
  destruct (progress_written total2 (progress_shown st2) (strip line) T2) as [sh2 E2].
  rewrite E1, E2. cbn [obind].
  destruct (Re.search black_pattern (strip line)) as [g|]; [|exact B].
  destruct (Re.group g 1) as [s|]; cbn [obind]; [|exact I].
  destruct (Re.group g 2) as [e|]; cbn [obind]; [|exact I].
  destruct (Re.group g 3) as [u|]; cbn [obind]; [|exact I].
  destruct (PyFloat.of_string s); cbn [obind]; [|exact I].
  destruct (PyFloat.of_string e); cbn [obind]; [|exact I].
  destruct (PyFloat.of_string u); cbn [obind]; [|exact I].
  cbn [black_frames]. now rewrite B.
Qed.

Lemma detect_loop_same_frames (total1 total2 : float) (stream : list event) :
  (total1 =? 0)%float = false -> (total2 =? 0)%float = false ->
  forall st1 st2, black_frames st1 = black_frames st2 ->
  detect_loop total1 st1 stream = detect_loop total2 st2 stream.
Proof.
  intros T1 T2. induction stream as [|[text|] stream IH]; intros st1 st2 B;
    cbn [detect_loop].
  - now rewrite B.
  - pose proof (process_line_same_frames total1 total2 st1 st2 text T1 T2 B) as P.
    destruct (process_line total1 st1 text), (process_line total2 st2 text);
      try contradiction; [now apply IH | reflexivity].
  - reflexivity.
Qed.

(** X12. The total duration only feeds the progress display: for any two
    totals other than zero, [detect_black_frames] ends the same way and
    returns the same intervals. *)
Theorem detection_independent_of_total
    (sys : system) (video ffmpeg : string) (total1 total2 d t : float) :
  (total1 =? 0)%float = false -> (total2 =? 0)%float = false ->
  detect_black_frames sys video ffmpeg total1 d t
  = detect_black_frames sys video ffmpeg total2 d t.
Proof.
  intros T1 T2. unfold detect_black_frames. now apply detect_loop_same_frames.
Qed.

Lemma detection_independent_of_total_witness :
  detect_black_frames (sample_system sample_stream) "film.ts" "/opt/ff/ffmpeg" 10 0.5 0.98
  = detect_black_frames (sample_system sample_stream) "film.ts" "/opt/ff/ffmpeg" 3600.5 0.5 0.98.
Proof.
  apply (detection_independent_of_total (sample_system sample_stream)
           "film.ts" "/opt/ff/ffmpeg" 10 3600.5 0.5 0.98); reflexivity.
Defined.

Lemma process_line_at_most_one (total : float) (st st' : detector) (line : string) :
  process_line total st line = Some st' ->
  exists added,
    black_frames st' = (black_frames st ++ added)%list
    /\ (List.length added
        <= if contains "black_start:" line then 1 else 0)%nat.
Proof.
  unfold process_line. intros H.
  apply obind_some in H as (shown & _ & H).
  destruct (contains "black_start:" line) eqn:C.
  - destruct (Re.search black_pattern (strip line)) as [g|].
    + apply obind_some in H as (s & _ & H). apply obind_some in H as (e & _ & H).
      apply obind_some in H as (u & _ & H). apply obind_some in H as (x & _ & H).
      apply obind_some in H as (y & _ & H). apply obind_some in H as (z & _ & H).
      injection H as <-. eexists. split; [reflexivity | simpl; lia].
    + injection H as <-. exists []. split; [now rewrite app_nil_r | simpl; lia].
  - unfold black_pattern in H. rewrite search_without in H by now apply contains_strip.
    injection H as <-. exists []. split; [now rewrite app_nil_r | simpl; lia].
Qed.

Lemma detect_loop_count (total : float) (stream : list event) :
  forall st frames,
  detect_loop total st stream = Returned frames ->
  exists lines added,
    stream = map Line lines
    /\ frames = (black_frames st ++ added)%list
    /\ (List.length added
        <= List.length (filter (contains "black_start:") lines))%nat.
Proof.
  induction stream as [|[text|] stream IH]; intros st frames H; cbn [detect_loop] in H.
  - injection H as <-. exists [], []. now rewrite app_nil_r.
  - destruct (process_line total st text) as [st'|] eqn:P; [|discriminate].
    destruct (process_line_at_most_one total st st' text P) as (a1 & B1 & L1).
    destruct (IH st' frames H) as (lines & a2 & -> & -> & L2).
    exists (text :: lines), (a1 ++ a2)%list. split; [reflexivity|]. split.
    + now rewrite B1, app_assoc.
    + rewrite List.length_app. cbn [filter].
      destruct (contains "black_start:" text); cbn [List.length]; lia.
  - discriminate.
Qed.

(** X13. When [detect_black_frames] returns, the stream held lines only,
    and the list holds at most one interval for each line in which
    [black_start:] occurs: a line without it adds nothing, and a line never
    adds two. *)
Theorem at_most_one_interval_per_detection_line
    (sys : system) (video ffmpeg : string) (total d t : float) (frames : list interval) :
  detect_black_frames sys video ffmpeg total d t = Returned frames ->
  exists lines,
    ffmpeg_stderr sys ffmpeg video d t = map Line lines
    /\ (List.length frames
        <= List.length (filter (contains "black_start:") lines))%nat.
Proof.
  unfold detect_black_frames. intros H.
  destruct (detect_loop_count total _ _ _ H) as (lines & added & E & -> & L).
  exists lines. split; [exact E | exact L].
Qed.

Lemma at_most_one_interval_per_detection_line_witness :
  exists lines,
    ffmpeg_stderr (sample_system sample_stream) "/opt/ff/ffmpeg" "film.ts" 0.5 0.98
    = map Line lines
    /\ (List.length [token_interval]
        <= List.length (filter (contains "black_start:") lines))%nat.
Proof.
  apply (at_most_one_interval_per_detection_line (sample_system sample_stream)
           "film.ts" "/opt/ff/ffmpeg" 10 0.5 0.98 [token_interval]).
  vm_compute. reflexivity.
Defined.

(** ** The sidecar file: quotes, order and what follows the components *)

Lemma matches_keeps_chars (p : ascii -> bool) (r : Re.regex) (s s' : string)
    (g g' : Re.groups) :
  Re.matches r s g s' g' -> all_chars p s = true -> all_chars p s' = true.
Proof.
  intros M A. apply matches_prefix in M as [pre ->].
  rewrite all_chars_app in A. now apply andb_true_iff in A as [_ A].
Qed.

Lemma all_chars_drop (p : ascii -> bool) (n : nat) :
  forall s, all_chars p s = true -> all_chars p (drop n s) = true.
Proof.
  induction n as [|n IH]; intros [|c s] A; cbn [drop]; try exact A.
  cbn [all_chars] in A. apply andb_true_iff in A as [_ A]. now apply IH.
Qed.

Lemma start_time_needs_quote (content : string) :
  all_chars (fun c => negb (Ascii.eqb c dquote)) content = true ->
  Re.search start_time_pattern content = None.
Proof.
  intros A. destruct (Re.search start_time_pattern content) as [g|] eqn:E; [|reflexivity].
  exfalso. apply search_sound in E as (n & s' & M).
  apply (all_chars_drop _ n) in A. revert M A. generalize (drop n content). clear.
  intros s M A. unfold start_time_pattern in M.
  inversion M as [| |r1 r2 s0 g0 s1 g1 s2 g2 M1 M2| | | | |]; subst; clear M.
  apply (matches_keeps_chars _ _ _ _ _ _ M1) in A. clear M1.
  inversion M2 as [| |r1 r2 s0 g0 s3 g3 s4 g4 M3 M4| | | | |]; subst; clear M2.
  apply (matches_keeps_chars _ _ _ _ _ _ M3) in A. clear M3.
  inversion M4 as [| |r1 r2 s0 g0 s5 g5 s6 g6 M5 M6| | | | |]; subst; clear M4.
  apply (matches_keeps_chars _ _ _ _ _ _ M5) in A. clear M5.
  inversion M6 as [| |r1 r2 s0 g0 s7 g7 s8 g8 M7 M8| | | | |]; subst; clear M6.
  apply (matches_keeps_chars _ _ _ _ _ _ M7) in A. clear M7.
  inversion M8 as [| |r1 r2 s0 g0 s9 g9 sa ga M9 Ma| | | | |]; subst; clear M8.
  inversion M9 as [|p c s0 g0 P| | | | | |]; subst; clear M9.
  cbn [all_chars] in A. apply andb_true_iff in A as [A _].
  rewrite Ascii.eqb_sym, P in A. discriminate.
Qed.

(** X14. The quotes of the assignment are required: a sidecar file that
    holds no double quote at all (an unquoted [START_TIME=10h36m22s], say)
    gives the offset 0.0. *)
Theorem unquoted_start_time_is_ignored (sys : system) (path content : string) :
  read_text sys path = Some content ->
  all_chars (fun c => negb (Ascii.eqb c dquote)) content = true ->
  parse_ini_offset sys path = 0%float.
Proof.
  intros R A. unfold parse_ini_offset. rewrite R. cbn [obind].
  unfold parse_ini_offset_try. now rewrite start_time_needs_quote.
Qed.

Lemma unquoted_start_time_is_ignored_witness :
  parse_ini_offset (with_sidecar (Some "START_TIME=10h36m22.010s")) "film.ts.ini" = 0%float.
Proof.
  apply (unquoted_start_time_is_ignored (with_sidecar (Some "START_TIME=10h36m22.010s"))
           "film.ts.ini" "START_TIME=10h36m22.010s"); reflexivity.
Defined.

Lemma seconds_on_text_then (os : option (string * option string)) (rest : string)
    (g : Re.groups) :
  seconds_ok os = true ->
  (os = None -> begins_with_seconds rest = false) ->
  Re.run seconds_unit (seconds_text os ++ rest) g (fun _ g' => Some g')
  = Some (match os with Some (ds, f) => [(3%nat, written ds f)] | None => [] end ++ g)%list.
Proof.
  intros OK N. destruct os as [[ds f]|]; cbn [seconds_text].
  - rewrite app_assoc_string. cbn [append]. now apply seconds_unit_present.
  - cbn [append]. now rewrite seconds_unit_not_begun by now apply N.
Qed.

Lemma seconds_text_then_no_unit (u : ascii) (ds : string) (f : option string)
    (rest : string) :
  seconds_ok (Some (ds, f)) = true -> Ascii.eqb u "." = false -> Ascii.eqb u "s" = false ->
  begins_with_unit u (seconds_text (Some (ds, f)) ++ rest) = false.
Proof.
  intros OK U1 U2. destruct f as [f|]; simpl in *.
  - apply andb_true_iff in OK as [D _].
    rewrite !app_assoc_string. cbn [append].
    now rewrite begins_with_unit_after_digits.
  - rewrite app_assoc_string. cbn [append].
    now rewrite begins_with_unit_after_digits.
Qed.

Lemma minutes_on_text_then (om : option string) (os : option (string * option string))
    (rest : string) (g : Re.groups) :
  unit_ok om = true -> seconds_ok os = true ->
  (os = None -> begins_with_seconds rest = false) ->
  (om = None -> os = None -> begins_with_unit "m" rest = false) ->
  Re.run (Re.Cat (hm_unit 2 "m") seconds_unit)
    (unit_text om "m" ++ seconds_text os ++ rest) g (fun _ g' => Some g')
  = Some (match os with Some (ds, f) => [(3%nat, written ds f)] | None => [] end
          ++ match om with Some ds => [(2%nat, ds)] | None => [] end ++ g)%list.
Proof.
  intros M OK N1 N2. destruct om as [m|]; cbn [unit_text unit_ok] in *.
  - rewrite app_assoc_string. cbn [append].
    apply hm_unit_present; [exact M | reflexivity |].
    now rewrite seconds_on_text_then.
  - cbn [append]. rewrite hm_unit_not_begun; [| reflexivity |].
    + now rewrite seconds_on_text_then.
    + destruct os as [[ds f]|].
      * now apply seconds_text_then_no_unit.
      * cbn [seconds_text append]. now apply N2.
Qed.

Lemma hms_match_leading (oh om : option string) (os : option (string * option string))
    (rest : string) :
  unit_ok oh = true -> unit_ok om = true -> seconds_ok os = true ->
  not_continued oh om os rest = true ->
  Re.match_ hms_pattern (hms_text oh om os ++ rest) = Some (hms_groups oh om os).
Proof.
  intros H M OK NC.
  assert (N1 : os = None -> begins_with_seconds rest = false).
  { intros ->. cbn [not_continued] in NC. apply andb_true_iff in NC as [NC _].
    now apply negb_true_iff in NC. }
  assert (N2 : om = None -> os = None -> begins_with_unit "m" rest = false).
  { intros -> ->. cbn [not_continued] in NC. apply andb_true_iff in NC as [_ NC].
    apply andb_true_iff in NC as [NC _]. now apply negb_true_iff in NC. }
  assert (N3 : oh = None -> om = None -> os = None -> begins_with_unit "h" rest = false).
  { intros -> -> ->. cbn [not_continued] in NC. apply andb_true_iff in NC as [_ NC].
    apply andb_true_iff in NC as [_ NC]. now apply negb_true_iff in NC. }
  unfold Re.match_, hms_pattern, hms_text, hms_groups.
  rewrite !app_assoc_string.
  destruct oh as [h|]; cbn [unit_text unit_ok] in *.
  - rewrite app_assoc_string. cbn [append].
    apply hm_unit_present; [exact H | reflexivity |].
    now rewrite minutes_on_text_then.
  - cbn [append]. rewrite hm_unit_not_begun; [| reflexivity |].
    + rewrite minutes_on_text_then by assumption. now rewrite !app_nil_r.
    + destruct om as [m|]; cbn [unit_text unit_ok append] in *.
      * rewrite app_assoc_string. cbn [append].
        now rewrite begins_with_unit_after_digits.
      * destruct os as [[ds f]|].
        -- now apply seconds_text_then_no_unit.
        -- cbn [seconds_text append]. now apply N3.
Qed.

(** X15. The value of the first [START_TIME] assignment is stripped of
    surrounding white space and read from its start: the components
    [<N>h], [<N>m], [<N>(.N)s] it begins with, in that order, give
    [hours * 3600 + minutes * 60 + seconds], and whatever follows them is
    ignored (in 36m10h the hours come too late and are not counted). *)
Theorem parse_ini_offset_reads_leading_components
    (sys : system) (path pre ws1 ws2 value post rest : string) (oh om : option string)
    (os : option (string * option string)) :
  read_text sys path = Some (assignment pre ws1 ws2 value post) ->
  contains "START_TIME" pre = false ->
  all_chars isspace ws1 = true -> all_chars isspace ws2 = true ->
  value <> "" -> all_chars (fun c => negb (Ascii.eqb c dquote)) value = true ->
  unit_ok oh = true -> unit_ok om = true -> seconds_ok os = true ->
  strip value = hms_text oh om os ++ rest ->
  not_continued oh om os rest = true ->
  parse_ini_offset sys path
  = (unit_number oh * 3600 + unit_number om * 60 + seconds_number os)%float.
Proof.
  intros R C W1 W2 N V H M S St NC. unfold parse_ini_offset. rewrite R. cbn [obind].
  unfold parse_ini_offset_try.
  rewrite start_time_search by assumption.
  cbn [Re.group Nat.eqb obind].
  rewrite St, hms_match_leading by assumption.
  destruct (components_of_groups oh om os H M S) as (E1 & E2 & E3).
  rewrite E1, E2, E3. reflexivity.
Qed.

Lemma parse_ini_offset_reads_leading_components_witness :
  let content := "START_TIME = " ++ String dquote (" 36m10h " ++ String dquote "") in
  parse_ini_offset (with_sidecar (Some content)) "film.ts.ini" = 2160%float.
Proof.
  change 2160%float
    with (unit_number None * 3600 + unit_number (Some "36") * 60 + seconds_number None)%float.
  apply (parse_ini_offset_reads_leading_components
           (with_sidecar (Some ("START_TIME = " ++ String dquote (" 36m10h " ++ String dquote ""))))
           "film.ts.ini" "" " " " " " 36m10h " "" "10h" None (Some "36") None);
    try reflexivity.
  discriminate.
Defined.

(** ** Exact arithmetic on whole numbers *)

Lemma scale_scale (n a b : Z) : 0 <= a -> 0 <= b -> n * 2 ^ a * 2 ^ b = n * 2 ^ (a + b).
Proof. intros A B. rewrite <- Z.mul_assoc, <- Z.pow_add_r by lia. reflexivity. Qed.

Lemma Zdigits2_scale (n k : Z) : 0 < n -> 0 <= k -> Zdigits2 (n * 2 ^ k) = Zdigits2 n + k.
Proof.
  intros N K. pose proof (Zdigits2_bounds n N) as [L U].
  pose proof (Zdigits2_pos n N) as D. pose proof (pow2_pos k K) as P.
  apply Zdigits2_unique; [|nia].
  replace (Zdigits2 n + k - 1) with (Zdigits2 n - 1 + k) by lia.
  rewrite !Z.pow_add_r by lia. nia.
Qed.

Lemma Zdigits2_below (n k : Z) : 0 < n < 2 ^ k -> 0 <= k -> Zdigits2 n <= k.
Proof.
  intros [N U] K. pose proof (Zdigits2_bounds n N) as [L _].
  pose proof (Zdigits2_pos n N) as D.
  assert (Zdigits2 n - 1 < k); [|lia]. apply pow2_lt_exp; lia.
Qed.

Lemma Zdigits2_mono (a b : Z) : 0 < a <= b -> Zdigits2 a <= Zdigits2 b.
Proof.
  intros [A B]. pose proof (Zdigits2_bounds b ltac:(lia)) as [_ U].
  apply Zdigits2_below; [lia | apply Zdigits2_nonneg].
Qed.

Lemma shr_1_even (c : Z) :
  0 <= c ->
  shr_1 {| shr_m := c * 2; shr_r := false; shr_s := false |}
  = {| shr_m := c; shr_r := false; shr_s := false |}.
Proof.
  intros C. destruct c as [|p|p]; [reflexivity| |lia].
  replace (Z.pos p * 2) with (Z.pos p~0) by lia. reflexivity.
Qed.

Lemma iter_shr_exact (p : positive) :
  forall c, 0 <= c ->
  iter_pos shr_1 p {| shr_m := c * 2 ^ Z.pos p; shr_r := false; shr_s := false |}
  = {| shr_m := c; shr_r := false; shr_s := false |}.
Proof.
  induction p as [p IH|p IH|]; intros c C; cbn [iter_pos].
  - replace (c * 2 ^ Z.pos p~1) with (c * 2 ^ Z.pos p * 2 ^ Z.pos p * 2).
    + pose proof (pow2_pos (Z.pos p) ltac:(lia)).
      rewrite shr_1_even by nia. rewrite IH by nia. now apply IH.
    + replace (Z.pos p~1) with (Z.pos p + Z.pos p + 1) by lia.
      rewrite !Z.pow_add_r by lia. ring.
  - replace (c * 2 ^ Z.pos p~0) with (c * 2 ^ Z.pos p * 2 ^ Z.pos p).
    + pose proof (pow2_pos (Z.pos p) ltac:(lia)).
      rewrite IH by nia. now apply IH.
    + replace (Z.pos p~0) with (Z.pos p + Z.pos p) by lia.
      rewrite !Z.pow_add_r by lia. ring.
  - now apply shr_1_even.
Qed.

Lemma shr_fexp_whole (m e E M : Z) :
  0 <= M -> e <= E -> m = M * 2 ^ (E - e) ->
  fexp prec emax (Zdigits2 m + e) = E ->
  shr_fexp prec emax m e loc_Exact
  = ({| shr_m := M; shr_r := false; shr_s := false |}, E).
Proof.
  intros HM L Hm F. unfold shr_fexp, shr. rewrite F. cbn [shr_record_of_loc].
  destruct (E - e) as [|k|k] eqn:K; [| |lia].
  - rewrite Hm. f_equal; [f_equal; simpl; lia | lia].
  - rewrite Hm, iter_shr_exact by exact HM. f_equal. lia.
Qed.

Lemma whole_pack (n : Z) :
  0 < n < 2 ^ 53 ->
  whole n = S754_finite false (Z.to_pos (n * 2 ^ (53 - Zdigits2 n))) (Zdigits2 n - 53)
  /\ 1 <= Zdigits2 n <= 53
  /\ 0 < n * 2 ^ (53 - Zdigits2 n)
  /\ Zdigits2 (n * 2 ^ (53 - Zdigits2 n)) = 53.
Proof.
  intros [N U]. pose proof (Zdigits2_pos n N) as D.
  pose proof (Zdigits2_below n 53 ltac:(lia) ltac:(lia)) as B.
  split; [destruct n; try lia; reflexivity|]. split; [lia|].
  pose proof (pow2_pos (53 - Zdigits2 n) ltac:(lia)). split; [nia|].
  rewrite Zdigits2_scale by lia. lia.
Qed.

(** A mantissa and exponent that stand for a whole number round to it. *)
Lemma binary_round_aux_whole (m e n : Z) :
  0 < n < 2 ^ 53 -> e <= Zdigits2 n - 53 -> m = n * 2 ^ (- e) ->
  binary_round_aux prec emax false m e loc_Exact = whole n.
Proof.
  intros N L Hm. destruct (whole_pack n N) as (W & D & MP & DM). rewrite W.
  set (d := Zdigits2 n) in *. set (M := n * 2 ^ (53 - d)) in *.
  assert (Hm' : m = M * 2 ^ (d - 53 - e)).
  { unfold M. rewrite scale_scale by lia. rewrite Hm. f_equal. f_equal. lia. }
  assert (Dm : Zdigits2 m = d + - e).
  { rewrite Hm. apply Zdigits2_scale; lia. }
  unfold binary_round_aux.
  rewrite (shr_fexp_whole m e (d - 53) M) by (try rewrite fexp_eq; lia).
  cbn [shr_m loc_of_shr_record round_nearest_even].
  rewrite shr_fexp_exact by (rewrite fexp_eq; lia).
  cbn [shr_m]. destruct M as [|q|q] eqn:EM; try lia.
  replace (d - 53 <=? emax - prec) with true; [reflexivity|].
  symmetry. apply Z.leb_le. change (emax - prec) with 971. lia.
Qed.

Lemma binary_round_whole (m : positive) (e n : Z) :
  0 < n < 2 ^ 53 -> e <= 0 -> Z.pos m = n * 2 ^ (- e) ->
  binary_round prec emax false m e = whole n.
Proof.
  intros N L Hm. destruct (whole_pack n N) as (_ & D & _).
  assert (Dm : Z.pos (digits2_pos m) = Zdigits2 n + - e).
  { change (Z.pos (digits2_pos m)) with (Zdigits2 (Z.pos m)). rewrite Hm.
    apply Zdigits2_scale; lia. }
  unfold binary_round. rewrite Dm, fexp_eq.
  destruct (shl_align_spec m e (Z.max (Zdigits2 n + - e + e - 53) (-1074))) as [S1 S2].
  destruct (shl_align m e _) as [mz ez]. cbn [fst snd] in S1, S2.
  apply binary_round_aux_whole; [exact N | lia |].
  rewrite S2, Hm, scale_scale by lia. f_equal. f_equal. lia.
Qed.

Lemma normalize_whole (m e n : Z) :
  0 <= n < 2 ^ 53 -> e <= 0 -> m = n * 2 ^ (- e) ->
  binary_normalize prec emax m e false = whole n.
Proof.
  intros N L Hm. pose proof (pow2_pos (- e) ltac:(lia)) as P.
  destruct (Z.eq_dec n 0) as [->|NZ].
  - subst m. reflexivity.
  - destruct m as [|p|p]; try nia. cbn [binary_normalize].
    apply binary_round_whole; [lia | exact L | exact Hm].
Qed.

Lemma whole_valid (n : Z) :
  0 <= n < 2 ^ 53 -> SpecFloat.valid_binary prec emax (whole n) = true.
Proof.
  intros N. destruct (Z.eq_dec n 0) as [->|NZ]; [reflexivity|].
  destruct (whole_pack n ltac:(lia)) as (W & D & MP & DM). rewrite W.
  cbn [valid_binary]. unfold bounded, canonical_mantissa.
  change (Z.pos (digits2_pos (Z.to_pos (n * 2 ^ (53 - Zdigits2 n)))))
    with (Zdigits2 (Z.pos (Z.to_pos (n * 2 ^ (53 - Zdigits2 n))))).
  rewrite Z2Pos.id by exact MP. rewrite DM, fexp_eq.
  apply andb_true_iff. split; [apply Z.eqb_eq; lia | apply Z.leb_le].
  change (emax - prec) with 971. lia.
Qed.

(** The mantissa and the exponent of a whole number that is not zero. *)
Lemma whole_finite (n : Z) :
  0 < n < 2 ^ 53 ->
  exists M E, whole n = S754_finite false M E
              /\ E = Zdigits2 n - 53 /\ -52 <= E <= 0 /\ Z.pos M = n * 2 ^ (- E).
Proof.
  intros N. destruct (whole_pack n N) as (W & D & MP & _).
  eexists _, _. split; [exact W|]. split; [reflexivity|]. split; [lia|].
  rewrite Z2Pos.id by exact MP. f_equal. f_equal. lia.
Qed.

Lemma aligned (M : positive) (E ez n : Z) :
  Z.pos M = n * 2 ^ (- E) -> E <= 0 -> ez <= E ->
  Z.pos (fst (shl_align M E ez)) = n * 2 ^ (- ez).
Proof.
  intros HM L1 L2. destruct (shl_align_spec M E ez) as [_ S].
  rewrite S, HM, scale_scale by lia. f_equal. f_equal. lia.
Qed.

Lemma SFadd_whole (a b : Z) :
  0 <= a -> 0 <= b -> a + b < 2 ^ 53 ->
  SFadd prec emax (whole a) (whole b) = whole (a + b).
Proof.
  intros A B S.
  destruct (Z.eq_dec a 0) as [->|Na]; [destruct b; reflexivity|].
  destruct (Z.eq_dec b 0) as [->|Nb]; [rewrite Z.add_0_r; destruct a; reflexivity|].
  destruct (whole_finite a ltac:(lia)) as (Ma & Ea & Wa & _ & Ra & Va).
  destruct (whole_finite b ltac:(lia)) as (Mb & Eb & Wb & _ & Rb & Vb).
  rewrite Wa, Wb. cbn [SFadd cond_Zopp].
  apply normalize_whole; [lia | lia |].
  rewrite (aligned Ma Ea _ a), (aligned Mb Eb _ b) by (assumption || lia). ring.
Qed.

Lemma SFsub_whole (a b : Z) :
  0 <= b <= a -> a < 2 ^ 53 ->
  SFsub prec emax (whole a) (whole b) = whole (a - b).
Proof.
  intros B A.
  destruct (Z.eq_dec b 0) as [->|Nb]; [rewrite Z.sub_0_r; destruct a; reflexivity|].
  destruct (whole_finite a ltac:(lia)) as (Ma & Ea & Wa & _ & Ra & Va).
  destruct (whole_finite b ltac:(lia)) as (Mb & Eb & Wb & _ & Rb & Vb).
  rewrite Wa, Wb. cbn [SFsub cond_Zopp].
  apply normalize_whole; [lia | lia |].
  rewrite (aligned Ma Ea _ a), (aligned Mb Eb _ b) by (assumption || lia). ring.
Qed.

Lemma SFmul_whole (a b : Z) :
  0 <= a -> 0 <= b -> a * b < 2 ^ 53 ->
  SFmul prec emax (whole a) (whole b) = whole (a * b).
Proof.
  intros A B S.
  destruct (Z.eq_dec a 0) as [->|Na]; [destruct b; reflexivity|].
  destruct (Z.eq_dec b 0) as [->|Nb]; [rewrite Z.mul_0_r; destruct a; reflexivity|].
  destruct (whole_finite a ltac:(nia)) as (Ma & Ea & Wa & Da & Ra & Va).
  destruct (whole_finite b ltac:(nia)) as (Mb & Eb & Wb & Db & Rb & Vb).
  rewrite Wa, Wb. cbn [SFmul xorb].
  apply binary_round_aux_whole; [nia | |].
  - assert (Zdigits2 a + Zdigits2 b - 1 <= Zdigits2 (a * b)); [|lia].
    pose proof (Zdigits2_bounds a ltac:(lia)) as [La _].
    pose proof (Zdigits2_bounds b ltac:(lia)) as [Lb _].
    pose proof (Zdigits2_pos a ltac:(lia)). pose proof (Zdigits2_pos b ltac:(lia)).
    pose proof (Zdigits2_bounds (a * b) ltac:(nia)) as [_ U].
    assert (2 ^ (Zdigits2 a - 1 + (Zdigits2 b - 1)) < 2 ^ Zdigits2 (a * b)).
    { rewrite Z.pow_add_r by lia. nia. }
    apply pow2_lt_exp in H1; lia.
  - rewrite Pos2Z.inj_mul, Va, Vb.
    replace (- (Ea + Eb)) with (- Ea + - Eb) by lia.
    rewrite Z.pow_add_r by lia. ring.
Qed.

Lemma div_eucl_div_mod (x y : Z) : Z.div_eucl x y = (x / y, x mod y).
Proof. unfold Z.div, Z.modulo. now destruct (Z.div_eucl x y). Qed.

Lemma new_location_exact (steps : Z) : new_location steps 0 = loc_Exact.
Proof. unfold new_location. now destruct (Z.even steps). Qed.

Lemma whole_digits (n : Z) (M : positive) (E : Z) :
  0 < n -> E <= 0 -> Z.pos M = n * 2 ^ (- E) -> Zdigits2 (Z.pos M) = Zdigits2 n - E.
Proof. intros N L V. rewrite V, Zdigits2_scale by lia. lia. Qed.

Lemma SFdiv_whole (a b : Z) :
  0 <= a < 2 ^ 53 -> 0 < b < 2 ^ 53 -> (b | a) ->
  SFdiv prec emax (whole a) (whole b) = whole (a / b).
Proof.
  intros A B [c C].
  destruct (whole_finite b B) as (Mb & Eb & Wb & Db & Rb & Vb). rewrite Wb.
  destruct (Z.eq_dec a 0) as [->|Na]; [reflexivity|].
  destruct (whole_finite a ltac:(lia)) as (Ma & Ea & Wa & Da & Ra & Va). rewrite Wa.
  assert (Q : a / b = c) by (subst a; apply Z.div_mul; lia).
  assert (Pc : 0 < c) by nia.
  rewrite Q. cbn [SFdiv xorb]. unfold SFdiv_core_binary.
  rewrite (whole_digits a Ma Ea), (whole_digits b Mb Eb) by (assumption || lia).
  rewrite fexp_eq.
  replace (Z.min (Z.max (Zdigits2 a - Ea + Ea - (Zdigits2 b - Eb + Eb) - 53) (-1074))
             (Ea - Eb))
    with (Ea - Eb - 53) by lia.
  replace (Ea - Eb - (Ea - Eb - 53)) with 53 by lia.
  rewrite Z.shiftl_mul_pow2 by lia.
  assert (X : Z.pos Ma * 2 ^ 53 = c * 2 ^ (53 - Ea + Eb) * Z.pos Mb).
  { rewrite Va, Vb, C, scale_scale by lia.
    replace (53 - Ea + Eb) with (- Ea + 53 - - Eb) by lia.
    rewrite <- (Z.mul_assoc _ (2 ^ _) (b * _)), (Z.mul_comm (2 ^ _) (b * _)).
    rewrite <- (Z.mul_assoc b), <- Z.pow_add_r by lia.
    replace (- Eb + (- Ea + 53 - - Eb)) with (- Ea + 53) by lia. ring. }
  rewrite div_eucl_div_mod, X, Z.div_mul, Z.mod_mul by lia.
  rewrite new_location_exact.
  apply binary_round_aux_whole.
  - split; [lia|]. nia.
  - assert (Zdigits2 a <= Zdigits2 c + Zdigits2 b); [|lia].
    pose proof (Zdigits2_bounds c Pc) as [_ Uc].
    pose proof (Zdigits2_bounds b ltac:(lia)) as [_ Ub].
    pose proof (Zdigits2_nonneg c). pose proof (Zdigits2_nonneg b).
    apply Zdigits2_below; [|lia]. rewrite Z.pow_add_r by lia. nia.
  - f_equal. f_equal. lia.
Qed.

Lemma SFdiv_whole_nonneg (a b : Z) :
  0 <= a < 2 ^ 53 -> 0 < b < 2 ^ 53 ->
  SF_nonneg (SFdiv prec emax (whole a) (whole b)) = true.
Proof.
  intros A B.
  destruct (whole_finite b B) as (Mb & Eb & Wb & _). rewrite Wb.
  destruct (Z.eq_dec a 0) as [->|Na]; [reflexivity|].
  destruct (whole_finite a ltac:(lia)) as (Ma & Ea & Wa & _). rewrite Wa.
  cbn [SFdiv xorb]. unfold SFdiv_core_binary. rewrite div_eucl_div_mod.
  match goal with
  | |- SF_nonneg (binary_round_aux _ _ _ (?m / _) ?e ?l) = true =>
      assert (P : 0 <= m);
      [| destruct (binary_round_aux_shape false (m / Z.pos Mb) e l
                     ltac:(apply Z.div_pos; lia))
           as (m2 & m3 & e3 & _ & _ & P3 & _ & -> & _); now apply pack_nonneg ]
  end.
  match goal with |- 0 <= match ?s with _ => _ end => destruct s end;
    [lia | apply Z.shiftl_nonneg; lia | lia].
Qed.

Lemma SFfmod_whole (a b : Z) :
  0 <= a < 2 ^ 53 -> 0 < b < 2 ^ 53 ->
  PyFloat.SFfmod (whole a) (whole b) = whole (a mod b).
Proof.
  intros A B.
  destruct (whole_finite b B) as (Mb & Eb & Wb & Db & Rb & Vb). rewrite Wb.
  destruct (Z.eq_dec a 0) as [->|Na]; [reflexivity|].
  destruct (whole_finite a ltac:(lia)) as (Ma & Ea & Wa & Da & Ra & Va). rewrite Wa.
  pose proof (Z.mod_pos_bound a b ltac:(lia)) as R.
  cbn [PyFloat.SFfmod]. set (e := Z.min Ea Eb).
  rewrite !Z.shiftl_mul_pow2 by lia.
  assert (X : Z.rem (Z.pos Ma * 2 ^ (Ea - e)) (Z.pos Mb * 2 ^ (Eb - e))
              = (a mod b) * 2 ^ (- e)).
  { rewrite Va, Vb, !scale_scale by lia.
    replace (- Ea + (Ea - e)) with (- e) by lia.
    replace (- Eb + (Eb - e)) with (- e) by lia.
    pose proof (pow2_pos (- e) ltac:(lia)).
    rewrite Z.rem_mod_nonneg by nia.
    apply Z.mul_mod_distr_r; lia. }
  rewrite X. pose proof (pow2_pos (- e) ltac:(lia)) as P.
  destruct (Z.eqb_spec ((a mod b) * 2 ^ (- e)) 0) as [Z0|NZ].
  - replace (a mod b) with 0 by nia. reflexivity.
  - cbn [cond_Zopp]. apply normalize_whole; [lia | lia | reflexivity].
Qed.

Lemma SF_of_ratio_whole (d : Z) :
  0 <= d < 2 ^ 53 -> PyFloat.SF_of_ratio d 1 = whole d.
Proof.
  intros D. destruct (Z.eq_dec d 0) as [->|N]; [vm_compute; reflexivity|].
  pose proof (Zdigits2_pos d ltac:(lia)) as P.
  pose proof (Zdigits2_below d 53 ltac:(lia) ltac:(lia)) as B.
  unfold PyFloat.SF_of_ratio, SFdiv_core_binary.
  change (Zdigits2 1) with 1. rewrite fexp_eq.
  replace (Z.min (Z.max (Zdigits2 d + 0 - (1 + 0) - 53) (-1074)) (0 - 0))
    with (Zdigits2 d - 54) by lia.
  destruct (0 - 0 - (Zdigits2 d - 54)) as [|s|s] eqn:S; try lia.
  rewrite Z.shiftl_mul_pow2 by lia.
  rewrite div_eucl_div_mod, Z.div_1_r, Z.mod_1_r, new_location_exact.
  apply binary_round_aux_whole; [lia | lia |].
  f_equal. f_equal. lia.
Qed.

(** *** On primitive floats *)

Lemma whole_prim (n : Z) :
  0 <= n < 2 ^ 53 -> Prim2SF (SF2Prim (whole n)) = whole n.
Proof. intros N. apply Prim2SF_SF2Prim. now apply whole_valid. Qed.

Lemma of_int_whole (n : Z) :
  0 <= n < 2 ^ 53 -> Prim2SF (PyFloat.of_int n) = whole n.
Proof.
  intros N. unfold PyFloat.of_int.
  rewrite (normalize_whole n 0 n) by (lia || (simpl; lia)).
  now apply whole_prim.
Qed.

Lemma float_whole (x : float) (n : Z) :
  0 <= n < 2 ^ 53 -> Prim2SF x = whole n -> x = PyFloat.of_int n.
Proof.
  intros N E. apply Prim2SF_inj. now rewrite of_int_whole.
Qed.

Lemma sub_whole (x y : float) (a b : Z) :
  Prim2SF x = whole a -> Prim2SF y = whole b -> 0 <= b <= a -> a < 2 ^ 53 ->
  Prim2SF (x - y) = whole (a - b).
Proof.
  intros X Y B A. rewrite sub_spec, X, Y. unfold SF64sub. now apply SFsub_whole.
Qed.

Lemma add_whole (x y : float) (a b : Z) :
  Prim2SF x = whole a -> Prim2SF y = whole b -> 0 <= a -> 0 <= b -> a + b < 2 ^ 53 ->
  Prim2SF (x + y) = whole (a + b).
Proof.
  intros X Y A B S. rewrite add_spec, X, Y. unfold SF64add. now apply SFadd_whole.
Qed.

Lemma mul_whole (x y : float) (a b : Z) :
  Prim2SF x = whole a -> Prim2SF y = whole b -> 0 <= a -> 0 <= b -> a * b < 2 ^ 53 ->
  Prim2SF (x * y) = whole (a * b).
Proof.
  intros X Y A B S. rewrite mul_spec, X, Y. unfold SF64mul. now apply SFmul_whole.
Qed.

Lemma div_whole (x y : float) (a b : Z) :
  Prim2SF x = whole a -> Prim2SF y = whole b -> 0 <= a < 2 ^ 53 -> 0 < b < 2 ^ 53 ->
  (b | a) -> Prim2SF (x / y) = whole (a / b).
Proof.
  intros X Y A B D. rewrite div_spec, X, Y. unfold SF64div. now apply SFdiv_whole.
Qed.

Lemma fmod_whole (x y : float) (a b : Z) :
  Prim2SF x = whole a -> Prim2SF y = whole b -> 0 <= a < 2 ^ 53 -> 0 < b < 2 ^ 53 ->
  Prim2SF (PyFloat.fmod x y) = whole (a mod b).
Proof.
  intros X Y A B. unfold PyFloat.fmod. rewrite X, Y, SFfmod_whole by assumption.
  apply whole_prim. pose proof (Z.mod_pos_bound a b ltac:(lia)). lia.
Qed.

Lemma eqb_zero_whole (x : float) (n : Z) :
  Prim2SF x = whole n -> 0 <= n -> (x =? 0)%float = (n =? 0).
Proof.
  intros X N. rewrite eqb_spec, X. change (Prim2SF 0) with (S754_zero false).
  destruct n; try lia; reflexivity.
Qed.

Lemma ltb_zero_whole (x : float) (n : Z) :
  Prim2SF x = whole n -> (x <? 0)%float = false.
Proof.
  intros X. rewrite ltb_spec, X. change (Prim2SF 0) with (S754_zero false).
  destruct n; reflexivity.
Qed.

Lemma get_sign_nonneg (x : float) : nonneg x = true -> get_sign x = false.
Proof.
  unfold nonneg. intros N. unfold get_sign, is_zero.
  destruct (Prim2SF x) as [[]|[]| |[] m e] eqn:E; try discriminate N.
  - apply float_of_SF in E. subst x. vm_compute. reflexivity.
  - apply float_of_SF in E. subst x. vm_compute. reflexivity.
  - rewrite eqb_spec, E. change (Prim2SF zero) with (S754_zero false).
    cbn [SFeqb SFcompare]. rewrite ltb_spec, E. reflexivity.
Qed.

Lemma floor_whole (x : float) (n : Z) :
  Prim2SF x = whole n -> 0 <= n < 2 ^ 53 -> Prim2SF (PyFloat.floor x) = whole n.
Proof.
  intros X N. unfold PyFloat.floor. rewrite X.
  destruct (Z.eq_dec n 0) as [->|NZ]; [exact X|].
  destruct (whole_finite n ltac:(lia)) as (M & E & W & _ & R & V). rewrite W.
  destruct (0 <=? E); [now rewrite X, W|].
  cbn [cond_Zopp]. rewrite Z.shiftl_div_pow2, V, Z.div_mul by (try apply Z.pow_nonzero; lia).
  rewrite <- W. now apply of_int_whole.
Qed.

Lemma to_int_whole (x : float) (n : Z) :
  Prim2SF x = whole n -> 0 <= n < 2 ^ 53 -> PyFloat.to_int x = Some n.
Proof.
  intros X N. unfold PyFloat.to_int. rewrite X.
  destruct (Z.eq_dec n 0) as [->|NZ]; [reflexivity|].
  destruct (whole_finite n ltac:(lia)) as (M & E & W & _ & R & V). rewrite W.
  cbn [cond_Zopp]. rewrite Z.shiftl_div_pow2, V, Z.div_mul by (try apply Z.pow_nonzero; lia).
  reflexivity.
Qed.

Lemma whole_nonneg (x : float) (n : Z) : Prim2SF x = whole n -> nonneg x = true.
Proof. unfold nonneg. intros ->. destruct n; reflexivity. Qed.

(** [x // w] and [x % w] on whole numbers are the quotient and the
    remainder of the integers. *)
Lemma floordiv_whole (x w : float) (a b : Z) :
  Prim2SF x = whole a -> Prim2SF w = whole b -> 0 <= a < 2 ^ 53 -> 0 < b < 2 ^ 53 ->
  exists h, PyFloat.floordiv x w = Some h /\ Prim2SF h = whole (a / b).
Proof.
  intros X W A B. unfold PyFloat.floordiv, PyFloat.nonzero.
  pose proof (Z.mod_pos_bound a b ltac:(lia)) as R.
  pose proof (Z.div_mod a b ltac:(lia)) as DM.
  assert (Q : 0 <= a / b <= a).
  { split; [apply Z.div_pos; lia|]. apply Z.div_le_upper_bound; nia. }
  pose proof (fmod_whole x w a b X W A B) as M.
  pose proof (sub_whole x _ a (a mod b) X M ltac:(nia) ltac:(lia)) as S.
  assert (D : Prim2SF ((x - PyFloat.fmod x w) / w) = whole (a / b)).
  { replace (a / b) with ((a - a mod b) / b).
    - apply div_whole; [exact S | exact W | lia | lia |].
      exists (a / b). lia.
    - replace (a - a mod b) with (a / b * b) by lia. apply Z.div_mul. lia. }
  rewrite (eqb_zero_whole w b W ltac:(lia)).
  replace (b =? 0) with false by (symmetry; apply Z.eqb_neq; lia).
  rewrite (ltb_zero_whole w b W), (ltb_zero_whole _ _ M). cbn [xorb].
  rewrite andb_false_r.
  rewrite (eqb_zero_whole _ _ D ltac:(lia)).
  destruct (Z.eqb_spec (a / b) 0) as [Z0|NZ]; cbn [negb].
  - eexists. split; [reflexivity|]. rewrite Z0.
    unfold PyFloat.zero_with_sign_of. rewrite get_sign_nonneg; [reflexivity|].
    unfold nonneg. rewrite div_spec, X, W. unfold SF64div.
    now apply SFdiv_whole_nonneg.
  - eexists. split; [reflexivity|].
    pose proof (floor_whole _ _ D ltac:(lia)) as F.
    pose proof (sub_whole _ _ _ _ D F ltac:(lia) ltac:(lia)) as Z.
    rewrite Z.sub_diag in Z. rewrite ltb_spec, Z.
    replace (SFltb (Prim2SF 0.5) (whole 0)) with false by (vm_compute; reflexivity).
    exact F.
Qed.

Lemma rem_whole (x w : float) (a b : Z) :
  Prim2SF x = whole a -> Prim2SF w = whole b -> 0 <= a < 2 ^ 53 -> 0 < b < 2 ^ 53 ->
  exists r, PyFloat.rem x w = Some r /\ Prim2SF r = whole (a mod b).
Proof.
  intros X W A B. unfold PyFloat.rem, PyFloat.nonzero.
  pose proof (Z.mod_pos_bound a b ltac:(lia)) as R.
  pose proof (fmod_whole x w a b X W A B) as M.
  rewrite (eqb_zero_whole w b W ltac:(lia)).
  replace (b =? 0) with false by (symmetry; apply Z.eqb_neq; lia).
  rewrite (ltb_zero_whole w b W), (ltb_zero_whole _ _ M). cbn [xorb].
  rewrite (eqb_zero_whole _ _ M ltac:(lia)).
  destruct (Z.eqb_spec (a mod b) 0) as [Z0|NZ]; cbn [negb].
  - eexists. split; [reflexivity|]. rewrite Z0.
    unfold PyFloat.zero_with_sign_of.
    now rewrite (get_sign_nonneg w (whole_nonneg w b W)).
  - eexists. split; [reflexivity | exact M].
Qed.

(** ** [format_time_full] on whole seconds *)

Lemma format_time_full_whole (x : float) (n : Z) :
  Prim2SF x = whole n -> 0 <= n < 2 ^ 53 ->
  format_time_full x
  = Some (format_int_zero 2 (n / 3600) ++ ":" ++ format_int_zero 2 (n mod 3600 / 60)
          ++ ":" ++ format_int_zero 2 (n mod 60) ++ ":" ++ "000").
Proof.
  intros X N. unfold format_time_full.
  assert (W3600 : Prim2SF 3600 = whole 3600) by (vm_compute; reflexivity).
  assert (W60 : Prim2SF 60 = whole 60) by (vm_compute; reflexivity).
  assert (W1000 : Prim2SF 1000 = whole 1000) by (vm_compute; reflexivity).
  assert (B : 3600 < 2 ^ 53 /\ 60 < 2 ^ 53) by (split; reflexivity).
  pose proof (Z.mod_pos_bound n 3600 ltac:(lia)) as R1.
  pose proof (Z.mod_pos_bound n 60 ltac:(lia)) as R2.
  assert (Q1 : 0 <= n / 3600 <= n).
  { split; [apply Z.div_pos; lia|]. apply Z.div_le_upper_bound; lia. }
  assert (Q2 : 0 <= n mod 3600 / 60 <= n mod 3600).
  { split; [apply Z.div_pos; lia|]. apply Z.div_le_upper_bound; lia. }
  destruct (floordiv_whole x 3600 n 3600 X W3600 N ltac:(lia)) as (h & -> & H).
  cbn [obind]. rewrite (to_int_whole h _ H) by lia. cbn [obind].
  destruct (rem_whole x 3600 n 3600 X W3600 N ltac:(lia)) as (r & -> & R).
  cbn [obind].
  destruct (floordiv_whole r 60 _ 60 R W60 ltac:(lia) ltac:(lia)) as (m & -> & M).
  cbn [obind]. rewrite (to_int_whole m _ M) by lia. cbn [obind].
  destruct (rem_whole x 60 n 60 X W60 N ltac:(lia)) as (s & -> & S).
  cbn [obind]. rewrite (to_int_whole s _ S) by lia. cbn [obind].
  rewrite (to_int_whole x n X N). cbn [obind].
  pose proof (sub_whole x _ n n X (of_int_whole n N) ltac:(lia) ltac:(lia)) as Z.
  rewrite Z.sub_diag in Z.
  pose proof (mul_whole _ 1000 0 1000 Z W1000 ltac:(lia) ltac:(lia) ltac:(reflexivity)) as T.
  rewrite (to_int_whole _ _ T) by (simpl; lia). reflexivity.
Qed.

(** X16. On a whole number of seconds [n] below 2^53, [format_time_full]
    raises nothing and prints the hours [n // 3600], the minutes
    [n % 3600 // 60] and the seconds [n % 60] of the integer, each padded
    to two digits, and 000 for the milliseconds. *)
Theorem format_time_full_whole_seconds (n : Z) :
  0 <= n < 2 ^ 53 ->
  format_time_full (PyFloat.of_int n)
  = Some (format_int_zero 2 (n / 3600) ++ ":" ++ format_int_zero 2 (n mod 3600 / 60)
          ++ ":" ++ format_int_zero 2 (n mod 60) ++ ":" ++ "000").
Proof.
  intros N. apply format_time_full_whole; [now apply of_int_whole | exact N].
Qed.

Lemma format_time_full_whole_seconds_witness :
  format_time_full 867 = Some "00:14:27:000".
Proof.
  exact (format_time_full_whole_seconds 867 ltac:(split; [lia | reflexivity])).
Defined.

(** ** Decimal digits *)

Lemma digits_value_of_uint_acc (u : Decimal.uint) :
  forall acc,
  PyFloat.digits_value (Z.pos acc) (NilEmpty.string_of_uint u)
  = Z.pos (Pos.of_uint_acc u acc).
Proof.
  induction u as [|u IH|u IH|u IH|u IH|u IH|u IH|u IH|u IH|u IH|u IH]; intros acc;
    cbn [NilEmpty.string_of_uint PyFloat.digits_value Pos.of_uint_acc];
    [reflexivity | rewrite <- IH; f_equal; vm_compute (digit_value _); lia ..].
Qed.

Lemma digits_value_of_uint (u : Decimal.uint) :
  PyFloat.digits_value 0 (NilEmpty.string_of_uint u) = Z.of_N (Pos.of_uint u).
Proof.
  induction u as [|u IH|u IH|u IH|u IH|u IH|u IH|u IH|u IH|u IH|u IH];
    cbn [NilEmpty.string_of_uint PyFloat.digits_value Pos.of_uint];
    [reflexivity | exact IH
    | cbn [Z.of_N]; rewrite <- digits_value_of_uint_acc; f_equal ..].
Qed.

Lemma string_of_uint_digits (u : Decimal.uint) :
  all_chars is_digit (NilEmpty.string_of_uint u) = true.
Proof.
  induction u; cbn [NilEmpty.string_of_uint all_chars]; [reflexivity | exact IHu ..].
Qed.

Lemma decimal_digits_spec (n : Z) :
  0 <= n ->
  digits (decimal_digits n) = true /\ PyFloat.digits_value 0 (decimal_digits n) = n.
Proof.
  intros N. unfold decimal_digits.
  assert (V : Z.of_N (N.of_uint (N.to_uint (Z.abs_N n))) = n).
  { rewrite DecimalN.Unsigned.of_to, N2Z.inj_abs_N. now apply Z.abs_eq. }
  revert V. generalize (N.to_uint (Z.abs_N n)). intros u V.
  unfold N.of_uint in V. unfold NilZero.string_of_uint.
  destruct u;
    [split; [reflexivity | cbn in V; rewrite <- V; reflexivity]
    | (split;
       [unfold digits; rewrite string_of_uint_digits, andb_true_r; reflexivity
       | rewrite digits_value_of_uint; exact V]) ..].
Qed.

Lemma repeat_zero_spec (k : nat) :
  all_chars is_digit (repeat_char "0" k) = true
  /\ PyFloat.digits_value 0 (repeat_char "0" k) = 0.
Proof. induction k as [|k [A V]]; cbn; [split; reflexivity | now split]. Qed.

(** A number that is not negative is printed as digits that write it. *)
Lemma format_int_zero_spec (width : nat) (n : Z) :
  0 <= n ->
  digits (format_int_zero width n) = true
  /\ PyFloat.digits_value 0 (format_int_zero width n) = n.
Proof.
  intros N. unfold format_int_zero.
  replace (n <? 0) with false by (symmetry; apply Z.ltb_ge; exact N).
  cbn [append String.length Nat.add].
  destruct (decimal_digits_spec n N) as [D V].
  destruct (repeat_zero_spec (width - String.length (decimal_digits n))) as [A Z].
  split.
  - unfold digits. rewrite all_chars_app, A, (digits_all _ D), andb_true_r.
    apply negb_true_iff. apply String.eqb_neq. intros E.
    apply (f_equal String.length) in E. rewrite length_app in E.
    destruct (digits_inv _ D) as (c & r & X & _). rewrite X in E. simpl in E. lia.
  - now rewrite digits_value_app, Z.
Qed.

Lemma digits_no_colon (s : string) :
  digits s = true -> all_chars (fun x => negb (Ascii.eqb x ":")) s = true.
Proof.
  intros D. apply (all_chars_weaken is_digit); [|now apply digits_all].
  intros c C. apply digit_facts in C as (_ & _ & _ & _ & C & _). now rewrite C.
Qed.

Lemma read_number_whole (ds : string) :
  digits ds = true -> PyFloat.digits_value 0 ds < 2 ^ 53 ->
  Prim2SF (read_number ds None) = whole (PyFloat.digits_value 0 ds).
Proof.
  intros D B.
  destruct (read_number_spec ds None (digits_all ds D) eq_refl) as (P & _ & E & _).
  cbn [fraction String.length Z.of_nat] in *. rewrite app_empty_r in *.
  rewrite E. change (10 ^ 0) with 1. apply SF_of_ratio_whole. lia.
Qed.

(** Hours, minutes and seconds written as digits add up without rounding. *)
Lemma whole_time (h m s : float) (H M S : Z) :
  Prim2SF h = whole H -> Prim2SF m = whole M -> Prim2SF s = whole S ->
  0 <= H -> 0 <= M -> 0 <= S -> H * 3600 + M * 60 + S < 2 ^ 53 ->
  Prim2SF (h * 3600 + m * 60 + s) = whole (H * 3600 + M * 60 + S).
Proof.
  intros Wh Wm Ws PH PM PS B.
  assert (W3600 : Prim2SF 3600 = whole 3600) by (vm_compute; reflexivity).
  assert (W60 : Prim2SF 60 = whole 60) by (vm_compute; reflexivity).
  pose proof (mul_whole h 3600 H 3600 Wh W3600 PH ltac:(lia) ltac:(lia)) as A1.
  pose proof (mul_whole m 60 M 60 Wm W60 PM ltac:(lia) ltac:(lia)) as A2.
  pose proof (add_whole _ _ _ _ A1 A2 ltac:(lia) ltac:(lia) ltac:(lia)) as A3.
  exact (add_whole _ _ _ _ A3 Ws ltac:(lia) PS B).
Qed.

(** X17. Round trip on whole seconds: for a whole number of seconds [n]
    below 2^53, the text that [format_time_full] prints is read back by
    [time_str_to_seconds] as [n] exactly (the fourth field, the
    milliseconds, is not read). *)
Theorem whole_seconds_round_trip (n : Z) :
  0 <= n < 2 ^ 53 ->
  exists text, format_time_full (PyFloat.of_int n) = Some text
               /\ time_str_to_seconds text = PyFloat.of_int n.
Proof.
  intros N. eexists.
  split; [apply format_time_full_whole; [now apply of_int_whole | exact N]|].
  pose proof (Z.mod_pos_bound n 3600 ltac:(lia)) as R1.
  pose proof (Z.mod_pos_bound n 60 ltac:(lia)) as R2.
  pose proof (Z.div_mod n 3600 ltac:(lia)) as E1.
  pose proof (Z.div_mod (n mod 3600) 60 ltac:(lia)) as E2.
  assert (E3 : (n mod 3600) mod 60 = n mod 60).
  { symmetry. rewrite E1 at 1. replace (3600 * (n / 3600)) with (60 * (n / 3600) * 60) by lia.
    rewrite Z.add_comm. apply Z.mod_add. lia. }
  assert (Q1 : 0 <= n / 3600) by (apply Z.div_pos; lia).
  assert (Q2 : 0 <= n mod 3600 / 60) by (apply Z.div_pos; lia).
  destruct (format_int_zero_spec 2 (n / 3600) Q1) as [Dh Vh].
  destruct (format_int_zero_spec 2 (n mod 3600 / 60) Q2) as [Dm Vm].
  destruct (format_int_zero_spec 2 (n mod 60) ltac:(lia)) as [Ds Vs].
  unfold time_str_to_seconds.
  rewrite later_fields_not_read by now apply digits_no_colon.
  change (?a ++ ":" ++ ?b ++ ":" ++ ?c) with (a ++ String ":" (b ++ String ":" (written c None))).
  rewrite time_str_to_seconds_try_written by (assumption || reflexivity).
  apply float_whole; [exact N|].
  replace n with (n / 3600 * 3600 + n mod 3600 / 60 * 60 + n mod 60) at 4 by lia.
  pose proof (read_number_whole _ Dh) as Wh. rewrite Vh in Wh.
  pose proof (read_number_whole _ Dm) as Wm. rewrite Vm in Wm.
  pose proof (read_number_whole _ Ds) as Ws. rewrite Vs in Ws.
  apply whole_time; try lia; [apply Wh | apply Wm | apply Ws]; lia.
Qed.

Lemma whole_seconds_round_trip_witness :
  exists text, format_time_full 3723 = Some text /\ time_str_to_seconds text = 3723%float.
Proof.
  exact (whole_seconds_round_trip 3723 ltac:(split; [lia | reflexivity])).
Defined.

(** ** Whole offsets and durations, as printed *)

Lemma SF_of_ratio_quotient (p q : Z) :
  0 <= p -> 0 < q -> (q | p) -> p / q < 2 ^ 53 ->
  PyFloat.SF_of_ratio p q = whole (p / q).
Proof.
  intros P Q [c C] B.
  assert (E : p / q = c) by (subst p; apply Z.div_mul; lia).
  rewrite E in *. pose proof (Zdigits2_pos q Q) as Dq.
  unfold PyFloat.SF_of_ratio, SFdiv_core_binary. rewrite fexp_eq.
  destruct (Z.eq_dec c 0) as [->|NZ].
  - subst p. cbn [Z.mul Zdigits2].
    set (e := Z.min _ _).
    assert (Le : -1074 <= e <= 0) by (unfold e; lia).
    destruct (0 - 0 - e) as [|s|s]; rewrite ?Z.shiftl_0_l; cbn [Z.div_eucl];
      rewrite new_location_exact; now apply binary_round_aux_zero.
  - assert (Pc : 0 < c) by nia.
    assert (Pp : 0 < p) by nia.
    pose proof (Zdigits2_bounds c Pc) as [Lc Uc].
    pose proof (Zdigits2_bounds q Q) as [Lq Uq].
    pose proof (Zdigits2_bounds p Pp) as [Lp Up].
    pose proof (Zdigits2_pos c Pc) as Dc. pose proof (Zdigits2_pos p Pp) as Dp.
    pose proof (Zdigits2_below c 53 ltac:(lia) ltac:(lia)) as Bc.
    assert (D1 : Zdigits2 p <= Zdigits2 c + Zdigits2 q).
    { apply Zdigits2_below; [|lia]. rewrite Z.pow_add_r by lia. nia. }
    assert (D2 : Zdigits2 q <= Zdigits2 p) by (apply Zdigits2_mono; nia).
    set (e := Z.min (Z.max (Zdigits2 p + 0 - (Zdigits2 q + 0) - 53) (-1074)) (0 - 0)).
    assert (Le : e <= 0 /\ e <= Zdigits2 c - 53 /\ -53 <= e) by (unfold e; lia).
    assert (X : match 0 - 0 - e with
                | 0 => p
                | Z.pos _ => Z.shiftl p (0 - 0 - e)
                | Z.neg _ => 0
                end = c * 2 ^ (- e) * q).
    { destruct (0 - 0 - e) as [|s|s] eqn:S; try lia.
      - replace (- e) with 0 by lia. lia.
      - rewrite Z.shiftl_mul_pow2 by lia. rewrite <- S.
        replace (0 - 0 - e) with (- e) by lia. nia. }
    rewrite X, div_eucl_div_mod, Z.div_mul, Z.mod_mul by lia.
    rewrite new_location_exact.
    apply binary_round_aux_whole; [lia | lia | reflexivity].
Qed.

Lemma digits_value_zeros (z : string) :
  all_chars (Ascii.eqb "0") z = true ->
  forall acc, PyFloat.digits_value acc z = acc * 10 ^ Z.of_nat (String.length z).
Proof.
  induction z as [|c z IH]; intros A acc.
  - simpl. lia.
  - cbn [all_chars] in A. apply andb_true_iff in A as [C A].
    apply Ascii.eqb_eq in C. subst c.
    cbn [PyFloat.digits_value String.length]. rewrite (IH A).
    change (digit_value "0") with 0.
    rewrite Nat2Z.inj_succ, Z.pow_succ_r by lia. ring.
Qed.

(** A number written with a fraction of zeros only is the whole number
    before the point, exactly. *)
Lemma read_number_whole_part (ip : string) (fp : option string) :
  digits ip = true -> all_chars (Ascii.eqb "0") (fraction fp) = true ->
  PyFloat.digits_value 0 ip < 2 ^ 53 ->
  Prim2SF (read_number ip fp) = whole (PyFloat.digits_value 0 ip).
Proof.
  intros D Z B.
  assert (F : all_chars is_digit (fraction fp) = true).
  { revert Z. apply all_chars_weaken. intros c C. apply Ascii.eqb_eq in C. now subst c. }
  destruct (read_number_spec ip fp (digits_all ip D) F) as (P & Q & E & _).
  rewrite E, digits_value_app, (digits_value_zeros _ Z).
  destruct (digits_value_bounds ip (digits_all ip D) 0 ltac:(lia)) as [L _].
  rewrite SF_of_ratio_quotient.
  - now rewrite Z.div_mul by lia.
  - nia.
  - exact Q.
  - now exists (PyFloat.digits_value 0 ip).
  - now rewrite Z.div_mul by lia.
Qed.

Lemma unit_number_whole (n : option string) :
  unit_ok n = true -> unit_value n < 2 ^ 53 ->
  Prim2SF (unit_number n) = whole (unit_value n) /\ 0 <= unit_value n.
Proof.
  destruct n as [ds|]; cbn [unit_ok unit_number unit_value]; intros D B.
  - split; [now apply read_number_whole|].
    now destruct (digits_value_bounds ds (digits_all ds D) 0 ltac:(lia)).
  - split; [reflexivity | lia].
Qed.

Lemma clock_of_whole (x : float) (H M S : Z) :
  Prim2SF x = whole (H * 3600 + M * 60 + S) ->
  0 <= H -> 0 <= M < 60 -> 0 <= S < 60 -> H * 3600 + M * 60 + S < 2 ^ 53 ->
  format_time_full x = Some (clock_text H M S).
Proof.
  intros X PH PM PS B. rewrite (format_time_full_whole x _ X) by lia.
  unfold clock_text.
  assert (E1 : (H * 3600 + M * 60 + S) / 3600 = H).
  { symmetry. apply (Z.div_unique _ _ _ (M * 60 + S)); lia. }
  assert (E2 : (H * 3600 + M * 60 + S) mod 3600 = M * 60 + S).
  { symmetry. apply (Z.mod_unique _ _ H); lia. }
  assert (E3 : (M * 60 + S) / 60 = M).
  { symmetry. apply (Z.div_unique _ _ _ S); lia. }
  assert (E4 : (H * 3600 + M * 60 + S) mod 60 = S).
  { symmetry. apply (Z.mod_unique _ _ (H * 60 + M)); lia. }
  now rewrite E1, E2, E3, E4.
Qed.

Lemma whole_offset (pre ws1 ws2 post : string) (oh om os : option string) :
  contains "START_TIME" pre = false ->
  all_chars isspace ws1 = true -> all_chars isspace ws2 = true ->
  unit_ok oh = true -> unit_ok om = true -> unit_ok os = true ->
  hms_text oh om (whole_seconds os) <> "" ->
  unit_value oh * 3600 + unit_value om * 60 + unit_value os < 2 ^ 53 ->
  exists offset,
    parse_ini_offset_try (assignment pre ws1 ws2 (hms_text oh om (whole_seconds os)) post)
    = Some offset
    /\ Prim2SF offset = whole (unit_value oh * 3600 + unit_value om * 60 + unit_value os)
    /\ 0 <= unit_value oh /\ 0 <= unit_value om /\ 0 <= unit_value os.
Proof.
  intros C W1 W2 H M S N B.
  assert (P : forall n, unit_ok n = true -> 0 <= unit_value n).
  { intros [ds|] D; cbn [unit_value]; [|lia].
    now destruct (digits_value_bounds ds (digits_all ds D) 0 ltac:(lia)). }
  pose proof (P oh H) as Ph. pose proof (P om M) as Pm. pose proof (P os S) as Ps.
  destruct (unit_number_whole oh H ltac:(lia)) as [Wh _].
  destruct (unit_number_whole om M ltac:(lia)) as [Wm _].
  destruct (unit_number_whole os S ltac:(lia)) as [Ws _].
  assert (Ss : seconds_ok (whole_seconds os) = true) by (destruct os; exact S).
  assert (Es : seconds_number (whole_seconds os) = unit_number os) by (now destruct os).
  eexists. split; [now apply parse_ini_offset_try_components|].
  rewrite Es. split; [now apply whole_time|]. auto.
Qed.

(** X18. A [START_TIME] made of components without fraction is read
    without any rounding: the offset is the whole number
    [hours * 3600 + minutes * 60 + seconds] exactly, and with minutes and
    seconds below 60 [format_time_full] prints it back as
    [HH:MM:SS:000] with the numbers that were written. *)
Theorem whole_offset_is_exact_and_printed_as_written
    (sys : system) (path pre ws1 ws2 post : string) (oh om os : option string) :
  read_text sys path
  = Some (assignment pre ws1 ws2 (hms_text oh om (whole_seconds os)) post) ->
  contains "START_TIME" pre = false ->
  all_chars isspace ws1 = true -> all_chars isspace ws2 = true ->
  unit_ok oh = true -> unit_ok om = true -> unit_ok os = true ->
  hms_text oh om (whole_seconds os) <> "" ->
  unit_value oh * 3600 + unit_value om * 60 + unit_value os < 2 ^ 53 ->
  parse_ini_offset sys path
  = PyFloat.of_int (unit_value oh * 3600 + unit_value om * 60 + unit_value os)
  /\ (unit_value om < 60 -> unit_value os < 60 ->
      format_time_full (parse_ini_offset sys path)
      = Some (clock_text (unit_value oh) (unit_value om) (unit_value os))).
Proof.
  intros R C W1 W2 H M S N B.
  destruct (whole_offset pre ws1 ws2 post oh om os C W1 W2 H M S N B)
    as (offset & E & W & Ph & Pm & Ps).
  assert (O : parse_ini_offset sys path = offset).
  { unfold parse_ini_offset. rewrite R. cbn [obind]. now rewrite E. }
  rewrite O. split.
  - apply float_whole; [lia | exact W].
  - intros Bm Bs. apply clock_of_whole; (assumption || lia).
Qed.

Lemma whole_offset_is_exact_and_printed_as_written_witness :
  let content := "START_TIME=" ++ String dquote ("10h36m22s" ++ String dquote "") in
  parse_ini_offset (with_sidecar (Some content)) "film.ts.ini" = 38182%float
  /\ format_time_full (parse_ini_offset (with_sidecar (Some content)) "film.ts.ini")
     = Some "10:36:22:000".
Proof.
  destruct (whole_offset_is_exact_and_printed_as_written
              (with_sidecar (Some ("START_TIME=" ++ String dquote ("10h36m22s" ++ String dquote ""))))
              "film.ts.ini" "" "" "" "" (Some "10") (Some "36") (Some "22"))
    as [E F]; try reflexivity; [discriminate|].
  split; [exact E|]. apply F; reflexivity.
Defined.

(** ** A whole run *)

Lemma detect_without_token (sys : system) (video ffmpeg : string) (total d t : float)
    (lines : list string) :
  (total =? 0)%float = false ->
  ffmpeg_stderr sys ffmpeg video d t = map Line lines ->
  Forall (fun l => contains "black_start:" l = false) lines ->
  detect_black_frames sys video ffmpeg total d t = Returned [].
Proof.
  intros T E F. unfold detect_black_frames. rewrite E.
  rewrite <- (app_nil_r (map Line lines)), detect_loop_lines.
  destruct (process_lines_without_token total lines T F
              {| black_frames := []; progress_shown := [] |}) as (st' & -> & B).
  cbn [detect_loop]. now rewrite B.
Qed.

(** X20. A time written with whole hours, minutes and seconds (digits, the
    seconds with no fraction or a fraction of zeros) is read by
    [time_str_to_seconds] without any rounding: the result is the whole
    number [hours * 3600 + minutes * 60 + seconds] exactly. *)
Theorem time_str_to_seconds_whole_is_exact (h m s : string) (f : option string) :
  digits h = true -> digits m = true -> digits s = true ->
  all_chars (Ascii.eqb "0") (fraction f) = true ->
  PyFloat.digits_value 0 h * 3600 + PyFloat.digits_value 0 m * 60
  + PyFloat.digits_value 0 s < 2 ^ 53 ->
  time_str_to_seconds (h ++ ":" ++ m ++ ":" ++ written s f)
  = PyFloat.of_int (PyFloat.digits_value 0 h * 3600 + PyFloat.digits_value 0 m * 60
                    + PyFloat.digits_value 0 s).
Proof.
  intros Dh Dm Ds Z B.
  assert (P : forall x, digits x = true -> 0 <= PyFloat.digits_value 0 x).
  { intros x D. now destruct (digits_value_bounds x (digits_all x D) 0 ltac:(lia)). }
  pose proof (P h Dh). pose proof (P m Dm). pose proof (P s Ds).
  assert (Zd : all_chars is_digit (fraction f) = true).
  { revert Z. apply all_chars_weaken. intros c X. apply Ascii.eqb_eq in X. now subst c. }
  unfold time_str_to_seconds.
  change (h ++ ":" ++ m ++ ":" ++ written s f)
    with (h ++ String ":" (m ++ String ":" (written s f))).
  rewrite time_str_to_seconds_try_written by assumption.
  apply float_whole; [lia|].
  apply whole_time; try lia.
  - apply read_number_whole; [assumption | lia].
  - apply read_number_whole; [assumption | lia].
  - apply read_number_whole_part; [assumption | assumption | lia].
Qed.

Lemma time_str_to_seconds_whole_is_exact_witness :
  time_str_to_seconds "01:02:03.000" = 3723%float.
Proof.
  exact (time_str_to_seconds_whole_is_exact "01" "02" "03" (Some "000")
           eq_refl eq_refl eq_refl eq_refl eq_refl).
Defined.

(** X21. The report line of an interval whose start, end and duration are
    whole numbers of seconds, with a whole offset: the start and the end
    are printed as the sums with the offset, the duration as it is, each as
    [HH:MM:SS:000]; nothing is rounded and nothing raises. *)
Theorem report_line_of_whole_seconds (offset : float) (seq : interval) (o a b c : Z) :
  Prim2SF offset = whole o -> Prim2SF (start seq) = whole a ->
  Prim2SF (end_ seq) = whole b -> Prim2SF (duration seq) = whole c ->
  0 <= o -> 0 <= a -> 0 <= b -> 0 <= c < 2 ^ 53 -> a + o < 2 ^ 53 -> b + o < 2 ^ 53 ->
  report_line offset seq
  = Some ("Début : " ++ clock_of_seconds (a + o) ++ ", Fin : " ++ clock_of_seconds (b + o)
          ++ ", Durée : " ++ clock_of_seconds c).
Proof.
  intros Wo Wa Wb Wc Po Pa Pb Pc Ba Bb. unfold report_line.
  pose proof (add_whole _ _ _ _ Wa Wo Pa Po Ba) as Sa.
  pose proof (add_whole _ _ _ _ Wb Wo Pb Po Bb) as Sb.
  rewrite (format_time_full_whole _ _ Sa) by lia.
  rewrite (format_time_full_whole _ _ Sb) by lia.
  rewrite (format_time_full_whole _ _ Wc) by lia.
  reflexivity.
Qed.

Lemma report_line_of_whole_seconds_witness :
  report_line 38182 {| start := 5; end_ := 7; duration := 2 |}
  = Some "Début : 10:36:27:000, Fin : 10:36:29:000, Durée : 00:00:02:000".
Proof.
  apply (report_line_of_whole_seconds 38182 {| start := 5; end_ := 7; duration := 2 |}
           38182 5 7 2);
    first [ lia | reflexivity | split; [lia | reflexivity] | vm_compute; reflexivity ].
Defined.

(** ** Exact arithmetic on a binary grid *)

Lemma dyadic_pack (n e : Z) :
  0 < n < 2 ^ 53 -> -1074 <= e <= 0 ->
  let t := Z.max (Zdigits2 n + e - 53) (-1074) in
  dyadic n e = S754_finite false (Z.to_pos (n * 2 ^ (e - t))) t
  /\ 1 <= Zdigits2 n <= 53 /\ -1074 <= t <= e
  /\ 0 < n * 2 ^ (e - t)
  /\ Zdigits2 (n * 2 ^ (e - t)) = Zdigits2 n + (e - t).
Proof.
  intros [N U] E t. pose proof (Zdigits2_pos n N) as D.
  pose proof (Zdigits2_below n 53 ltac:(lia) ltac:(lia)) as B.
  split; [destruct n; try lia; reflexivity|]. split; [lia|].
  assert (T : -1074 <= t <= e) by (unfold t; lia). split; [exact T|].
  pose proof (pow2_pos (e - t) ltac:(lia)). split; [nia|].
  apply Zdigits2_scale; lia.
Qed.

Lemma whole_dyadic (n : Z) : 0 <= n < 2 ^ 53 -> whole n = dyadic n 0.
Proof.
  intros N. destruct n as [|p|p]; try lia; [reflexivity|].
  cbn [whole dyadic].
  pose proof (Zdigits2_pos (Z.pos p) ltac:(lia)).
  replace (Z.max (Zdigits2 (Z.pos p) + 0 - 53) (-1074)) with (Zdigits2 (Z.pos p) - 53) by lia.
  replace (0 - (Zdigits2 (Z.pos p) - 53)) with (53 - Zdigits2 (Z.pos p)) by lia.
  reflexivity.
Qed.

(** A mantissa and exponent that stand for [n * 2^e] round to it. *)
Lemma binary_round_aux_dyadic (m e0 n e : Z) :
  0 < n < 2 ^ 53 -> -1074 <= e <= 0 ->
  e0 <= Z.max (Zdigits2 n + e - 53) (-1074) -> m = n * 2 ^ (e - e0) ->
  binary_round_aux prec emax false m e0 loc_Exact = dyadic n e.
Proof.
  intros N E L Hm. destruct (dyadic_pack n e N E) as (W & D & T & MP & DM).
  cbv zeta in *. rewrite W.
  set (d := Zdigits2 n) in *. set (t := Z.max (d + e - 53) (-1074)) in *.
  set (M := n * 2 ^ (e - t)) in *.
  assert (Hm' : m = M * 2 ^ (t - e0)).
  { unfold M. rewrite scale_scale by lia. rewrite Hm. f_equal. f_equal. lia. }
  assert (Dm : Zdigits2 m = d + (e - e0)).
  { rewrite Hm. apply Zdigits2_scale; lia. }
  unfold binary_round_aux.
  rewrite (shr_fexp_whole m e0 t M) by (try rewrite fexp_eq; lia).
  cbn [shr_m loc_of_shr_record round_nearest_even].
  rewrite shr_fexp_exact by (rewrite fexp_eq; lia).
  cbn [shr_m]. destruct M as [|q|q] eqn:EM; try lia.
  replace (t <=? emax - prec) with true; [reflexivity|].
  symmetry. apply Z.leb_le. change (emax - prec) with 971. lia.
Qed.

Lemma binary_round_dyadic (m : positive) (e0 n e : Z) :
  0 < n < 2 ^ 53 -> -1074 <= e <= 0 -> e0 <= e -> Z.pos m = n * 2 ^ (e - e0) ->
  binary_round prec emax false m e0 = dyadic n e.
Proof.
  intros N E L Hm. destruct (dyadic_pack n e N E) as (_ & D & _).
  assert (Dm : Z.pos (digits2_pos m) = Zdigits2 n + (e - e0)).
  { change (Z.pos (digits2_pos m)) with (Zdigits2 (Z.pos m)). rewrite Hm.
    apply Zdigits2_scale; lia. }
  unfold binary_round. rewrite Dm, fexp_eq.
  destruct (shl_align_spec m e0 (Z.max (Zdigits2 n + (e - e0) + e0 - 53) (-1074)))
    as [S1 S2].
  destruct (shl_align m e0 _) as [mz ez]. cbn [fst snd] in S1, S2.
  apply (binary_round_aux_dyadic _ _ n e); [exact N | exact E | lia |].
  rewrite S2, Hm, scale_scale by lia. f_equal. f_equal. lia.
Qed.

Lemma normalize_dyadic (m e0 n e : Z) :
  0 <= n < 2 ^ 53 -> -1074 <= e <= 0 -> e0 <= e -> m = n * 2 ^ (e - e0) ->
  binary_normalize prec emax m e0 false = dyadic n e.
Proof.
  intros N E L Hm. pose proof (pow2_pos (e - e0) ltac:(lia)) as P.
  destruct (Z.eq_dec n 0) as [->|NZ].
  - subst m. reflexivity.
  - destruct m as [|p|p]; try nia. cbn [binary_normalize].
    apply (binary_round_dyadic _ _ n e); (assumption || lia).
Qed.

Lemma dyadic_valid (n e : Z) :
  0 <= n < 2 ^ 53 -> -1074 <= e <= 0 ->
  SpecFloat.valid_binary prec emax (dyadic n e) = true.
Proof.
  intros N E. destruct (Z.eq_dec n 0) as [->|NZ]; [reflexivity|].
  destruct (dyadic_pack n e ltac:(lia) E) as (W & D & T & MP & DM).
  cbv zeta in *. rewrite W.
  cbn [valid_binary]. unfold bounded, canonical_mantissa.
  match goal with
  | |- context [Z.pos (digits2_pos (Z.to_pos ?v))] =>
      change (Z.pos (digits2_pos (Z.to_pos v))) with (Zdigits2 (Z.pos (Z.to_pos v)))
  end.
  rewrite Z2Pos.id by exact MP. rewrite DM, fexp_eq.
  apply andb_true_iff. split; [apply Z.eqb_eq; lia | apply Z.leb_le].
  change (emax - prec) with 971. lia.
Qed.

(** The mantissa and the exponent of a number on the grid, not zero. *)
Lemma dyadic_finite (n e : Z) :
  0 < n < 2 ^ 53 -> -1074 <= e <= 0 ->
  exists M T, dyadic n e = S754_finite false M T
              /\ -1074 <= T <= e /\ Z.pos M = n * 2 ^ (e - T).
Proof.
  intros N E. destruct (dyadic_pack n e N E) as (W & D & T & MP & _).
  cbv zeta in *. eexists _, _. split; [exact W|]. split; [exact T|].
  now rewrite Z2Pos.id by exact MP.
Qed.

(** The same number on a finer grid. *)
Lemma dyadic_finer (n e j : Z) :
  0 <= n -> n * 2 ^ j < 2 ^ 53 -> 0 <= j -> -1074 <= e - j -> e <= 0 ->
  dyadic (n * 2 ^ j) (e - j) = dyadic n e.
Proof.
  intros N B J E1 E2. pose proof (pow2_pos j J) as P.
  destruct (Z.eq_dec n 0) as [->|NZ]; [reflexivity|].
  destruct (dyadic_pack n e ltac:(nia) ltac:(lia)) as (W & D & T & MP & _).
  destruct (dyadic_pack (n * 2 ^ j) (e - j) ltac:(nia) ltac:(lia)) as (W' & D' & T' & MP' & _).
  cbv zeta in *. rewrite W, W'.
  rewrite Zdigits2_scale in * by lia.
  replace (Zdigits2 n + j + (e - j) - 53) with (Zdigits2 n + e - 53) in * by lia.
  f_equal. f_equal. rewrite scale_scale by lia. f_equal. f_equal. lia.
Qed.

Lemma aligned_dyadic (M : positive) (T ez n e : Z) :
  Z.pos M = n * 2 ^ (e - T) -> T <= e -> ez <= T ->
  Z.pos (fst (shl_align M T ez)) = n * 2 ^ (e - ez).
Proof.
  intros HM L1 L2. destruct (shl_align_spec M T ez) as [_ S].
  rewrite S, HM, scale_scale by lia. f_equal. f_equal. lia.
Qed.

Lemma SFsub_dyadic (a b e : Z) :
  0 <= b <= a -> a < 2 ^ 53 -> -1074 <= e <= 0 ->
  SFsub prec emax (dyadic a e) (dyadic b e) = dyadic (a - b) e.
Proof.
  intros B A E.
  destruct (Z.eq_dec b 0) as [->|Nb]; [rewrite Z.sub_0_r; destruct a; reflexivity|].
  destruct (dyadic_finite a e ltac:(lia) E) as (Ma & Ta & Wa & Ra & Va).
  destruct (dyadic_finite b e ltac:(lia) E) as (Mb & Tb & Wb & Rb & Vb).
  rewrite Wa, Wb. cbn [SFsub cond_Zopp].
  apply (normalize_dyadic _ _ (a - b) e); [lia | lia | lia |].
  rewrite (aligned_dyadic Ma Ta _ a e), (aligned_dyadic Mb Tb _ b e) by (assumption || lia).
  ring.
Qed.

Lemma SFfmod_dyadic (a e b : Z) :
  0 <= a < 2 ^ 53 -> -1074 <= e <= 0 -> 0 < b < 2 ^ 53 ->
  PyFloat.SFfmod (dyadic a e) (whole b) = dyadic (a mod (b * 2 ^ (- e))) e.
Proof.
  intros A E B. pose proof (pow2_pos (- e) ltac:(lia)) as Pe.
  destruct (whole_finite b B) as (Mb & Eb & Wb & Db & Rb & Vb). rewrite Wb.
  destruct (Z.eq_dec a 0) as [->|Na]; [reflexivity|].
  destruct (dyadic_finite a e ltac:(lia) E) as (Ma & Ta & Wa & Ra & Va). rewrite Wa.
  pose proof (Z.mod_pos_bound a (b * 2 ^ (- e)) ltac:(nia)) as R.
  assert (Ra' : a mod (b * 2 ^ (- e)) <= a) by (apply Z.mod_le; nia).
  cbn [PyFloat.SFfmod]. set (em := Z.min Ta Eb).
  rewrite !Z.shiftl_mul_pow2 by lia.
  assert (X : Z.rem (Z.pos Ma * 2 ^ (Ta - em)) (Z.pos Mb * 2 ^ (Eb - em))
              = (a mod (b * 2 ^ (- e))) * 2 ^ (e - em)).
  { rewrite Va, Vb, !scale_scale by lia.
    replace (e - Ta + (Ta - em)) with (e - em) by lia.
    replace (- Eb + (Eb - em)) with (- e + (e - em)) by lia.
    rewrite <- (scale_scale b) by lia.
    pose proof (pow2_pos (e - em) ltac:(lia)).
    rewrite Z.rem_mod_nonneg by nia.
    apply Z.mul_mod_distr_r; nia. }
  rewrite X. pose proof (pow2_pos (e - em) ltac:(lia)) as P.
  destruct (Z.eqb_spec ((a mod (b * 2 ^ (- e))) * 2 ^ (e - em)) 0) as [Z0|NZ].
  - replace (a mod (b * 2 ^ (- e))) with 0 by nia. reflexivity.
  - cbn [cond_Zopp].
    apply (normalize_dyadic _ _ _ e); [lia | lia | lia | reflexivity].
Qed.

(** *** On primitive floats *)

Lemma dyadic_prim (n e : Z) :
  0 <= n < 2 ^ 53 -> -1074 <= e <= 0 -> Prim2SF (SF2Prim (dyadic n e)) = dyadic n e.
Proof. intros N E. apply Prim2SF_SF2Prim. now apply dyadic_valid. Qed.

Lemma sub_dyadic (x y : float) (a b e : Z) :
  Prim2SF x = dyadic a e -> Prim2SF y = dyadic b e ->
  0 <= b <= a -> a < 2 ^ 53 -> -1074 <= e <= 0 ->
  Prim2SF (x - y) = dyadic (a - b) e.
Proof.
  intros X Y B A E. rewrite sub_spec, X, Y. unfold SF64sub. now apply SFsub_dyadic.
Qed.

Lemma fmod_dyadic (x w : float) (a e b : Z) :
  Prim2SF x = dyadic a e -> Prim2SF w = whole b ->
  0 <= a < 2 ^ 53 -> -1074 <= e <= 0 -> 0 < b < 2 ^ 53 ->
  Prim2SF (PyFloat.fmod x w) = dyadic (a mod (b * 2 ^ (- e))) e.
Proof.
  intros X W A E B. unfold PyFloat.fmod. rewrite X, W, SFfmod_dyadic by assumption.
  pose proof (pow2_pos (- e) ltac:(lia)).
  pose proof (Z.mod_pos_bound a (b * 2 ^ (- e)) ltac:(nia)).
  assert (a mod (b * 2 ^ (- e)) <= a) by (apply Z.mod_le; nia).
  apply dyadic_prim; lia.
Qed.

Lemma eqb_zero_dyadic (x : float) (n e : Z) :
  Prim2SF x = dyadic n e -> 0 <= n -> (x =? 0)%float = (n =? 0).
Proof.
  intros X N. rewrite eqb_spec, X. change (Prim2SF 0) with (S754_zero false).
  destruct n; try lia; reflexivity.
Qed.

Lemma ltb_zero_dyadic (x : float) (n e : Z) :
  Prim2SF x = dyadic n e -> (x <? 0)%float = false.
Proof.
  intros X. rewrite ltb_spec, X. change (Prim2SF 0) with (S754_zero false).
  destruct n; reflexivity.
Qed.

Lemma to_int_dyadic (x : float) (n e : Z) :
  Prim2SF x = dyadic n e -> 0 <= n < 2 ^ 53 -> -1074 <= e <= 0 ->
  PyFloat.to_int x = Some (n / 2 ^ (- e)).
Proof.
  intros X N E. unfold PyFloat.to_int. rewrite X.
  destruct (Z.eq_dec n 0) as [->|NZ]; [reflexivity|].
  destruct (dyadic_finite n e ltac:(lia) E) as (M & T & W & R & V). rewrite W.
  cbn [cond_Zopp]. rewrite Z.shiftl_div_pow2, V by lia. f_equal.
  replace (- T) with (- e + (e - T)) by lia.
  rewrite Z.pow_add_r by lia.
  apply Z.div_mul_cancel_r; apply Z.pow_nonzero; lia.
Qed.

(** The whole multiples of the divisor below a number on the grid. *)
Lemma grid_multiple (n e b : Z) :
  0 <= n < 2 ^ 53 -> -1074 <= e <= 0 -> 0 < b ->
  let q := n / (b * 2 ^ (- e)) in
  dyadic (n - n mod (b * 2 ^ (- e))) e = whole (b * q)
  /\ 0 <= q /\ 0 <= b * q <= n.
Proof.
  intros N E B q. pose proof (pow2_pos (- e) ltac:(lia)) as P.
  pose proof (Z.div_mod n (b * 2 ^ (- e)) ltac:(nia)) as DM.
  pose proof (Z.mod_pos_bound n (b * 2 ^ (- e)) ltac:(nia)) as R.
  assert (Q : 0 <= q) by (apply Z.div_pos; nia).
  assert (L : b * q * 2 ^ (- e) <= n) by (unfold q; nia).
  assert (L' : 0 <= b * q <= n) by nia.
  split; [|split; [exact Q | exact L']].
  rewrite whole_dyadic by lia.
  replace (n - n mod (b * 2 ^ (- e))) with (b * q * 2 ^ (- e)) by (unfold q; lia).
  replace e with (0 - - e) at 2 by lia.
  apply dyadic_finer; lia.
Qed.

(** [x // w] and [x % w] for a number on the grid and a whole divisor. *)
Lemma floordiv_dyadic (x w : float) (n e b : Z) :
  Prim2SF x = dyadic n e -> Prim2SF w = whole b ->
  0 <= n < 2 ^ 53 -> -1074 <= e <= 0 -> 0 < b < 2 ^ 53 ->
  exists h, PyFloat.floordiv x w = Some h
            /\ Prim2SF h = whole (n / (b * 2 ^ (- e))).
Proof.
  intros X W N E B. unfold PyFloat.floordiv, PyFloat.nonzero.
  pose proof (pow2_pos (- e) ltac:(lia)) as P.
  pose proof (Z.mod_pos_bound n (b * 2 ^ (- e)) ltac:(nia)) as R.
  assert (R' : n mod (b * 2 ^ (- e)) <= n) by (apply Z.mod_le; nia).
  destruct (grid_multiple n e b N E ltac:(lia)) as (G & Q & L).
  set (q := n / (b * 2 ^ (- e))) in *.
  pose proof (fmod_dyadic x w n e b X W N E B) as M.
  pose proof (sub_dyadic x _ n _ e X M ltac:(lia) ltac:(lia) E) as S.
  rewrite G in S.
  assert (D : Prim2SF ((x - PyFloat.fmod x w) / w) = whole q).
  { replace q with (b * q / b) by (rewrite Z.mul_comm; apply Z.div_mul; lia).
    apply div_whole; [exact S | exact W | lia | lia |].
    exists q. lia. }
  rewrite (eqb_zero_whole w b W ltac:(lia)).
  replace (b =? 0) with false by (symmetry; apply Z.eqb_neq; lia).
  rewrite (ltb_zero_whole w b W), (ltb_zero_dyadic _ _ _ M). cbn [xorb].
  rewrite andb_false_r.
  assert (Qb : q < 2 ^ 53) by nia.
  rewrite (eqb_zero_whole _ _ D ltac:(lia)).
  destruct (Z.eqb_spec q 0) as [Z0|NZ]; cbn [negb].
  - eexists. split; [reflexivity|]. rewrite Z0.
    unfold PyFloat.zero_with_sign_of. rewrite get_sign_nonneg; [reflexivity|].
    unfold nonneg. rewrite div_spec, X, W. unfold SF64div.
    destruct (Z.eq_dec n 0) as [->|NZn].
    + destruct (whole_finite b B) as (Mb & Eb & -> & _). reflexivity.
    + destruct (whole_finite b B) as (Mb & Eb & -> & _).
      destruct (dyadic_finite n e ltac:(lia) E) as (Mn & Tn & -> & _).
      cbn [SFdiv xorb]. unfold SFdiv_core_binary. rewrite div_eucl_div_mod.
      match goal with
      | |- SF_nonneg (binary_round_aux _ _ _ (?m / _) ?e0 ?l) = true =>
          assert (Pm : 0 <= m);
          [| destruct (binary_round_aux_shape false (m / Z.pos Mb) e0 l
                         ltac:(apply Z.div_pos; lia))
               as (m2 & m3 & e3 & _ & _ & P3 & _ & -> & _); now apply pack_nonneg ]
      end.
      match goal with |- 0 <= match ?s with _ => _ end => destruct s end;
        [lia | apply Z.shiftl_nonneg; lia | lia].
  - eexists. split; [reflexivity|].
    pose proof (floor_whole _ _ D ltac:(lia)) as F.
    pose proof (sub_whole _ _ _ _ D F ltac:(lia) ltac:(lia)) as Z.
    rewrite Z.sub_diag in Z. rewrite ltb_spec, Z.
    replace (SFltb (Prim2SF 0.5) (whole 0)) with false by (vm_compute; reflexivity).
    exact F.
Qed.

Lemma rem_dyadic (x w : float) (n e b : Z) :
  Prim2SF x = dyadic n e -> Prim2SF w = whole b ->
  0 <= n < 2 ^ 53 -> -1074 <= e <= 0 -> 0 < b < 2 ^ 53 ->
  exists r, PyFloat.rem x w = Some r
            /\ Prim2SF r = dyadic (n mod (b * 2 ^ (- e))) e.
Proof.
  intros X W N E B. unfold PyFloat.rem, PyFloat.nonzero.
  pose proof (pow2_pos (- e) ltac:(lia)) as P.
  pose proof (Z.mod_pos_bound n (b * 2 ^ (- e)) ltac:(nia)) as R.
  pose proof (fmod_dyadic x w n e b X W N E B) as M.
  rewrite (eqb_zero_whole w b W ltac:(lia)).
  replace (b =? 0) with false by (symmetry; apply Z.eqb_neq; lia).
  rewrite (ltb_zero_whole w b W), (ltb_zero_dyadic _ _ _ M). cbn [xorb].
  rewrite (eqb_zero_dyadic _ _ _ M ltac:(lia)).
  destruct (Z.eqb_spec (n mod (b * 2 ^ (- e))) 0) as [Z0|NZ]; cbn [negb].
  - eexists. split; [reflexivity|]. rewrite Z0.
    unfold PyFloat.zero_with_sign_of.
    now rewrite (get_sign_nonneg w (whole_nonneg w b W)).
  - eexists. split; [reflexivity | exact M].
Qed.

(** Every float from zero to below 2^53 lies on such a grid. *)
Lemma float_on_grid (x : float) :
  (0 <=? x)%float = true -> (x <? 9007199254740992)%float = true ->
  x = neg_zero
  \/ exists n e, Prim2SF x = dyadic n e /\ 0 <= n < 2 ^ 53 /\ -1074 <= e <= 0.
Proof.
  rewrite leb_spec, ltb_spec.
  change (Prim2SF 0) with (S754_zero false).
  replace (Prim2SF 9007199254740992) with (S754_finite false 4503599627370496 1)
    by (vm_compute; reflexivity).
  pose proof (Prim2SF_valid x) as V.
  destruct (Prim2SF x) as [[]|[]| |[] M E] eqn:P; try discriminate.
  - intros _ _. left. apply float_of_SF in P. rewrite P. vm_compute. reflexivity.
  - intros _ _. right. exists 0, 0. split; [reflexivity | lia].
  - intros _ L. right. exists (Z.pos M), E.
    cbn [valid_binary] in V. unfold bounded, canonical_mantissa in V.
    apply andb_true_iff in V as [C B]. apply Z.eqb_eq in C. apply Z.leb_le in B.
    change (Z.pos (digits2_pos M)) with (Zdigits2 (Z.pos M)) in C.
    rewrite fexp_eq in C.
    pose proof (Zdigits2_bounds (Z.pos M) ltac:(lia)) as [Lo Up].
    pose proof (Zdigits2_pos (Z.pos M) ltac:(lia)) as Dp.
    assert (D53 : Zdigits2 (Z.pos M) <= 53) by lia.
    assert (E0 : E <= 0).
    { unfold SFltb, SFcompare in L. destruct (Z.compare_spec E 1) as [E1|E1|E1];
        [|lia|discriminate].
      subst E. assert (D : Zdigits2 (Z.pos M) = 53) by lia. rewrite D in Lo.
      destruct (Pos.compare_cont Eq M 4503599627370496) eqn:Cmp; try discriminate.
      apply (proj1 (Pos.compare_lt_iff M 4503599627370496)) in Cmp.
      assert (P2 : 2 ^ (53 - 1) = 4503599627370496) by reflexivity.
      rewrite P2 in Lo. apply Pos2Z.pos_lt_pos in Cmp. lia. }
    assert (U : Z.pos M < 2 ^ 53).
    { assert (2 ^ Zdigits2 (Z.pos M) <= 2 ^ 53) by (apply Z.pow_le_mono_r; lia). lia. }
    split; [|lia]. cbn [dyadic].
    replace (Z.max (Zdigits2 (Z.pos M) + E - 53) (-1074)) with E by lia.
    rewrite Z.sub_diag, Z.mul_1_r. reflexivity.
Qed.

(** ** Rounding to nearest goes up by at most half a step *)

Lemma shr_1_r (mrs : shr_record) :
  0 <= shr_m mrs -> shr_r (shr_1 mrs) = Z.odd (shr_m mrs).
Proof.
  destruct mrs as [m r s]. cbn [shr_m]. intros H.
  destruct m as [|[p|p|]|p]; try reflexivity. lia.
Qed.

Lemma shr_1_nonneg (mrs : shr_record) : 0 <= shr_m mrs -> 0 <= shr_m (shr_1 mrs).
Proof. intros H. rewrite shr_1_m by exact H. apply Z.div_pos; lia. Qed.

Lemma iter_shr_nonneg (p : positive) (mrs : shr_record) :
  0 <= shr_m mrs -> 0 <= shr_m (iter_pos shr_1 p mrs).
Proof.
  intros H. rewrite iter_shr_m by exact H. apply Z.div_pos; [exact H | apply pow2_pos; lia].
Qed.

Lemma iter_shr_r (p : positive) :
  forall mrs, 0 <= shr_m mrs ->
  shr_r (iter_pos shr_1 p mrs) = Z.odd (shr_m mrs / 2 ^ (Z.pos p - 1)).
Proof.
  induction p as [p IH|p IH|]; intros mrs H; cbn [iter_pos].
  - rewrite IH by (apply iter_shr_nonneg; now apply shr_1_nonneg).
    rewrite iter_shr_m by now apply shr_1_nonneg.
    rewrite shr_1_m by exact H. f_equal.
    rewrite !Z.div_div
      by (first [ apply pow2_pos; lia
                | pose proof (pow2_pos (Z.pos p) ltac:(lia)); nia ]). f_equal.
    replace (Z.pos p~1 - 1) with (1 + Z.pos p + (Z.pos p - 1)) by lia.
    rewrite !Z.pow_add_r by lia. ring.
  - rewrite IH by now apply iter_shr_nonneg.
    rewrite iter_shr_m by exact H. f_equal.
    rewrite Z.div_div
      by (first [ apply pow2_pos; lia
                | pose proof (pow2_pos (Z.pos p) ltac:(lia)); lia ]). f_equal.
    replace (Z.pos p~0 - 1) with (Z.pos p + (Z.pos p - 1)) by lia.
    now rewrite Z.pow_add_r by lia.
  - rewrite shr_1_r by exact H. now rewrite Z.div_1_r.
Qed.

(** After a shift by [p] bits, the mantissa goes up only when the bits that
    were dropped make up half a step or more. *)
Lemma round_up_half (mx : Z) (p : positive) :
  0 <= mx ->
  let mrs := iter_pos shr_1 p {| shr_m := mx; shr_r := false; shr_s := false |} in
  let m2 := round_nearest_even (shr_m mrs) (loc_of_shr_record mrs) in
  0 <= m2 /\ 2 * 2 ^ (Z.pos p - 1) * m2 <= mx + 2 ^ (Z.pos p - 1).
Proof.
  intros H mrs m2.
  pose proof (iter_shr_m p {| shr_m := mx; shr_r := false; shr_s := false |} H) as Em.
  pose proof (iter_shr_r p {| shr_m := mx; shr_r := false; shr_s := false |} H) as Er.
  cbn [shr_m] in Em, Er. fold mrs in Em, Er.
  pose proof (pow2_pos (Z.pos p - 1) ltac:(lia)) as P.
  set (h := 2 ^ (Z.pos p - 1)) in *.
  assert (E2 : 2 ^ Z.pos p = 2 * h).
  { unfold h. rewrite <- Z.pow_succ_r by lia. f_equal. lia. }
  rewrite E2 in Em.
  pose proof (Z.div_mod mx (2 * h) ltac:(lia)) as D1.
  pose proof (Z.mod_pos_bound mx (2 * h) ltac:(lia)) as B1.
  assert (M1 : 0 <= mx / (2 * h)) by (apply Z.div_pos; lia).
  assert (R : shr_r mrs = true -> h <= mx mod (2 * h)).
  { intros T. rewrite T in Er. symmetry in Er.
    destruct (Z.lt_ge_cases (mx mod (2 * h)) h) as [C|C]; [|exact C].
    exfalso.
    assert (Q : mx / h = 2 * (mx / (2 * h))).
    { symmetry. apply (Z.div_unique _ _ _ (mx mod (2 * h))); lia. }
    rewrite Q, Z.odd_mul in Er. discriminate. }
  unfold m2. destruct mrs as [m r s]. cbn [shr_m shr_r] in *. subst m.
  destruct r, s; cbn [loc_of_shr_record round_nearest_even];
    try (specialize (R eq_refl)); try destruct (Z.even _); split; nia.
Qed.

Lemma SF_value_pack (m e : Z) :
  0 <= m -> (SF_value (pack false m e) <= inject_Z m * pow2 e)%Q.
Proof.
  intros H. pose proof (pow2_gt0 e) as P.
  assert (N : (0 <= inject_Z m)%Q).
  { change 0%Q with (inject_Z 0). now rewrite <- Zle_Qle. }
  unfold pack. destruct m as [|p|p]; [| |lia].
  - cbn [SF_value]. nra.
  - destruct (e <=? emax - prec); cbn [SF_value cond_Zopp]; nra.
Qed.

(** The value that [binary_round_aux] rounds an exact product to is at most
    half a step of the result above it. *)
Lemma binary_round_aux_upper (mx ex : Z) :
  0 <= mx ->
  (SF_value (binary_round_aux prec emax false mx ex loc_Exact)
   <= inject_Z mx * pow2 ex
      + pow2 (Z.max ex (fexp prec emax (Zdigits2 mx + ex)) - 1))%Q.
Proof.
  intros H. unfold binary_round_aux.
  set (E := Z.max ex (fexp prec emax (Zdigits2 mx + ex))).
  assert (S1 : exists m2,
             0 <= m2
             /\ (inject_Z m2 * pow2 E <= inject_Z mx * pow2 ex + pow2 (E - 1))%Q
             /\ (let '(mrs', e') := shr_fexp prec emax mx ex loc_Exact in
                 (round_nearest_even (shr_m mrs') (loc_of_shr_record mrs'), e'))
                = (m2, E)).
  { unfold shr_fexp, shr. cbn [shr_record_of_loc].
    destruct (fexp prec emax (Zdigits2 mx + ex) - ex) as [|p|p] eqn:S.
    - exists mx. split; [exact H|]. split.
      + replace E with ex by (unfold E; lia). pose proof (pow2_gt0 (ex - 1)). lra.
      + cbn [shr_m loc_of_shr_record round_nearest_even]. f_equal. unfold E. lia.
    - destruct (round_up_half mx p H) as [P2 B2]. cbv zeta in P2, B2.
      eexists. split; [exact P2|]. split; [|f_equal; unfold E; lia].
      set (m2 := round_nearest_even _ _) in *.
      replace E with (ex + 1 + (Z.pos p - 1)) by (unfold E; lia).
      replace (ex + 1 + (Z.pos p - 1) - 1) with (ex + (Z.pos p - 1)) by lia.
      assert (I1 : (pow2 (ex + 1 + (Z.pos p - 1))
                    == pow2 ex * 2 * inject_Z (2 ^ (Z.pos p - 1)))%Q).
      { rewrite !pow2_add, (pow2_inject (Z.pos p - 1)) by lia. reflexivity. }
      assert (I2 : (pow2 (ex + (Z.pos p - 1))
                    == pow2 ex * inject_Z (2 ^ (Z.pos p - 1)))%Q).
      { rewrite pow2_add, (pow2_inject (Z.pos p - 1)) by lia. reflexivity. }
      rewrite I1, I2.
      pose proof (pow2_gt0 ex) as Pe.
      assert (B3 : (2 * inject_Z (2 ^ (Z.pos p - 1)) * inject_Z m2
                    <= inject_Z mx + inject_Z (2 ^ (Z.pos p - 1)))%Q).
      { change 2%Q with (inject_Z 2).
        rewrite <- !inject_Z_mult, <- inject_Z_plus, <- Zle_Qle. exact B2. }
      nra.
    - exists mx. split; [exact H|]. split.
      + replace E with ex by (unfold E; lia). pose proof (pow2_gt0 (ex - 1)). lra.
      + cbn [shr_m loc_of_shr_record round_nearest_even]. f_equal. unfold E. lia. }
  destruct S1 as (m2 & P2 & B2 & S1).
  destruct (shr_fexp prec emax mx ex loc_Exact) as [mrs' e']. injection S1 as -> ->.
  destruct (shr_fexp_spec m2 E loc_Exact P2) as [A2 B3].
  destruct (shr_fexp prec emax m2 E loc_Exact) as [mrs'' e'']. cbn [fst snd] in A2, B3.
  set (E2 := Z.max E (fexp prec emax (Zdigits2 m2 + E))) in *.
  assert (M3 : 0 <= shr_m mrs'').
  { rewrite A2. apply Z.div_pos; [exact P2 | apply pow2_pos; lia]. }
  eapply Qle_trans; [apply (SF_value_pack _ e'' M3)|].
  rewrite A2, B3.
  destruct (div_bracket m2 (E2 - E) E P2 ltac:(lia)) as [D _].
  replace (E + (E2 - E)) with E2 in D by lia. lra.
Qed.

(** A whole number below an exact product stays below its rounding. *)
Lemma binary_round_aux_floor (mx ex : Z) :
  0 <= mx -> Z.max ex (fexp prec emax (Zdigits2 mx + ex)) <= 0 ->
  (inject_Z (Qfloor (inject_Z mx * pow2 ex))
   <= SF_value (binary_round_aux prec emax false mx ex loc_Exact))%Q.
Proof.
  intros H B.
  destruct (binary_round_aux_shape false mx ex loc_Exact H)
    as (m2 & m3 & e3 & R & _ & M3 & Sh & Eq & _).
  cbv zeta in R. set (E := Z.max ex (fexp prec emax (Zdigits2 mx + ex))) in *.
  rewrite Eq.
  assert (E3 : e3 <= 971) by (destruct Sh as [[_ ->]|[_ ->]]; lia).
  destruct (pack_value m3 e3 M3 E3) as (_ & _ & Val). rewrite Val.
  assert (V : (inject_Z m3 * pow2 e3 == inject_Z m2 * pow2 E)%Q).
  { destruct Sh as [[-> ->]|[-> ->]]; [reflexivity|].
    rewrite pow2_succ, inject_Z_mult. change (inject_Z 2) with 2%Q. ring. }
  rewrite V.
  set (N := Qfloor (inject_Z mx * pow2 ex)).
  pose proof (Qfloor_le (inject_Z mx * pow2 ex)) as L. fold N in L.
  assert (Z1 : N * 2 ^ (- ex) <= mx).
  { rewrite Zle_Qle, inject_Z_mult, pow2_inject by lia.
    assert (I : (pow2 ex * pow2 (- ex) == 1)%Q).
    { rewrite <- pow2_add. replace (ex + - ex) with 0 by lia. reflexivity. }
    assert (X : (inject_Z mx == inject_Z mx * pow2 ex * pow2 (- ex))%Q).
    { rewrite <- Qmult_assoc, I. ring. }
    rewrite X. apply Qmult_le_compat_r; [exact L | apply Qlt_le_weak, pow2_gt0]. }
  assert (Z2 : N * 2 ^ (- E) <= mx / 2 ^ (E - ex)).
  { apply Z.div_le_lower_bound; [apply pow2_pos; lia|].
    replace (- ex) with (E - ex + - E) in Z1 by lia.
    rewrite Z.pow_add_r in Z1 by lia. lia. }
  assert (Z3 : N * 2 ^ (- E) <= m2) by lia.
  rewrite Zle_Qle, inject_Z_mult, pow2_inject in Z3 by lia.
  assert (I : (pow2 (- E) * pow2 E == 1)%Q).
  { rewrite <- pow2_add. replace (- E + E) with 0 by lia. reflexivity. }
  assert (X : (inject_Z N == inject_Z N * pow2 (- E) * pow2 E)%Q).
  { rewrite <- Qmult_assoc, I. ring. }
  rewrite X. apply Qmult_le_compat_r; [exact Z3 | apply Qlt_le_weak, pow2_gt0].
Qed.

(** [int(x)] of a finite float that is not negative is the floor of its value. *)
Lemma to_int_floor (p : float) :
  SF_finite (Prim2SF p) = true -> SF_nonneg (Prim2SF p) = true ->
  PyFloat.to_int p = Some (Qfloor (float_value p)).
Proof.
  unfold PyFloat.to_int, float_value. intros F G.
  destruct (Prim2SF p) as [[]|[]| |[] M E]; try discriminate.
  - reflexivity.
  - cbn [SF_value cond_Zopp]. f_equal.
    destruct (Z.le_gt_cases 0 E) as [C|C].
    + rewrite Z.shiftl_mul_pow2 by exact C.
      rewrite <- (Qfloor_Z (Z.pos M * 2 ^ E)). apply Qfloor_comp.
      rewrite inject_Z_mult, pow2_inject by exact C. reflexivity.
    + rewrite Z.shiftl_div_pow2 by lia.
      pose proof (pow2_pos (- E) ltac:(lia)) as P.
      transitivity (Qfloor (Z.pos M # Z.to_pos (2 ^ (- E)))).
      * unfold Qfloor. now rewrite Z2Pos.id by exact P.
      * apply Qfloor_comp.
        rewrite Qmake_Qdiv, Z2Pos.id, pow2_inject by (exact P || lia).
        unfold Qdiv. apply Qmult_comp; [reflexivity|].
        unfold pow2. rewrite <- Qpower_opp. now rewrite Z.opp_involutive.
Qed.

Lemma SF_value_dyadic (n e : Z) :
  0 <= n < 2 ^ 53 -> -1074 <= e <= 0 ->
  (SF_value (dyadic n e) == inject_Z n * pow2 e)%Q
  /\ SF_finite (dyadic n e) = true /\ SF_nonneg (dyadic n e) = true.
Proof.
  intros N E. destruct (Z.eq_dec n 0) as [->|NZ].
  - cbn [dyadic SF_value SF_finite SF_nonneg]. change (inject_Z 0) with 0%Q.
    split; [ring | split; reflexivity].
  - destruct (dyadic_finite n e ltac:(lia) E) as (M & T & -> & R & V).
    split; [|split; reflexivity].
    cbn [SF_value cond_Zopp]. rewrite V, inject_Z_mult, pow2_inject by lia.
    replace e with (e - T + T) at 2 by lia. rewrite pow2_add. ring.
Qed.

(** The milliseconds: the fraction times 1000, rounded and truncated. *)
Lemma milliseconds_of_fraction (f : float) (fr e : Z) :
  Prim2SF f = dyadic fr e -> 0 <= fr < 2 ^ (- e) -> fr < 2 ^ 53 -> -1074 <= e <= 0 ->
  let P := (inject_Z fr * pow2 e * 1000)%Q in
  exists ms, PyFloat.to_int (f * 1000)%float = Some ms /\ 0 <= ms <= 999
             /\ Qfloor P <= ms <= Qfloor P + 1.
Proof.
  intros F R B E P.
  assert (W : Prim2SF 1000 = S754_finite false 8796093022208000 (-43))
    by (vm_compute; reflexivity).
  destruct (SF_value_dyadic fr e ltac:(lia) E) as (V & Fi & Nn).
  assert (Pe : (0 < pow2 e)%Q) by apply pow2_gt0.
  assert (I0 : (0 <= inject_Z fr)%Q).
  { change 0%Q with (inject_Z 0). rewrite <- Zle_Qle. lia. }
  assert (N53 : (pow2 (-53) == 1 # 9007199254740992)%Q) by reflexivity.
  assert (N44 : (pow2 (-44) == 1 # 17592186044416)%Q) by reflexivity.
  (* the fraction is at most 1 - 2^-53 *)
  assert (Vf : (inject_Z fr * pow2 e <= 1 - pow2 (-53))%Q).
  { destruct (Z.le_gt_cases (-53) e) as [C|C].
    - assert (I1 : (inject_Z fr + 1 <= pow2 (- e))%Q).
      { rewrite <- pow2_inject by lia. change 1%Q with (inject_Z 1).
        rewrite <- inject_Z_plus, <- Zle_Qle. lia. }
      assert (I2 : (pow2 (- e) * pow2 e == 1)%Q).
      { rewrite <- pow2_add. replace (- e + e) with 0 by lia. reflexivity. }
      pose proof (pow2_mono (-53) e C). nra.
    - assert (I1 : (inject_Z fr <= pow2 53)%Q).
      { rewrite <- pow2_inject by lia. rewrite <- Zle_Qle. lia. }
      pose proof (pow2_mono e (-54) ltac:(lia)) as I2.
      assert (I3 : (pow2 53 * pow2 (-54) == 1 # 2)%Q) by reflexivity.
      nra. }
  assert (P0 : (0 <= P)%Q) by (unfold P; nra).
  assert (P1 : (P + pow2 (-44) < 1000)%Q) by (unfold P; nra).
  assert (X : (inject_Z 8796093022208000 * pow2 (-43) == 1000)%Q) by reflexivity.
  assert (Vm : (SF_value (dyadic fr e) * (inject_Z 8796093022208000 * pow2 (-43))
                < pow2 10)%Q).
  { rewrite V, X. change (pow2 10) with 1024%Q. unfold P in P1. nra. }
  destruct (SFmul_value (dyadic fr e) 8796093022208000 (-43) 10 Fi Nn) as (Fr & Nr & _).
  { intros m e0 Eq. destruct (Z.eq_dec fr 0) as [->|NZ]; [discriminate Eq|].
    destruct (dyadic_finite fr e ltac:(lia) E) as (M & T & Wd & Rt & _).
    rewrite Wd in Eq. injection Eq as <- <-. lia. }
  { exact Vm. }
  { lia. }
  cbv zeta in Fr, Nr.
  assert (Bd : (SF_value (SFmul prec emax (dyadic fr e)
                            (S754_finite false 8796093022208000 (-43)))
                <= P + pow2 (-44))%Q
               /\ (inject_Z (Qfloor P)
                   <= SF_value (SFmul prec emax (dyadic fr e)
                                  (S754_finite false 8796093022208000 (-43))))%Q).
  { destruct (Z.eq_dec fr 0) as [->|NZ].
    - cbn [dyadic SFmul xorb SF_value]. split; [lra|].
      assert (Z0 : (P == 0)%Q) by (unfold P; change (inject_Z 0) with 0%Q; ring).
      pose proof (Qfloor_le P). lra.
    - destruct (dyadic_finite fr e ltac:(lia) E) as (M & T & Wd & Rt & Vd).
      rewrite Wd in *. cbn [SFmul xorb].
      rewrite SF_value_finite in V.
      assert (Pm : (inject_Z (Z.pos (M * 8796093022208000)) * pow2 (T + -43) == P)%Q).
      { unfold P. rewrite <- V, Pos2Z.inj_mul, inject_Z_mult, pow2_add, <- X. ring. }
      assert (D : Zdigits2 (Z.pos (M * 8796093022208000)) + (T + -43) <= 10).
      { apply digits_below; [lia|]. rewrite Pm.
        change (pow2 10) with 1024%Q. lra. }
      split.
      + eapply Qle_trans; [apply binary_round_aux_upper; lia|].
        rewrite Pm, fexp_eq.
        pose proof (pow2_mono
                      (Z.max (T + -43)
                         (Z.max (Zdigits2 (Z.pos (M * 8796093022208000)) + (T + -43) - 53)
                            (-1074)) - 1) (-44) ltac:(lia)) as Hh.
        lra.
      + rewrite <- (Qfloor_comp _ _ Pm).
        apply binary_round_aux_floor; [lia|]. rewrite fexp_eq. lia. }
  destruct Bd as [Up Lo].
  rewrite <- W, <- F in Fr, Nr, Up, Lo.
  change (SFmul prec emax (Prim2SF f) (Prim2SF 1000))
    with (SF64mul (Prim2SF f) (Prim2SF 1000)) in Fr, Nr, Up, Lo.
  rewrite <- mul_spec in Fr, Nr, Up, Lo.
  rewrite (to_int_floor _ Fr Nr). unfold float_value.
  set (r := SF_value (Prim2SF (f * 1000))) in *.
  exists (Qfloor r). split; [reflexivity|].
  pose proof (Qfloor_le r) as F1. pose proof (Qlt_floor P) as F2.
  assert (A0 : 0 <= Qfloor P).
  { change 0 with (Qfloor 0). now apply Qfloor_resp_le. }
  assert (A1 : Qfloor P <= Qfloor r).
  { rewrite <- (Qfloor_Z (Qfloor P)). now apply Qfloor_resp_le. }
  assert (A2 : Qfloor r < 1000).
  { rewrite Zlt_Qlt. change (inject_Z 1000) with 1000%Q. lra. }
  assert (A3 : Qfloor r < Qfloor P + 2).
  { rewrite Zlt_Qlt. replace (Qfloor P + 2) with (Qfloor P + 1 + 1) by lia.
    rewrite (inject_Z_plus (Qfloor P + 1) 1). change (inject_Z 1) with 1%Q. lra. }
  lia.
Qed.

(** ** [format_time_full] on every float from zero to below 2^53 *)

Lemma grid_fields (n K : Z) :
  0 <= n -> 0 < K ->
  n / (3600 * K) = n / K / 3600
  /\ n mod (3600 * K) / (60 * K) = (n / K) mod 3600 / 60
  /\ n mod (60 * K) / K = (n / K) mod 60.
Proof.
  intros N P. pose proof (Z.mod_pos_bound n K P) as R.
  assert (A : forall t, (n mod K + K * t) / K = t).
  { intros t. rewrite (Z.mul_comm K t), Z.div_add by lia.
    rewrite Z.div_small by lia. lia. }
  split; [|split].
  - rewrite (Z.mul_comm 3600 K), Z.div_div by lia. reflexivity.
  - rewrite (Z.mul_comm 3600 K), Z.rem_mul_r by lia.
    rewrite (Z.mul_comm 60 K), <- Z.div_div by lia. now rewrite A.
  - rewrite (Z.mul_comm 60 K), Z.rem_mul_r by lia. apply A.
Qed.

Lemma Qfloor_dyadic (n e : Z) :
  0 <= n -> e <= 0 -> Qfloor (inject_Z n * pow2 e) = n / 2 ^ (- e).
Proof.
  intros N E. pose proof (pow2_pos (- e) ltac:(lia)) as P.
  transitivity (Qfloor (n # Z.to_pos (2 ^ (- e)))).
  - apply Qfloor_comp.
    rewrite Qmake_Qdiv, Z2Pos.id, pow2_inject by (exact P || lia).
    unfold Qdiv. apply Qmult_comp; [reflexivity|].
    unfold pow2. rewrite <- Qpower_opp. now rewrite Z.opp_involutive.
  - unfold Qfloor. now rewrite Z2Pos.id by exact P.
Qed.

Lemma format_time_full_dyadic (x : float) (n e : Z) :
  Prim2SF x = dyadic n e -> 0 <= n < 2 ^ 53 -> -1074 <= e <= 0 ->
  let w := Qfloor (float_value x) in
  let ms0 := Qfloor (1000 * (float_value x - inject_Z w)) in
  exists ms,
    format_time_full x
    = Some (format_int_zero 2 (w / 3600) ++ ":"
            ++ format_int_zero 2 (w mod 3600 / 60) ++ ":"
            ++ format_int_zero 2 (w mod 60) ++ ":" ++ format_int_zero 3 ms)
    /\ 0 <= ms <= 999 /\ ms0 <= ms <= ms0 + 1.
Proof.
  intros X N E.
  destruct (SF_value_dyadic n e N E) as (V & _ & _).
  unfold float_value. rewrite X.
  rewrite (Qfloor_comp _ _ V), (Qfloor_dyadic n e) by lia.
  set (K := 2 ^ (- e)). pose proof (pow2_pos (- e) ltac:(lia)) as PK. fold K in PK.
  set (w := n / K). cbv zeta.
  assert (W3600 : Prim2SF 3600 = whole 3600) by (vm_compute; reflexivity).
  assert (W60 : Prim2SF 60 = whole 60) by (vm_compute; reflexivity).
  assert (B : 3600 < 2 ^ 53 /\ 60 < 2 ^ 53) by (split; reflexivity).
  destruct (grid_fields n K ltac:(lia) PK) as (G1 & G2 & G3). fold w in G1, G2, G3.
  pose proof (Z.div_mod n K ltac:(lia)) as DM. fold w in DM.
  pose proof (Z.mod_pos_bound n K PK) as RK.
  assert (Wb : 0 <= w <= n).
  { split; [apply Z.div_pos; lia|]. nia. }
  pose proof (Z.mod_pos_bound n (3600 * K) ltac:(lia)) as R1.
  pose proof (Z.mod_pos_bound n (60 * K) ltac:(lia)) as R2.
  assert (L1 : n mod (3600 * K) <= n) by (apply Z.mod_le; lia).
  assert (L2 : n mod (60 * K) <= n) by (apply Z.mod_le; lia).
  pose proof (Z.mod_pos_bound w 3600 ltac:(lia)) as R3.
  assert (Q1 : 0 <= w / 3600 <= w).
  { split; [apply Z.div_pos; lia|]. apply Z.div_le_upper_bound; lia. }
  assert (Q2 : 0 <= w mod 3600 / 60 <= w mod 3600).
  { split; [apply Z.div_pos; lia|]. apply Z.div_le_upper_bound; lia. }
  assert (L3 : w mod 3600 <= w) by (apply Z.mod_le; lia).
  unfold format_time_full.
  destruct (floordiv_dyadic x 3600 n e 3600 X W3600 N E ltac:(lia)) as (h & -> & H).
  fold K in H. rewrite G1 in H.
  cbn [obind]. rewrite (to_int_whole h _ H) by lia. cbn [obind].
  destruct (rem_dyadic x 3600 n e 3600 X W3600 N E ltac:(lia)) as (r & -> & R).
  fold K in R. cbn [obind].
  destruct (floordiv_dyadic r 60 _ e 60 R W60 ltac:(lia) E ltac:(lia)) as (m & -> & M).
  fold K in M. rewrite G2 in M.
  cbn [obind]. rewrite (to_int_whole m _ M) by lia. cbn [obind].
  destruct (rem_dyadic x 60 n e 60 X W60 N E ltac:(lia)) as (s & -> & S).
  fold K in S. cbn [obind].
  rewrite (to_int_dyadic s _ e S) by lia. fold K. rewrite G3. cbn [obind].
  rewrite (to_int_dyadic x n e X N E). fold K. fold w. cbn [obind].
  assert (O : Prim2SF (PyFloat.of_int w) = dyadic (w * K) e).
  { rewrite of_int_whole, whole_dyadic by lia.
    replace e with (0 - - e) at 1 by lia. unfold K.
    symmetry. apply dyadic_finer; fold K; lia || nia. }
  pose proof (sub_dyadic x _ n (w * K) e X O ltac:(lia) ltac:(lia) E) as D.
  replace (n - w * K) with (n mod K) in D by lia.
  destruct (milliseconds_of_fraction _ (n mod K) e D ltac:(fold K; lia) ltac:(lia) E)
    as (ms & -> & B1 & B2).
  cbn [obind]. exists ms. split; [reflexivity|]. split; [exact B1|].
  cbv zeta in B2.
  assert (Eq : (1000 * (SF_value (dyadic n e) - inject_Z w)
                == inject_Z (n mod K) * pow2 e * 1000)%Q).
  { rewrite V.
    assert (I : (inject_Z K * pow2 e == 1)%Q).
    { unfold K. rewrite pow2_inject, <- pow2_add by lia.
      replace (- e + e) with 0 by lia. reflexivity. }
    rewrite DM at 1. rewrite inject_Z_plus, inject_Z_mult.
    setoid_replace (inject_Z w) with (inject_Z w * (inject_Z K * pow2 e))%Q at 2
      by (rewrite I; ring).
    ring. }
  rewrite (Qfloor_comp _ _ Eq). exact B2.
Qed.

(** X22. On every float [x] with [0 <= x < 2^53], [format_time_full]
    raises nothing; with [w] the whole seconds of [x] (its floor), the
    hours printed are [w // 3600], the minutes [w % 3600 // 60], the
    seconds [w % 60], each padded to two digits; the milliseconds printed
    lie from 0 to 999 and are the whole milliseconds in the fraction of
    [x], or one more. *)
Theorem format_time_full_fields (x : float) :
  (0 <=? x)%float = true -> (x <? 9007199254740992)%float = true ->
  let w := Qfloor (float_value x) in
  let ms0 := Qfloor (1000 * (float_value x - inject_Z w)) in
  exists ms,
    format_time_full x
    = Some (format_int_zero 2 (w / 3600) ++ ":"
            ++ format_int_zero 2 (w mod 3600 / 60) ++ ":"
            ++ format_int_zero 2 (w mod 60) ++ ":" ++ format_int_zero 3 ms)
    /\ 0 <= ms <= 999 /\ ms0 <= ms <= ms0 + 1.
Proof.
  intros L U.
  destruct (float_on_grid x L U) as [->|(n & e & X & N & E)].
  - exists 0. split; [vm_compute; reflexivity|]. split; [lia|].
    replace (Qfloor (1000 * (float_value neg_zero
                               - inject_Z (Qfloor (float_value neg_zero)))))
      with 0 by (vm_compute; reflexivity).
    lia.
  - exact (format_time_full_dyadic x n e X N E).
Qed.

Lemma format_time_full_fields_witness :
  exists ms,
    format_time_full 867.799 = Some ("00:14:27:" ++ format_int_zero 3 ms)
    /\ 0 <= ms <= 999 /\ 798 <= ms <= 799.
Proof.
  exact (format_time_full_fields 867.799 eq_refl eq_refl).
Defined.

(** ** [detect_black_frames]: the progress display and the total duration *)

(** A line without [time=] holds no progress token. *)
Lemma line_without_progress (line : string) :
  contains "time=" line = false -> Re.search time_pattern (strip line) = None.
Proof.
  intros C. unfold time_pattern. apply search_without. now apply contains_strip.
Qed.

(** The progress part of the loop body raises nothing when the total
    duration is not zero or the line holds no [time=]. *)
Lemma progress_raises_nothing (total : float) (shown : list float) (line : string) :
  (total =? 0)%float = false \/ contains "time=" line = false ->
  exists shown',
    match Re.search time_pattern (strip line) with
    | Some g =>
        current_time_str <- Re.group g 1 ;;
        (if (total =? 0)%float then None
         else Some (shown ++ [(time_str_to_seconds current_time_str / total * 100)%float])%list)
    | None => Some shown
    end = Some shown'.
Proof.
  intros [T|C].
  - now apply progress_written.
  - rewrite (line_without_progress line C). now exists shown.
Qed.

Lemma process_line_quiet (total : float) (st : detector) (line : string) :
  (total =? 0)%float = false \/ contains "time=" line = false ->
  contains "black_start:" line = false ->
  exists st', process_line total st line = Some st'
              /\ black_frames st' = black_frames st.
Proof.
  intros T C. unfold process_line.
  destruct (progress_raises_nothing total (progress_shown st) line T) as [shown' E].
  rewrite E. cbn [obind].
  unfold black_pattern. rewrite search_without by now apply contains_strip.
  eexists. split; reflexivity.
Qed.

Lemma process_lines_quiet (total : float) (lines : list string) :
  (total =? 0)%float = false \/ Forall (fun l => contains "time=" l = false) lines ->
  Forall (fun l => contains "black_start:" l = false) lines ->
  forall st, exists st', process_lines total st lines = Some st'
                         /\ black_frames st' = black_frames st.
Proof.
  intros T F. induction F as [|l lines C _ IH]; intros st; cbn [process_lines].
  - now exists st.
  - assert (T1 : (total =? 0)%float = false \/ contains "time=" l = false).
    { destruct T as [T|T]; [now left | right; now inversion T]. }
    assert (T2 : (total =? 0)%float = false
                 \/ Forall (fun l => contains "time=" l = false) lines).
    { destruct T as [T|T]; [now left | right; now inversion T]. }
    destruct (process_line_quiet total st l T1 C) as (st1 & E & B).
    rewrite E. cbn [obind]. destruct (IH T2 st1) as (st2 & E2 & B2).
    exists st2. split; [exact E2 | congruence].
Qed.

(** A detection line with any three numbers appends their interval. *)
Lemma process_line_detection
    (total : float) (st : detector) (pre ws1 ws2 post ia ib ic : string)
    (fa fb fc : option string) :
  (total =? 0)%float = false
  \/ contains "time="
       (pre ++ detection_text (written ia fa) ws1 (written ib fb) ws2 (written ic fc)
        ++ post) = false ->
  contains "black_start:" pre = false -> stops digit_or_dot post = true ->
  run_of isspace ws1 = true -> run_of isspace ws2 = true ->
  digits ia = true -> all_chars is_digit (fraction fa) = true ->
  digits ib = true -> all_chars is_digit (fraction fb) = true ->
  digits ic = true -> all_chars is_digit (fraction fc) = true ->
  exists st',
    process_line total st
      (pre ++ detection_text (written ia fa) ws1 (written ib fb) ws2 (written ic fc) ++ post)
    = Some st'
    /\ black_frames st'
       = (black_frames st
          ++ [{| start := read_number ia fa; end_ := read_number ib fb;
                 duration := read_number ic fc |}])%list.
Proof.
  intros T Cp P W1 W2 Da Fa Db Fb Dc Fc.
  assert (R : forall ip fp, digits ip = true -> all_chars is_digit (fraction fp) = true ->
              run_of digit_or_dot (written ip fp) = true).
  { intros ip fp D F. unfold run_of.
    rewrite (written_chars ip fp (digits_all ip D) F), andb_true_r.
    destruct (String.eqb_spec (written ip fp) ""); [|reflexivity].
    now apply written_nonempty in e. }
  destruct (search_black_pattern_on_text pre (written ia fa) ws1 (written ib fb) ws2
              (written ic fc) post Cp (R _ _ Da Fa) W1 (R _ _ Db Fb) W2 (R _ _ Dc Fc) P)
    as [_ M].
  unfold process_line.
  destruct (progress_raises_nothing total (progress_shown st) _ T) as [shown' E].
  rewrite E, M. cbn [Re.group Nat.eqb obind].
  rewrite !of_string_written by assumption.
  cbn [obind]. eexists. split; reflexivity.
Qed.

Lemma Forall_middle {A : Type} (P : A -> Prop) (xs : list A) (x : A) (ys : list A) :
  Forall P (xs ++ x :: ys)%list -> Forall P xs /\ P x /\ Forall P ys.
Proof.
  intros F. apply Forall_app in F as [F1 F2]. inversion F2; subst. auto.
Qed.

(** C4, as stated, fails: nothing in it keeps the total duration from being
    zero, and then the first progress line of the stream raises
    [ZeroDivisionError] before any interval is returned. *)
Lemma one_token_zero_duration_raises :
  ~ (forall (sys : system) (video ffmpeg : string) (total d t : float)
       (before after : list string) (pre post : string),
       Forall (fun l => contains "black_start:" l = false) before ->
       Forall (fun l => contains "black_start:" l = false) after ->
       contains "black_start:" pre = false ->
       stops digit_or_dot post = true ->
       ffmpeg_stderr sys ffmpeg video d t
         = map Line (before ++ (pre ++ token ++ post)%string :: after)%list ->
       detect_black_frames sys video ffmpeg total d t = Returned [token_interval]).
Proof.
  intros H.
  specialize (H (sample_system sample_stream) "film.ts" "/opt/ff/ffmpeg" 0%float
                0.5%float 0.98%float
                ["frame=  100 fps=0.0 q=-0.0 size=N/A time=00:00:04.00 bitrate=N/A"]
                ["frame=  250 fps=0.0 q=-0.0 size=N/A time=00:00:10.00 bitrate=N/A"]
                "[blackdetect @ 0x55d0c8a3b2c0] " ""
                ltac:(repeat constructor) ltac:(repeat constructor)
                eq_refl eq_refl eq_refl).
  vm_compute in H. discriminate H.
Qed.

(** C4, amended. The total duration is not zero, or no line of the stream
    holds [time=] (otherwise the progress display divides by zero). Then a
    diagnostic stream in which one line carries the token
    [black_start:5.0 black_end:7.5 black_duration:2.5] (after any text that
    holds no [black_start:], before the end of the line or a character that
    is neither a digit nor a point) and no other line carries a
    [black_start:] makes the detector return the single interval
    (5.0, 7.5, 2.5). And every line that carries a token
    [black_start:a black_end:b black_duration:c], with [a], [b] and [c]
    written as digits with an optional fraction and any white space between
    the parts, appends one interval to the list held so far: the one of the
    binary64 numbers nearest to [a], [b] and [c]. *)
Theorem one_token_one_interval
    (sys : system) (video ffmpeg : string) (total d t : float)
    (before after : list string) (pre post : string) :
  (total =? 0)%float = false
  \/ Forall (fun l => contains "time=" l = false)
       (before ++ (pre ++ token ++ post)%string :: after) ->
  Forall (fun l => contains "black_start:" l = false) before ->
  Forall (fun l => contains "black_start:" l = false) after ->
  contains "black_start:" pre = false ->
  stops digit_or_dot post = true ->
  ffmpeg_stderr sys ffmpeg video d t
    = map Line (before ++ (pre ++ token ++ post)%string :: after)%list ->
  detect_black_frames sys video ffmpeg total d t = Returned [token_interval]
  /\ forall (st : detector) (lpre ws1 ws2 lpost ia ib ic : string)
            (fa fb fc : option string),
       (total =? 0)%float = false
       \/ contains "time="
            (lpre ++ detection_text (written ia fa) ws1 (written ib fb) ws2
                       (written ic fc) ++ lpost) = false ->
       contains "black_start:" lpre = false -> stops digit_or_dot lpost = true ->
       run_of isspace ws1 = true -> run_of isspace ws2 = true ->
       digits ia = true -> all_chars is_digit (fraction fa) = true ->
       digits ib = true -> all_chars is_digit (fraction fb) = true ->
       digits ic = true -> all_chars is_digit (fraction fc) = true ->
       exists st',
         process_line total st
           (lpre ++ detection_text (written ia fa) ws1 (written ib fb) ws2
                      (written ic fc) ++ lpost)
         = Some st'
         /\ black_frames st'
            = (black_frames st
               ++ [{| start := read_number ia fa; end_ := read_number ib fb;
                      duration := read_number ic fc |}])%list.
Proof.
  intros T B A C P E. split; [|intros st; intros; now apply process_line_detection].
  assert (Tb : (total =? 0)%float = false
               \/ Forall (fun l => contains "time=" l = false) before).
  { destruct T as [T|T]; [now left | right; now apply Forall_middle in T]. }
  assert (Tl : (total =? 0)%float = false
               \/ contains "time=" (pre ++ token ++ post) = false).
  { destruct T as [T|T]; [now left | right; now apply Forall_middle in T]. }
  assert (Ta : (total =? 0)%float = false
               \/ Forall (fun l => contains "time=" l = false) after).
  { destruct T as [T|T]; [now left | right; now apply Forall_middle in T]. }
  unfold detect_black_frames. rewrite E.
  rewrite <- (app_nil_r (map Line _)), detect_loop_lines.
  fold fresh.
  destruct (process_lines_quiet total before Tb B fresh) as (st0 & E0 & B0).
  assert (L : exists st1, process_line total st0 (pre ++ token ++ post) = Some st1
                          /\ black_frames st1 = [token_interval]).
  { destruct (process_line_detection total st0 pre " " " " post "5" "7" "2"
                (Some "0") (Some "5") (Some "5") Tl C P)
      as (st1 & E1 & B1); try reflexivity.
    exists st1. split; [exact E1|]. rewrite B1, B0. vm_compute. reflexivity. }
  destruct L as (st1 & E1 & B1).
  destruct (process_lines_quiet total after Ta A st1) as (st2 & E2 & B2).
  assert (X : process_lines total fresh (before ++ (pre ++ token ++ post)%string :: after)
              = Some st2).
  { clear - E0 E1 E2. revert E0. generalize fresh.
    induction before as [|l before IH]; intros st E0; cbn [app process_lines] in *.
    - injection E0 as ->. rewrite E1. cbn [obind]. exact E2.
    - destruct (process_line total st l) as [st'|]; [|discriminate E0].
      cbn [obind] in *. now apply IH. }
  rewrite X. cbn [detect_loop]. now rewrite B2, B1.
Qed.

Lemma one_token_one_interval_witness :
  let quiet :=
    [Line "Press [q] to stop, [?] for help";
     Line "[blackdetect @ 0x55d0c8a3b2c0] black_start:5.0 black_end:7.5 black_duration:2.5"] in
  detect_black_frames (sample_system sample_stream) "film.ts" "/opt/ff/ffmpeg" 10 0.5 0.98
  = Returned [token_interval]
  /\ detect_black_frames (sample_system quiet) "film.ts" "/opt/ff/ffmpeg" 0 0.5 0.98
     = Returned [token_interval]
  /\ exists st',
       process_line 0 fresh
         "[blackdetect @ 0x1] black_start:12.25  black_end:14 black_duration:1.75"
       = Some st'
       /\ black_frames st' = [{| start := 12.25; end_ := 14; duration := 1.75 |}].
Proof.
  intros quiet. split; [|split].
  - refine (proj1 (one_token_one_interval (sample_system sample_stream)
                     "film.ts" "/opt/ff/ffmpeg" 10 0.5 0.98
                     ["frame=  100 fps=0.0 q=-0.0 size=N/A time=00:00:04.00 bitrate=N/A"]
                     ["frame=  250 fps=0.0 q=-0.0 size=N/A time=00:00:10.00 bitrate=N/A"]
                     "[blackdetect @ 0x55d0c8a3b2c0] " "" _ _ _ _ _ _)).
    + left. reflexivity.
    + repeat constructor.
    + repeat constructor.
    + reflexivity.
    + reflexivity.
    + reflexivity.
  - refine (proj1 (one_token_one_interval (sample_system quiet)
                     "film.ts" "/opt/ff/ffmpeg" 0 0.5 0.98
                     ["Press [q] to stop, [?] for help"] []
                     "[blackdetect @ 0x55d0c8a3b2c0] " "" _ _ _ _ _ _)).
    + right. repeat constructor.
    + repeat constructor.
    + constructor.
    + reflexivity.
    + reflexivity.
    + reflexivity.
  - assert (Q : Forall (fun l => contains "time=" l = false)
                  (["Press [q] to stop, [?] for help"]
                   ++ ("[blackdetect @ 0x55d0c8a3b2c0] " ++ token ++ "")%string :: [])%list)
      by (repeat constructor).
    destruct (proj2 (one_token_one_interval (sample_system quiet)
                       "film.ts" "/opt/ff/ffmpeg" 0 0.5 0.98
                       ["Press [q] to stop, [?] for help"] []
                       "[blackdetect @ 0x55d0c8a3b2c0] " ""
                       (or_intror Q) ltac:(repeat constructor)
                       ltac:(constructor) eq_refl eq_refl eq_refl)
                fresh "[blackdetect @ 0x1] " "  " " " "" "12" "14" "1"
                (Some "25") None (Some "75"))
      as (st' & E & B); try reflexivity.
    + right. reflexivity.
    + exists st'. split; [exact E|]. rewrite B. vm_compute. reflexivity.
Defined.

(** ** What keeps a run from completing *)

Lemma report_loop_fails (offset : float) (results : list interval) :
  snd (report_loop offset results) = false
  <-> exists seq, In seq results /\ report_line offset seq = None.
Proof.
  induction results as [|seq rest IH]; cbn [report_loop].
  - split; [discriminate | intros (seq & [] & _)].
  - destruct (report_line offset seq) as [l|] eqn:E.
    + destruct (report_loop offset rest) as [ls ok]. cbn [snd] in *.
      rewrite IH. split.
      * intros (s & I & N). exists s. split; [now right | exact N].
      * intros (s & [<-|I] & N); [congruence | now exists s].
    + split; [|reflexivity]. intros _. exists seq. split; [now left | exact E].
Qed.

Lemma report_fails (offset : float) (results : list interval) :
  (snd (report offset results) <> Completed
   <-> exists seq, In seq results /\ report_line offset seq = None)
  /\ (snd (report offset results) = Completed
      \/ exists seq, In seq results /\ report_line offset seq = None).
Proof.
  unfold report. destruct results as [|seq rest].
  - split; [split; [intros H; now contradiction H | intros (s & [] & _)] | now left].
  - pose proof (report_loop_fails offset (seq :: rest)) as F.
    destruct (report_loop offset (seq :: rest)) as [ls ok]. cbn [snd] in F.
    destruct ok; cbn [snd].
    + split; [|now left]. split; [intros H; now contradiction H|].
      intros X. apply F in X. discriminate X.
    + split; [|right; now apply F]. split; [intros _; now apply F | discriminate].
Qed.

(** A run completes exactly when it meets none of the failures of
    [other_failure]. *)
Lemma other_failure_decides (sys : system) (video : string) (d t : float) :
  (other_failure sys video d t -> snd (main sys video d t) <> Completed)
  /\ (~ other_failure sys video d t -> snd (main sys video d t) = Completed).
Proof.
  unfold other_failure, main.
  destruct (found (find_ffmpeg sys)) as [fm|];
    [|split; [discriminate | intros N; now contradiction N]].
  destruct (found (find_ffprobe sys)) as [fp|];
    [|split; [discriminate | intros N; now contradiction N]].
  set (offset := if path_exists sys (video ++ ".ini")
                 then parse_ini_offset sys (video ++ ".ini") else 0%float).
  assert (B : (path_exists sys (video ++ ".ini") = true /\ format_time_full offset = None)
              \/ exists line1,
                   (if path_exists sys (video ++ ".ini")
                    then option_map (append "Offset START_TIME détecté : ")
                           (format_time_full offset)
                    else Some no_ini) = Some line1
                   /\ ~ (path_exists sys (video ++ ".ini") = true
                         /\ format_time_full offset = None)).
  { destruct (path_exists sys (video ++ ".ini")).
    - destruct (format_time_full offset) as [o|]; [right | now left].
      eexists. split; [reflexivity|]. intros [_ X]. discriminate X.
    - right. eexists. split; [reflexivity|]. intros [X _]. discriminate X. }
  destruct B as [[P F]|(line1 & -> & NB)].
  { rewrite P, F. cbn [option_map]. split; [discriminate|].
    intros N. contradiction N. left. now split. }
  destruct (get_video_duration sys video fp) as [total|];
    [|split; [discriminate | intros N; contradiction N; now right]].
  destruct (format_time_full total) as [tt|];
    [|split; [discriminate | intros N; contradiction N; right; now left]].
  cbv zeta.
  destruct (detect_black_frames sys video fm total d t) as [results|m c|];
    [|split; [discriminate | intros N; contradiction N; right; now right] ..].
  destruct (report_fails offset results) as [R1 R2].
  destruct (report offset results) as [ls e]. cbn [snd] in *.
  split.
  - intros [X|[X|X]]; [contradiction | discriminate X | now apply R1].
  - intros N. destruct R2 as [R2|R2]; [exact R2|].
    contradiction N. right. now right.
Qed.

(** A stream without detection lines is read to its end and gives no
    interval, whatever made the child write it. *)
Lemma detect_nothing (sys : system) (video ffmpeg : string) (total d t : float)
    (lines : list string) :
  ffmpeg_stderr sys ffmpeg video d t = map Line lines ->
  Forall (fun l => contains "black_start:" l = false) lines ->
  (total =? 0)%float = false \/ Forall (fun l => contains "time=" l = false) lines ->
  detect_black_frames sys video ffmpeg total d t = Returned [].
Proof.
  intros E F T. unfold detect_black_frames. rewrite E.
  rewrite <- (app_nil_r (map Line lines)), detect_loop_lines.
  destruct (process_lines_quiet total lines T F
              {| black_frames := []; progress_shown := [] |}) as (st' & -> & B).
  cbn [detect_loop]. now rewrite B.
Qed.

(** C7, amended. A sidecar file that cannot be read, holds no [START_TIME]
    assignment, or assigns a value that begins with no component of the
    time pattern gives the offset 0.0 and raises nothing. No other failure
    that the script meets is recovered: a run completes exactly when no
    executable is missing, the duration probe of the ffprobe found
    succeeds, the detection of the ffmpeg found returns at the duration
    probed, and every time can be formatted; in every other case it ends
    with a fatal message or an exception. The handler of
    [time_str_to_seconds] is never entered from the reading loop. A failure
    of the ffmpeg child itself is not met at all, since its exit status is
    dropped: a stream that holds no detection line is read to its end and
    gives the empty list. *)
Theorem unusable_offset_is_only_recovery (sys : system) (path : string) :
  unusable_offset (read_text sys path) ->
  parse_ini_offset sys path = 0%float
  /\ (forall video d t,
        (other_failure sys video d t -> snd (main sys video d t) <> Completed)
        /\ (~ other_failure sys video d t -> snd (main sys video d t) = Completed))
  /\ (forall line g, Re.search time_pattern line = Some g ->
        exists t v, Re.group g 1 = Some t /\ time_str_to_seconds_try t = Some v)
  /\ (forall video ffmpeg total d t lines,
        ffmpeg_stderr sys ffmpeg video d t = map Line lines ->
        Forall (fun l => contains "black_start:" l = false) lines ->
        (total =? 0)%float = false
        \/ Forall (fun l => contains "time=" l = false) lines ->
        detect_black_frames sys video ffmpeg total d t = Returned []).
Proof.
  intros U. split; [|split; [|split]].
  - now apply unusable_offset_zero.
  - intros video d t. apply other_failure_decides.
  - apply detector_time_converts.
  - intros video ffmpeg total d t lines. apply detect_nothing.
Qed.

Lemma unusable_offset_is_only_recovery_witness :
  let content := "START_TIME=" ++ String dquote ("12:30:00" ++ String dquote "") in
  let installed := ["/usr/bin/ffmpeg"; "/usr/bin/ffprobe"; "film.ts"; "film.ts.ini"] in
  let probe_fails :=
    machine None installed ["ffmpeg"; "ffprobe"] None (Some content) [] in
  let zero_duration :=
    machine None installed ["ffmpeg"; "ffprobe"] (Some "0.000000") (Some content)
      [Line "frame=  100 fps=0.0 q=-0.0 size=N/A time=00:00:04.00 bitrate=N/A"] in
  let child_fails :=
    machine None installed ["ffmpeg"; "ffprobe"] (Some "90.000000") (Some content)
      [Line "film.ts: Invalid data found when processing input"] in
  parse_ini_offset (with_sidecar (Some content)) "film.ts.ini" = 0%float
  /\ parse_ini_offset (with_sidecar None) "film.ts.ini" = 0%float
  /\ parse_ini_offset (with_sidecar (Some "duration=12")) "film.ts.ini" = 0%float
  /\ snd (main probe_fails "film.ts" 0.5 0.98) <> Completed
  /\ snd (main zero_duration "film.ts" 0.5 0.98) <> Completed
  /\ snd (main child_fails "film.ts" 0.5 0.98) = Completed.
Proof.
  intros content installed probe_fails zero_duration child_fails.
  assert (U : forall probe stream,
             unusable_offset
               (read_text (machine None installed ["ffmpeg"; "ffprobe"] probe
                             (Some content) stream) "film.ts.ini")).
  { intros probe stream. cbn [machine read_text]. 
    replace (existsb (String.eqb "film.ts.ini") installed) with true by reflexivity.
    cbn [unusable_offset].
    replace (Re.search start_time_pattern content) with (Some [(1%nat, "12:30:00")])
      by (vm_compute; reflexivity).
    exists "12:30:00". split; reflexivity. }
  split; [|split; [|split; [|split; [|split]]]].
  - refine (proj1 (unusable_offset_is_only_recovery
                     (with_sidecar (Some content)) "film.ts.ini" _)).
    cbn [with_sidecar read_text unusable_offset].
    replace (Re.search start_time_pattern content) with (Some [(1%nat, "12:30:00")])
      by (vm_compute; reflexivity).
    exists "12:30:00". split; reflexivity.
  - reflexivity.
  - vm_compute. reflexivity.
  - destruct (unusable_offset_is_only_recovery probe_fails "film.ts.ini" (U None []))
      as (_ & D & _).
    apply (D "film.ts" 0.5%float 0.98%float).
    vm_compute. right. exact I.
  - destruct (unusable_offset_is_only_recovery zero_duration "film.ts.ini"
                (U (Some "0.000000")
                   [Line "frame=  100 fps=0.0 q=-0.0 size=N/A time=00:00:04.00 bitrate=N/A"]))
      as (_ & D & _).
    apply (D "film.ts" 0.5%float 0.98%float).
    vm_compute. right. right. exact I.
  - destruct (unusable_offset_is_only_recovery child_fails "film.ts.ini"
                (U (Some "90.000000")
                   [Line "film.ts: Invalid data found when processing input"]))
      as (_ & D & _).
    apply (D "film.ts" 0.5%float 0.98%float).
    unfold other_failure. cbv zeta.
    replace (found (find_ffmpeg child_fails)) with (Some "/usr/bin/ffmpeg")
      by (vm_compute; reflexivity).
    replace (found (find_ffprobe child_fails)) with (Some "/usr/bin/ffprobe")
      by (vm_compute; reflexivity).
    replace (get_video_duration child_fails "film.ts" "/usr/bin/ffprobe")
      with (Some 90%float) by (vm_compute; reflexivity).
    replace (detect_black_frames child_fails "film.ts" "/usr/bin/ffmpeg" 90 0.5 0.98)
      with (Returned []) by (vm_compute; reflexivity).
    intros [[_ X]|[X|(seq & [] & _)]]; vm_compute in X; discriminate X.
Defined.

(** ** What the detection writes *)

(** The percentage written for a line is the one that the loop body
    records. *)
Lemma progress_shown_line (total : float) (st st' : detector) (line : string) :
  process_line total st line = Some st' ->
  progress_shown st'
  = (progress_shown st
     ++ match line_progress total line with Some p => [p] | None => [] end)%list.
Proof.
  unfold process_line, line_progress. intros H.
  apply obind_some in H as (shown & S & H).
  assert (E : shown = (progress_shown st
                       ++ match
                            match Re.search time_pattern (strip line) with
                            | Some g =>
                                current_time_str <- Re.group g 1 ;;
                                (if (total =? 0)%float then None
                                 else Some (time_str_to_seconds current_time_str
                                            / total * 100)%float)
                            | None => None
                            end
                          with Some p => [p] | None => [] end)%list).
  { destruct (Re.search time_pattern (strip line)) as [g|].
    - destruct (Re.group g 1) as [ts|]; cbn [obind] in *; [|discriminate S].
      destruct (total =? 0)%float; [discriminate S|]. now injection S as <-.
    - injection S as <-. now rewrite app_nil_r. }
  rewrite <- E. clear E S.
  destruct (Re.search black_pattern (strip line)) as [g|].
  - apply obind_some in H as (s & _ & H). apply obind_some in H as (e & _ & H).
    apply obind_some in H as (u & _ & H). apply obind_some in H as (x & _ & H).
    apply obind_some in H as (y & _ & H). apply obind_some in H as (z & _ & H).
    now injection H as <-.
  - now injection H as <-.
Qed.

(** A stream of lines that raise nothing: the progress of each, then the
    newline. *)
Lemma detect_written_lines (total : float) (lines : list string) :
  forall st, process_lines total st lines <> None ->
  detect_written total st (map Line lines)
  = (progress_writes total lines ++ [Written (String newline "")])%list.
Proof.
  unfold progress_writes.
  induction lines as [|l lines IH]; intros st H;
    cbn [map detect_written process_lines flat_map] in *.
  - reflexivity.
  - destruct (process_line total st l) as [st'|]; cbn [obind] in H;
      [|now contradiction H].
    rewrite (IH st' H). now rewrite app_assoc.
Qed.

(** X19. A whole run that detects nothing. With both executables found, a
    sidecar file whose [START_TIME] is made of components without
    fraction (minutes and seconds below 60), ffprobe printing a whole
    number of seconds that is not zero (with a fraction of zeros and any
    white space around) and a diagnostic stream in which no line holds
    [black_start:], [main] runs to its end and sends to standard output,
    in this order and nothing else: the offset and the duration as
    [HH:MM:SS:000], each printed on a line; the progress text of every
    line of the stream that holds a progress token, written without a
    newline; a newline; the notice that nothing was detected and a count
    of 0, each printed on a line. *)
Theorem run_without_detections
    (sys : system) (video ffmpeg ffprobe : string) (d t : float)
    (pre ws1 ws2 post : string) (oh om os : option string)
    (o1 o2 ip : string) (fp : option string) (lines : list string) :
  found (find_ffmpeg sys) = Some ffmpeg ->
  found (find_ffprobe sys) = Some ffprobe ->
  path_exists sys (video ++ ".ini") = true ->
  read_text sys (video ++ ".ini")
  = Some (assignment pre ws1 ws2 (hms_text oh om (whole_seconds os)) post) ->
  contains "START_TIME" pre = false ->
  all_chars isspace ws1 = true -> all_chars isspace ws2 = true ->
  unit_ok oh = true -> unit_ok om = true -> unit_ok os = true ->
  hms_text oh om (whole_seconds os) <> "" ->
  unit_value oh * 3600 + unit_value om * 60 + unit_value os < 2 ^ 53 ->
  unit_value om < 60 -> unit_value os < 60 ->
  ffprobe_output sys ffprobe video = Some (o1 ++ written ip fp ++ o2) ->
  all_chars isspace o1 = true -> all_chars isspace o2 = true ->
  digits ip = true -> all_chars (Ascii.eqb "0") (fraction fp) = true ->
  0 < PyFloat.digits_value 0 ip < 2 ^ 53 ->
  ffmpeg_stderr sys ffmpeg video d t = map Line lines ->
  Forall (fun l => contains "black_start:" l = false) lines ->
  let total := PyFloat.digits_value 0 ip in
  main sys video d t
  = ((Printed ("Offset START_TIME détecté : "
               ++ clock_text (unit_value oh) (unit_value om) (unit_value os))
      :: Printed ("Durée totale de la vidéo : "
                  ++ clock_text (total / 3600) (total mod 3600 / 60) (total mod 60))
      :: progress_writes (read_number ip fp) lines
      ++ [Written (String newline "");
          Printed (nl "Aucune séquence noire détectée.");
          Printed (nl "Nombres de séquences détectées = 0 Séquences")])%list,
     Completed).
Proof.
  intros F1 F2 I R C W1 W2 H M S N B Bm Bs O Wo1 Wo2 D Z Bd E L total.
  destruct (whole_offset pre ws1 ws2 post oh om os C W1 W2 H M S N B)
    as (offset & Eo & Wo & Ph & Pm & Ps).
  assert (Po : parse_ini_offset sys (video ++ ".ini") = offset).
  { unfold parse_ini_offset. rewrite R. cbn [obind]. now rewrite Eo. }
  assert (Zd : all_chars is_digit (fraction fp) = true).
  { revert Z. apply all_chars_weaken. intros c X. apply Ascii.eqb_eq in X. now subst c. }
  assert (G : get_video_duration sys video ffprobe = Some (read_number ip fp)).
  { unfold get_video_duration. rewrite O. cbn [obind].
    rewrite strip_written by assumption. now apply of_string_written. }
  pose proof (read_number_whole_part ip fp D Z ltac:(lia)) as Wt. fold total in Wt.
  assert (T0 : (read_number ip fp =? 0)%float = false).
  { rewrite (eqb_zero_whole _ _ Wt) by (unfold total; lia).
    apply Z.eqb_neq. unfold total. lia. }
  assert (Wr : detect_output sys video ffmpeg (read_number ip fp) d t
               = (progress_writes (read_number ip fp) lines
                  ++ [Written (String newline "")])%list).
  { unfold detect_output. rewrite E. apply detect_written_lines.
    destruct (process_lines_without_token (read_number ip fp) lines T0 L
                {| black_frames := []; progress_shown := [] |}) as (st' & -> & _).
    discriminate. }
  unfold main. rewrite F1, F2, I, Po.
  rewrite (clock_of_whole offset _ _ _ Wo) by lia. cbn [option_map].
  rewrite G. rewrite (format_time_full_whole _ _ Wt) by (unfold total; lia).
  cbv zeta. rewrite Wr.
  rewrite (detect_without_token sys video ffmpeg _ d t lines T0 E L).
  cbn [report map]. now rewrite <- app_assoc.
Qed.

Lemma run_without_detections_witness :
  let sys :=
    machine None ["/usr/bin/ffmpeg"; "/usr/bin/ffprobe"; "film.ts"; "film.ts.ini"]
      ["ffmpeg"; "ffprobe"] (Some ("90.000000" ++ String newline ""))
      (Some ("START_TIME=" ++ String dquote ("10h36m22s" ++ String dquote "")))
      [Line "frame=  100 fps=0.0 q=-0.0 size=N/A time=00:00:04.00 bitrate=N/A";
       Line "video:0kB audio:0kB subtitle:0kB other streams:0kB"] in
  main sys "film.ts" 0.5 0.98
  = ([Printed "Offset START_TIME détecté : 10:36:22:000";
      Printed "Durée totale de la vidéo : 00:01:30:000";
      Written (String carriage_return "Traitement : 4%");
      Written (String newline "");
      Printed (nl "Aucune séquence noire détectée.");
      Printed (nl "Nombres de séquences détectées = 0 Séquences")], Completed).
Proof.
  apply (run_without_detections
           (machine None ["/usr/bin/ffmpeg"; "/usr/bin/ffprobe"; "film.ts"; "film.ts.ini"]
              ["ffmpeg"; "ffprobe"] (Some ("90.000000" ++ String newline ""))
              (Some ("START_TIME=" ++ String dquote ("10h36m22s" ++ String dquote "")))
              [Line "frame=  100 fps=0.0 q=-0.0 size=N/A time=00:00:04.00 bitrate=N/A";
               Line "video:0kB audio:0kB subtitle:0kB other streams:0kB"])
           "film.ts" "/usr/bin/ffmpeg" "/usr/bin/ffprobe" 0.5 0.98
           "" "" "" "" (Some "10") (Some "36") (Some "22")
           "" (String newline "") "90" (Some "000000")
           ["frame=  100 fps=0.0 q=-0.0 size=N/A time=00:00:04.00 bitrate=N/A";
            "video:0kB audio:0kB subtitle:0kB other streams:0kB"]);
    try reflexivity; try discriminate.
  - split; reflexivity.
  - repeat constructor.
Defined.
